(** * main_SOLID.py: scheduling and playlist synchronisation, verified model

    A shallow embedding of [src/main_SOLID.py].  The pure parts of the
    program (string tests, the duration check, the title tag, the sorts)
    are Rocq functions; the parts that talk to the outside (the system
    clock read by [datetime.now()], the YouTube gateway) are written in a
    state-and-exception monad over an explicit [world].

    Conventions of the model.
    - A Python [str] is a list of code points ([pystr]).  Comparison,
      concatenation, the substring test, the regex classes ([\d], [\s]),
      [str.lower()] and [str.upper()] are written out for every code
      point, with the tables of Unicode 14.0 as CPython 3.11 holds them
      (the full case mappings, and the rule for a final capital sigma).
      [int] raises [ValueError] for more than 4300 digits, the
      interpreter's default limit.
    - A naive [datetime] is its proleptic Gregorian day number (Python's
      [toordinal()]) with the time-of-day fields.  The calendar ends on
      9999-12-31: a step beyond it raises [OverflowError].
    - [strftime] is not modelled: the schedule holds the instants whose
      rendering the program stores.
    - The platform behind the gateway is a model of its contract: a
      listing answers with the first [maxResults] records of the playlist,
      an insertion adds a membership record at its end, a deletion removes
      the record named, and any request may fail in transport (the world's
      [faults]).
    - Console output ([print]) is not modelled; gateway requests are
      recorded in the world's [trace].
    - A loop whose end the program does not bound by a count takes a
      [fuel]: the number of turns it is allowed.  [OutOfFuel] says that the
      loop is still turning when the fuel is spent. *)

From Stdlib Require Import ZArith NArith List Bool Lia String Ascii.
From Stdlib Require Import Sorted Permutation DecimalN DecimalPos.
Import ListNotations.

(** ** Python strings *)
Module PyStr.

Local Open Scope N_scope.

Definition codepoint := N.
Definition pystr := list codepoint.

(** A literal of ASCII text. *)
Definition py (s : string) : pystr :=
  map N_of_ascii (list_ascii_of_string s).

Fixpoint str_eqb (a b : pystr) : bool :=
  match a, b with
  | [], [] => true
  | x :: a', y :: b' => N.eqb x y && str_eqb a' b'
  | _, _ => false
  end.

(** [a < b] on [str]: lexicographic on code points. *)
Fixpoint str_ltb (a b : pystr) : bool :=
  match a, b with
  | [], [] => false
  | [], _ :: _ => true
  | _ :: _, [] => false
  | x :: a', y :: b' =>
      if N.ltb x y then true
      else if N.eqb x y then str_ltb a' b' else false
  end.

(** [a <= b] on [str]. *)
Definition str_le (a b : pystr) : Prop := str_ltb b a = false.

Fixpoint startswith (p s : pystr) : bool :=
  match p, s with
  | [], _ => true
  | _ :: _, [] => false
  | x :: p', y :: s' => N.eqb x y && startswith p' s'
  end.

(** [needle in hay]. *)
Fixpoint contains (needle hay : pystr) : bool :=
  startswith needle hay ||
  match hay with
  | [] => false
  | _ :: t => contains needle t
  end.

(** The case tables of Unicode 14.0, as CPython 3.11 holds them.  A row
    [(lo, hi, step, to)] maps the code points [lo], [lo + step], ...,
    [hi] to [to], [to + step], ... in that order. *)
Definition case_row := (codepoint * codepoint * codepoint * codepoint)%type.

Definition in_row (c : codepoint) (r : case_row) : bool :=
  let '(lo, hi, step, _) := r in
  (lo <=? c) && (c <=? hi) && ((c - lo) mod step =? 0).

Definition map_rows (rows : list case_row) (c : codepoint) : codepoint :=
  match find (in_row c) rows with
  | Some (lo, _, _, to) => c - lo + to
  | None => c
  end.

Definition in_ranges (c : codepoint) (rs : list (codepoint * codepoint))
  : bool :=
  existsb (fun r => (fst r <=? c) && (c <=? snd r)) rs.

(** Lower-case mappings to one code point. *)
Definition lower_rows : list case_row :=
  [(65, 90, 1, 97); (192, 214, 1, 224); (216, 222, 1, 248); (256, 302, 2, 257);
   (306, 310, 2, 307); (313, 327, 2, 314); (330, 374, 2, 331); (376, 376, 1,
   255); (377, 381, 2, 378); (385, 385, 1, 595); (386, 388, 2, 387); (390, 390,
   1, 596); (391, 391, 1, 392); (393, 394, 1, 598); (395, 395, 1, 396); (398,
   398, 1, 477); (399, 399, 1, 601); (400, 400, 1, 603); (401, 401, 1, 402);
   (403, 403, 1, 608); (404, 404, 1, 611); (406, 406, 1, 617); (407, 407, 1,
   616); (408, 408, 1, 409); (412, 412, 1, 623); (413, 413, 1, 626); (415, 415,
   1, 629); (416, 420, 2, 417); (422, 422, 1, 640); (423, 423, 1, 424); (425,
   425, 1, 643); (428, 428, 1, 429); (430, 430, 1, 648); (431, 431, 1, 432);
   (433, 434, 1, 650); (435, 437, 2, 436); (439, 439, 1, 658); (440, 440, 1,
   441); (444, 444, 1, 445); (452, 452, 1, 454); (453, 453, 1, 454); (455, 455,
   1, 457); (456, 456, 1, 457); (458, 458, 1, 460); (459, 475, 2, 460); (478,
   494, 2, 479); (497, 497, 1, 499); (498, 500, 2, 499); (502, 502, 1, 405);
   (503, 503, 1, 447); (504, 542, 2, 505); (544, 544, 1, 414); (546, 562, 2,
   547); (570, 570, 1, 11365); (571, 571, 1, 572); (573, 573, 1, 410); (574,
   574, 1, 11366); (577, 577, 1, 578); (579, 579, 1, 384); (580, 580, 1, 649);
   (581, 581, 1, 652); (582, 590, 2, 583); (880, 882, 2, 881); (886, 886, 1,
   887); (895, 895, 1, 1011); (902, 902, 1, 940); (904, 906, 1, 941); (908,
   908, 1, 972); (910, 911, 1, 973); (913, 929, 1, 945); (931, 939, 1, 963);
   (975, 975, 1, 983); (984, 1006, 2, 985); (1012, 1012, 1, 952); (1015, 1015,
   1, 1016); (1017, 1017, 1, 1010); (1018, 1018, 1, 1019); (1021, 1023, 1,
   891); (1024, 1039, 1, 1104); (1040, 1071, 1, 1072); (1120, 1152, 2, 1121);
   (1162, 1214, 2, 1163); (1216, 1216, 1, 1231); (1217, 1229, 2, 1218); (1232,
   1326, 2, 1233); (1329, 1366, 1, 1377); (4256, 4293, 1, 11520); (4295, 4295,
   1, 11559); (4301, 4301, 1, 11565); (5024, 5103, 1, 43888); (5104, 5109, 1,
   5112); (7312, 7354, 1, 4304); (7357, 7359, 1, 4349); (7680, 7828, 2, 7681);
   (7838, 7838, 1, 223); (7840, 7934, 2, 7841); (7944, 7951, 1, 7936); (7960,
   7965, 1, 7952); (7976, 7983, 1, 7968); (7992, 7999, 1, 7984); (8008, 8013,
   1, 8000); (8025, 8031, 2, 8017); (8040, 8047, 1, 8032); (8072, 8079, 1,
   8064); (8088, 8095, 1, 8080); (8104, 8111, 1, 8096); (8120, 8121, 1, 8112);
   (8122, 8123, 1, 8048); (8124, 8124, 1, 8115); (8136, 8139, 1, 8050); (8140,
   8140, 1, 8131); (8152, 8153, 1, 8144); (8154, 8155, 1, 8054); (8168, 8169,
   1, 8160); (8170, 8171, 1, 8058); (8172, 8172, 1, 8165); (8184, 8185, 1,
   8056); (8186, 8187, 1, 8060); (8188, 8188, 1, 8179); (8486, 8486, 1, 969);
   (8490, 8490, 1, 107); (8491, 8491, 1, 229); (8498, 8498, 1, 8526); (8544,
   8559, 1, 8560); (8579, 8579, 1, 8580); (9398, 9423, 1, 9424); (11264, 11311,
   1, 11312); (11360, 11360, 1, 11361); (11362, 11362, 1, 619); (11363, 11363,
   1, 7549); (11364, 11364, 1, 637); (11367, 11371, 2, 11368); (11373, 11373,
   1, 593); (11374, 11374, 1, 625); (11375, 11375, 1, 592); (11376, 11376, 1,
   594); (11378, 11378, 1, 11379); (11381, 11381, 1, 11382); (11390, 11391, 1,
   575); (11392, 11490, 2, 11393); (11499, 11501, 2, 11500); (11506, 11506, 1,
   11507); (42560, 42604, 2, 42561); (42624, 42650, 2, 42625); (42786, 42798,
   2, 42787); (42802, 42862, 2, 42803); (42873, 42875, 2, 42874); (42877,
   42877, 1, 7545); (42878, 42886, 2, 42879); (42891, 42891, 1, 42892); (42893,
   42893, 1, 613); (42896, 42898, 2, 42897); (42902, 42920, 2, 42903); (42922,
   42922, 1, 614); (42923, 42923, 1, 604); (42924, 42924, 1, 609); (42925,
   42925, 1, 620); (42926, 42926, 1, 618); (42928, 42928, 1, 670); (42929,
   42929, 1, 647); (42930, 42930, 1, 669); (42931, 42931, 1, 43859); (42932,
   42946, 2, 42933); (42948, 42948, 1, 42900); (42949, 42949, 1, 642); (42950,
   42950, 1, 7566); (42951, 42953, 2, 42952); (42960, 42960, 1, 42961); (42966,
   42968, 2, 42967); (42997, 42997, 1, 42998); (65313, 65338, 1, 65345);
   (66560, 66599, 1, 66600); (66736, 66771, 1, 66776); (66928, 66938, 1,
   66967); (66940, 66954, 1, 66979); (66956, 66962, 1, 66995); (66964, 66965,
   1, 67003); (68736, 68786, 1, 68800); (71840, 71871, 1, 71872); (93760,
   93791, 1, 93792); (125184, 125217, 1, 125218)].

(** Upper-case mappings to one code point. *)
Definition upper_rows : list case_row :=
  [(97, 122, 1, 65); (181, 181, 1, 924); (224, 246, 1, 192); (248, 254, 1,
   216); (255, 255, 1, 376); (257, 303, 2, 256); (305, 305, 1, 73); (307, 311,
   2, 306); (314, 328, 2, 313); (331, 375, 2, 330); (378, 382, 2, 377); (383,
   383, 1, 83); (384, 384, 1, 579); (387, 389, 2, 386); (392, 392, 1, 391);
   (396, 396, 1, 395); (402, 402, 1, 401); (405, 405, 1, 502); (409, 409, 1,
   408); (410, 410, 1, 573); (414, 414, 1, 544); (417, 421, 2, 416); (424, 424,
   1, 423); (429, 429, 1, 428); (432, 432, 1, 431); (436, 438, 2, 435); (441,
   441, 1, 440); (445, 445, 1, 444); (447, 447, 1, 503); (453, 453, 1, 452);
   (454, 454, 1, 452); (456, 456, 1, 455); (457, 457, 1, 455); (459, 459, 1,
   458); (460, 460, 1, 458); (462, 476, 2, 461); (477, 477, 1, 398); (479, 495,
   2, 478); (498, 498, 1, 497); (499, 499, 1, 497); (501, 501, 1, 500); (505,
   543, 2, 504); (547, 563, 2, 546); (572, 572, 1, 571); (575, 576, 1, 11390);
   (578, 578, 1, 577); (583, 591, 2, 582); (592, 592, 1, 11375); (593, 593, 1,
   11373); (594, 594, 1, 11376); (595, 595, 1, 385); (596, 596, 1, 390); (598,
   599, 1, 393); (601, 601, 1, 399); (603, 603, 1, 400); (604, 604, 1, 42923);
   (608, 608, 1, 403); (609, 609, 1, 42924); (611, 611, 1, 404); (613, 613, 1,
   42893); (614, 614, 1, 42922); (616, 616, 1, 407); (617, 617, 1, 406); (618,
   618, 1, 42926); (619, 619, 1, 11362); (620, 620, 1, 42925); (623, 623, 1,
   412); (625, 625, 1, 11374); (626, 626, 1, 413); (629, 629, 1, 415); (637,
   637, 1, 11364); (640, 640, 1, 422); (642, 642, 1, 42949); (643, 643, 1,
   425); (647, 647, 1, 42929); (648, 648, 1, 430); (649, 649, 1, 580); (650,
   651, 1, 433); (652, 652, 1, 581); (658, 658, 1, 439); (669, 669, 1, 42930);
   (670, 670, 1, 42928); (837, 837, 1, 921); (881, 883, 2, 880); (887, 887, 1,
   886); (891, 893, 1, 1021); (940, 940, 1, 902); (941, 943, 1, 904); (945,
   961, 1, 913); (962, 962, 1, 931); (963, 971, 1, 931); (972, 972, 1, 908);
   (973, 974, 1, 910); (976, 976, 1, 914); (977, 977, 1, 920); (981, 981, 1,
   934); (982, 982, 1, 928); (983, 983, 1, 975); (985, 1007, 2, 984); (1008,
   1008, 1, 922); (1009, 1009, 1, 929); (1010, 1010, 1, 1017); (1011, 1011, 1,
   895); (1013, 1013, 1, 917); (1016, 1016, 1, 1015); (1019, 1019, 1, 1018);
   (1072, 1103, 1, 1040); (1104, 1119, 1, 1024); (1121, 1153, 2, 1120); (1163,
   1215, 2, 1162); (1218, 1230, 2, 1217); (1231, 1231, 1, 1216); (1233, 1327,
   2, 1232); (1377, 1414, 1, 1329); (4304, 4346, 1, 7312); (4349, 4351, 1,
   7357); (5112, 5117, 1, 5104); (7296, 7296, 1, 1042); (7297, 7297, 1, 1044);
   (7298, 7298, 1, 1054); (7299, 7300, 1, 1057); (7301, 7301, 1, 1058); (7302,
   7302, 1, 1066); (7303, 7303, 1, 1122); (7304, 7304, 1, 42570); (7545, 7545,
   1, 42877); (7549, 7549, 1, 11363); (7566, 7566, 1, 42950); (7681, 7829, 2,
   7680); (7835, 7835, 1, 7776); (7841, 7935, 2, 7840); (7936, 7943, 1, 7944);
   (7952, 7957, 1, 7960); (7968, 7975, 1, 7976); (7984, 7991, 1, 7992); (8000,
   8005, 1, 8008); (8017, 8023, 2, 8025); (8032, 8039, 1, 8040); (8048, 8049,
   1, 8122); (8050, 8053, 1, 8136); (8054, 8055, 1, 8154); (8056, 8057, 1,
   8184); (8058, 8059, 1, 8170); (8060, 8061, 1, 8186); (8112, 8113, 1, 8120);
   (8126, 8126, 1, 921); (8144, 8145, 1, 8152); (8160, 8161, 1, 8168); (8165,
   8165, 1, 8172); (8526, 8526, 1, 8498); (8560, 8575, 1, 8544); (8580, 8580,
   1, 8579); (9424, 9449, 1, 9398); (11312, 11359, 1, 11264); (11361, 11361, 1,
   11360); (11365, 11365, 1, 570); (11366, 11366, 1, 574); (11368, 11372, 2,
   11367); (11379, 11379, 1, 11378); (11382, 11382, 1, 11381); (11393, 11491,
   2, 11392); (11500, 11502, 2, 11499); (11507, 11507, 1, 11506); (11520,
   11557, 1, 4256); (11559, 11559, 1, 4295); (11565, 11565, 1, 4301); (42561,
   42605, 2, 42560); (42625, 42651, 2, 42624); (42787, 42799, 2, 42786);
   (42803, 42863, 2, 42802); (42874, 42876, 2, 42873); (42879, 42887, 2,
   42878); (42892, 42892, 1, 42891); (42897, 42899, 2, 42896); (42900, 42900,
   1, 42948); (42903, 42921, 2, 42902); (42933, 42947, 2, 42932); (42952,
   42954, 2, 42951); (42961, 42961, 1, 42960); (42967, 42969, 2, 42966);
   (42998, 42998, 1, 42997); (43859, 43859, 1, 42931); (43888, 43967, 1, 5024);
   (65345, 65370, 1, 65313); (66600, 66639, 1, 66560); (66776, 66811, 1,
   66736); (66967, 66977, 1, 66928); (66979, 66993, 1, 66940); (66995, 67001,
   1, 66956); (67003, 67004, 1, 66964); (68800, 68850, 1, 68736); (71872,
   71903, 1, 71840); (93792, 93823, 1, 93760); (125218, 125251, 1, 125184)].

(** Upper-case mappings to two or three code points. *)
Definition upper_special : list (codepoint * pystr) :=
  [(223, [83; 83]); (329, [700; 78]); (496, [74; 780]); (912, [921; 776; 769]);
   (944, [933; 776; 769]); (1415, [1333; 1362]); (7830, [72; 817]); (7831, [84;
   776]); (7832, [87; 778]); (7833, [89; 778]); (7834, [65; 702]); (8016, [933;
   787]); (8018, [933; 787; 768]); (8020, [933; 787; 769]); (8022, [933; 787;
   834]); (8064, [7944; 921]); (8065, [7945; 921]); (8066, [7946; 921]); (8067,
   [7947; 921]); (8068, [7948; 921]); (8069, [7949; 921]); (8070, [7950; 921]);
   (8071, [7951; 921]); (8072, [7944; 921]); (8073, [7945; 921]); (8074, [7946;
   921]); (8075, [7947; 921]); (8076, [7948; 921]); (8077, [7949; 921]); (8078,
   [7950; 921]); (8079, [7951; 921]); (8080, [7976; 921]); (8081, [7977; 921]);
   (8082, [7978; 921]); (8083, [7979; 921]); (8084, [7980; 921]); (8085, [7981;
   921]); (8086, [7982; 921]); (8087, [7983; 921]); (8088, [7976; 921]); (8089,
   [7977; 921]); (8090, [7978; 921]); (8091, [7979; 921]); (8092, [7980; 921]);
   (8093, [7981; 921]); (8094, [7982; 921]); (8095, [7983; 921]); (8096, [8040;
   921]); (8097, [8041; 921]); (8098, [8042; 921]); (8099, [8043; 921]); (8100,
   [8044; 921]); (8101, [8045; 921]); (8102, [8046; 921]); (8103, [8047; 921]);
   (8104, [8040; 921]); (8105, [8041; 921]); (8106, [8042; 921]); (8107, [8043;
   921]); (8108, [8044; 921]); (8109, [8045; 921]); (8110, [8046; 921]); (8111,
   [8047; 921]); (8114, [8122; 921]); (8115, [913; 921]); (8116, [902; 921]);
   (8118, [913; 834]); (8119, [913; 834; 921]); (8124, [913; 921]); (8130,
   [8138; 921]); (8131, [919; 921]); (8132, [905; 921]); (8134, [919; 834]);
   (8135, [919; 834; 921]); (8140, [919; 921]); (8146, [921; 776; 768]); (8147,
   [921; 776; 769]); (8150, [921; 834]); (8151, [921; 776; 834]); (8162, [933;
   776; 768]); (8163, [933; 776; 769]); (8164, [929; 787]); (8166, [933; 834]);
   (8167, [933; 776; 834]); (8178, [8186; 921]); (8179, [937; 921]); (8180,
   [911; 921]); (8182, [937; 834]); (8183, [937; 834; 921]); (8188, [937;
   921]); (64256, [70; 70]); (64257, [70; 73]); (64258, [70; 76]); (64259, [70;
   70; 73]); (64260, [70; 70; 76]); (64261, [83; 84]); (64262, [83; 84]);
   (64275, [1348; 1350]); (64276, [1348; 1333]); (64277, [1348; 1339]); (64278,
   [1358; 1350]); (64279, [1348; 1341])].

(** The case-ignorable code points, as ranges. *)
Definition case_ignorable : list (codepoint * codepoint) :=
  [(39, 39); (46, 46); (58, 58); (94, 94); (96, 96); (168, 168); (173, 173);
   (175, 175); (180, 180); (183, 184); (688, 879); (884, 885); (890, 890);
   (900, 901); (903, 903); (1155, 1161); (1369, 1369); (1375, 1375); (1425,
   1469); (1471, 1471); (1473, 1474); (1476, 1477); (1479, 1479); (1524, 1524);
   (1536, 1541); (1552, 1562); (1564, 1564); (1600, 1600); (1611, 1631); (1648,
   1648); (1750, 1757); (1759, 1768); (1770, 1773); (1807, 1807); (1809, 1809);
   (1840, 1866); (1958, 1968); (2027, 2037); (2042, 2042); (2045, 2045); (2070,
   2093); (2137, 2139); (2184, 2184); (2192, 2193); (2200, 2207); (2249, 2306);
   (2362, 2362); (2364, 2364); (2369, 2376); (2381, 2381); (2385, 2391); (2402,
   2403); (2417, 2417); (2433, 2433); (2492, 2492); (2497, 2500); (2509, 2509);
   (2530, 2531); (2558, 2558); (2561, 2562); (2620, 2620); (2625, 2626); (2631,
   2632); (2635, 2637); (2641, 2641); (2672, 2673); (2677, 2677); (2689, 2690);
   (2748, 2748); (2753, 2757); (2759, 2760); (2765, 2765); (2786, 2787); (2810,
   2815); (2817, 2817); (2876, 2876); (2879, 2879); (2881, 2884); (2893, 2893);
   (2901, 2902); (2914, 2915); (2946, 2946); (3008, 3008); (3021, 3021); (3072,
   3072); (3076, 3076); (3132, 3132); (3134, 3136); (3142, 3144); (3146, 3149);
   (3157, 3158); (3170, 3171); (3201, 3201); (3260, 3260); (3263, 3263); (3270,
   3270); (3276, 3277); (3298, 3299); (3328, 3329); (3387, 3388); (3393, 3396);
   (3405, 3405); (3426, 3427); (3457, 3457); (3530, 3530); (3538, 3540); (3542,
   3542); (3633, 3633); (3636, 3642); (3654, 3662); (3761, 3761); (3764, 3772);
   (3782, 3782); (3784, 3789); (3864, 3865); (3893, 3893); (3895, 3895); (3897,
   3897); (3953, 3966); (3968, 3972); (3974, 3975); (3981, 3991); (3993, 4028);
   (4038, 4038); (4141, 4144); (4146, 4151); (4153, 4154); (4157, 4158); (4184,
   4185); (4190, 4192); (4209, 4212); (4226, 4226); (4229, 4230); (4237, 4237);
   (4253, 4253); (4348, 4348); (4957, 4959); (5906, 5908); (5938, 5939); (5970,
   5971); (6002, 6003); (6068, 6069); (6071, 6077); (6086, 6086); (6089, 6099);
   (6103, 6103); (6109, 6109); (6155, 6159); (6211, 6211); (6277, 6278); (6313,
   6313); (6432, 6434); (6439, 6440); (6450, 6450); (6457, 6459); (6679, 6680);
   (6683, 6683); (6742, 6742); (6744, 6750); (6752, 6752); (6754, 6754); (6757,
   6764); (6771, 6780); (6783, 6783); (6823, 6823); (6832, 6862); (6912, 6915);
   (6964, 6964); (6966, 6970); (6972, 6972); (6978, 6978); (7019, 7027); (7040,
   7041); (7074, 7077); (7080, 7081); (7083, 7085); (7142, 7142); (7144, 7145);
   (7149, 7149); (7151, 7153); (7212, 7219); (7222, 7223); (7288, 7293); (7376,
   7378); (7380, 7392); (7394, 7400); (7405, 7405); (7412, 7412); (7416, 7417);
   (7468, 7530); (7544, 7544); (7579, 7679); (8125, 8125); (8127, 8129); (8141,
   8143); (8157, 8159); (8173, 8175); (8189, 8190); (8203, 8207); (8216, 8217);
   (8228, 8228); (8231, 8231); (8234, 8238); (8288, 8292); (8294, 8303); (8305,
   8305); (8319, 8319); (8336, 8348); (8400, 8432); (11388, 11389); (11503,
   11505); (11631, 11631); (11647, 11647); (11744, 11775); (11823, 11823);
   (12293, 12293); (12330, 12333); (12337, 12341); (12347, 12347); (12441,
   12446); (12540, 12542); (40981, 40981); (42232, 42237); (42508, 42508);
   (42607, 42610); (42612, 42621); (42623, 42623); (42652, 42655); (42736,
   42737); (42752, 42785); (42864, 42864); (42888, 42890); (42994, 42996);
   (43000, 43001); (43010, 43010); (43014, 43014); (43019, 43019); (43045,
   43046); (43052, 43052); (43204, 43205); (43232, 43249); (43263, 43263);
   (43302, 43309); (43335, 43345); (43392, 43394); (43443, 43443); (43446,
   43449); (43452, 43453); (43471, 43471); (43493, 43494); (43561, 43566);
   (43569, 43570); (43573, 43574); (43587, 43587); (43596, 43596); (43632,
   43632); (43644, 43644); (43696, 43696); (43698, 43700); (43703, 43704);
   (43710, 43711); (43713, 43713); (43741, 43741); (43756, 43757); (43763,
   43764); (43766, 43766); (43867, 43871); (43881, 43883); (44005, 44005);
   (44008, 44008); (44013, 44013); (64286, 64286); (64434, 64450); (65024,
   65039); (65043, 65043); (65056, 65071); (65106, 65106); (65109, 65109);
   (65279, 65279); (65287, 65287); (65294, 65294); (65306, 65306); (65342,
   65342); (65344, 65344); (65392, 65392); (65438, 65439); (65507, 65507);
   (65529, 65531); (66045, 66045); (66272, 66272); (66422, 66426); (67456,
   67461); (67463, 67504); (67506, 67514); (68097, 68099); (68101, 68102);
   (68108, 68111); (68152, 68154); (68159, 68159); (68325, 68326); (68900,
   68903); (69291, 69292); (69446, 69456); (69506, 69509); (69633, 69633);
   (69688, 69702); (69744, 69744); (69747, 69748); (69759, 69761); (69811,
   69814); (69817, 69818); (69821, 69821); (69826, 69826); (69837, 69837);
   (69888, 69890); (69927, 69931); (69933, 69940); (70003, 70003); (70016,
   70017); (70070, 70078); (70089, 70092); (70095, 70095); (70191, 70193);
   (70196, 70196); (70198, 70199); (70206, 70206); (70367, 70367); (70371,
   70378); (70400, 70401); (70459, 70460); (70464, 70464); (70502, 70508);
   (70512, 70516); (70712, 70719); (70722, 70724); (70726, 70726); (70750,
   70750); (70835, 70840); (70842, 70842); (70847, 70848); (70850, 70851);
   (71090, 71093); (71100, 71101); (71103, 71104); (71132, 71133); (71219,
   71226); (71229, 71229); (71231, 71232); (71339, 71339); (71341, 71341);
   (71344, 71349); (71351, 71351); (71453, 71455); (71458, 71461); (71463,
   71467); (71727, 71735); (71737, 71738); (71995, 71996); (71998, 71998);
   (72003, 72003); (72148, 72151); (72154, 72155); (72160, 72160); (72193,
   72202); (72243, 72248); (72251, 72254); (72263, 72263); (72273, 72278);
   (72281, 72283); (72330, 72342); (72344, 72345); (72752, 72758); (72760,
   72765); (72767, 72767); (72850, 72871); (72874, 72880); (72882, 72883);
   (72885, 72886); (73009, 73014); (73018, 73018); (73020, 73021); (73023,
   73029); (73031, 73031); (73104, 73105); (73109, 73109); (73111, 73111);
   (73459, 73460); (78896, 78904); (92912, 92916); (92976, 92982); (92992,
   92995); (94031, 94031); (94095, 94111); (94176, 94177); (94179, 94180);
   (110576, 110579); (110581, 110587); (110589, 110590); (113821, 113822);
   (113824, 113827); (118528, 118573); (118576, 118598); (119143, 119145);
   (119155, 119170); (119173, 119179); (119210, 119213); (119362, 119364);
   (121344, 121398); (121403, 121452); (121461, 121461); (121476, 121476);
   (121499, 121503); (121505, 121519); (122880, 122886); (122888, 122904);
   (122907, 122913); (122915, 122916); (122918, 122922); (123184, 123197);
   (123566, 123566); (123628, 123631); (125136, 125142); (125252, 125259);
   (127995, 127999); (917505, 917505); (917536, 917631); (917760, 917999)].

(** The cased code points that are not case-ignorable, as ranges. *)
Definition cased : list (codepoint * codepoint) :=
  [(65, 90); (97, 122); (170, 170); (181, 181); (186, 186); (192, 214); (216,
   246); (248, 442); (444, 447); (452, 659); (661, 687); (880, 883); (886,
   887); (891, 893); (895, 895); (902, 902); (904, 906); (908, 908); (910,
   929); (931, 1013); (1015, 1153); (1162, 1327); (1329, 1366); (1376, 1416);
   (4256, 4293); (4295, 4295); (4301, 4301); (4304, 4346); (4349, 4351); (5024,
   5109); (5112, 5117); (7296, 7304); (7312, 7354); (7357, 7359); (7424, 7467);
   (7531, 7543); (7545, 7578); (7680, 7957); (7960, 7965); (7968, 8005); (8008,
   8013); (8016, 8023); (8025, 8025); (8027, 8027); (8029, 8029); (8031, 8061);
   (8064, 8116); (8118, 8124); (8126, 8126); (8130, 8132); (8134, 8140); (8144,
   8147); (8150, 8155); (8160, 8172); (8178, 8180); (8182, 8188); (8450, 8450);
   (8455, 8455); (8458, 8467); (8469, 8469); (8473, 8477); (8484, 8484); (8486,
   8486); (8488, 8488); (8490, 8493); (8495, 8500); (8505, 8505); (8508, 8511);
   (8517, 8521); (8526, 8526); (8544, 8575); (8579, 8580); (9398, 9449);
   (11264, 11387); (11390, 11492); (11499, 11502); (11506, 11507); (11520,
   11557); (11559, 11559); (11565, 11565); (42560, 42605); (42624, 42651);
   (42786, 42863); (42865, 42887); (42891, 42894); (42896, 42954); (42960,
   42961); (42963, 42963); (42965, 42969); (42997, 42998); (43002, 43002);
   (43824, 43866); (43872, 43880); (43888, 43967); (64256, 64262); (64275,
   64279); (65313, 65338); (65345, 65370); (66560, 66639); (66736, 66771);
   (66776, 66811); (66928, 66938); (66940, 66954); (66956, 66962); (66964,
   66965); (66967, 66977); (66979, 66993); (66995, 67001); (67003, 67004);
   (68736, 68786); (68800, 68850); (71840, 71903); (93760, 93823); (119808,
   119892); (119894, 119964); (119966, 119967); (119970, 119970); (119973,
   119974); (119977, 119980); (119982, 119993); (119995, 119995); (119997,
   120003); (120005, 120069); (120071, 120074); (120077, 120084); (120086,
   120092); (120094, 120121); (120123, 120126); (120128, 120132); (120134,
   120134); (120138, 120144); (120146, 120485); (120488, 120512); (120514,
   120538); (120540, 120570); (120572, 120596); (120598, 120628); (120630,
   120654); (120656, 120686); (120688, 120712); (120714, 120744); (120746,
   120770); (120772, 120779); (122624, 122633); (122635, 122654); (125184,
   125251); (127280, 127305); (127312, 127337); (127344, 127369)].

(** The simple lower-case mapping, one code point to one
    ([Py_UNICODE_TOLOWER]): capital I with dot above goes to "i". *)
Definition tolower_cp (c : codepoint) : codepoint :=
  if c =? 304 then 105 else map_rows lower_rows c.

(** The full lower-case mapping of a code point other than capital
    sigma: capital I with dot above goes to "i" and a combining dot. *)
Definition lower_cp (c : codepoint) : pystr :=
  if c =? 304 then [105; 775] else [map_rows lower_rows c].

Fixpoint skip_ignorable (s : pystr) : pystr :=
  match s with
  | [] => []
  | c :: t => if in_ranges c case_ignorable then skip_ignorable t else s
  end.

(** Whether a capital sigma is final: a cased letter comes before it and
    none after it, case-ignorable characters in between set aside.
    [before] is what precedes the sigma, nearest first. *)
Definition final_sigma (before after : pystr) : bool :=
  match skip_ignorable before with
  | [] => false
  | b :: _ =>
      in_ranges b cased &&
      match skip_ignorable after with
      | [] => true
      | a :: _ => negb (in_ranges a cased)
      end
  end.

(** [str.lower()] from a position on, [before] being what precedes it,
    nearest first. *)
Fixpoint lower_from (before s : pystr) : pystr :=
  match s with
  | [] => []
  | c :: t =>
      (if c =? 931
       then [if final_sigma before t then 962 else 963]
       else lower_cp c)
      ++ lower_from (c :: before) t
  end.

(** [str.lower()]. *)
Definition lower (s : pystr) : pystr := lower_from [] s.

(** The full upper-case mapping of a code point. *)
Definition upper_cp (c : codepoint) : pystr :=
  match find (fun e => fst e =? c) upper_special with
  | Some (_, u) => u
  | None => [map_rows upper_rows c]
  end.

(** [str.upper()]. *)
Definition upper (s : pystr) : pystr := flat_map upper_cp s.

(** The first code points of the runs of ten decimal digits (category
    Nd): the digits 0..9 of each script, ASCII first. *)
Definition decimal_runs : list codepoint :=
  [48; 1632; 1776; 1984; 2406; 2534; 2662; 2790; 2918; 3046; 3174; 3302;
   3430; 3558; 3664; 3792; 3872; 4160; 4240; 6112; 6160; 6470; 6608; 6784;
   6800; 6992; 7088; 7232; 7248; 42528; 43216; 43264; 43472; 43504; 43600;
   44016; 65296; 66720; 68912; 69734; 69872; 69942; 70096; 70384; 70736;
   70864; 71248; 71360; 71472; 71904; 72016; 72784; 73040; 73120; 92768;
   92864; 93008; 120782; 120792; 120802; 120812; 120822; 123200; 123632;
   125264; 130032].

Definition in_run (c b : codepoint) : bool := (b <=? c) && (c <=? b + 9).

(** The class [\d] of a [str] pattern: any decimal digit. *)
Definition is_digit (c : codepoint) : bool := existsb (in_run c) decimal_runs.

(** The value of a decimal digit. *)
Definition digit_value (c : codepoint) : Z :=
  match find (in_run c) decimal_runs with
  | Some b => Z.of_N (c - b)
  | None => 0%Z
  end.

(** The class [\s] of a [str] pattern: the characters [str.isspace]
    holds of. *)
Definition is_space (c : codepoint) : bool :=
  ((9 <=? c) && (c <=? 13)) || ((28 <=? c) && (c <=? 32))
  || (c =? 133) || (c =? 160) || (c =? 5760)
  || ((8192 <=? c) && (c <=? 8202))
  || (c =? 8232) || (c =? 8233) || (c =? 8239) || (c =? 8287)
  || (c =? 12288).

(** The longest prefix in a class, and the rest. *)
Fixpoint span (p : codepoint -> bool) (s : pystr) : pystr * pystr :=
  match s with
  | [] => ([], [])
  | c :: t =>
      if p c then let (a, b) := span p t in (c :: a, b) else ([], s)
  end.

(** [re.search(r"(\d+)X", s)] for a literal [X] that is no digit: the
    leftmost position where a maximal run of digits is followed by [X];
    the value is group 1. *)
Fixpoint search_digits_then (mark : codepoint) (s : pystr) : option pystr :=
  match s with
  | [] => None
  | _ :: t =>
      match span is_digit s with
      | ((_ :: _) as ds, m :: _) =>
          if N.eqb m mark then Some ds else search_digits_then mark t
      | _ => search_digits_then mark t
      end
  end.

(** A literal matched at the head of [s] under a character equality;
    the value is what follows the literal. *)
Fixpoint match_literal (eqc : codepoint -> codepoint -> bool)
  (lit s : pystr) : option pystr :=
  match lit, s with
  | [], _ => Some s
  | _ :: _, [] => None
  | x :: lit', y :: s' =>
      if eqc x y then match_literal eqc lit' s' else None
  end.

(** [re.search(LIT + r"\s+(\d+)", s)]: group 1 of the leftmost match. *)
Fixpoint search_lit_ws_digits (eqc : codepoint -> codepoint -> bool)
  (lit s : pystr) : option pystr :=
  let here :=
    match match_literal eqc lit s with
    | Some rest =>
        match span is_space rest with
        | (_ :: _, rest') =>
            match span is_digit rest' with
            | ((_ :: _) as ds, _) => Some ds
            | _ => None
            end
        | _ => None
        end
    | None => None
    end in
  match here with
  | Some ds => Some ds
  | None =>
      match s with
      | [] => None
      | _ :: t => search_lit_ws_digits eqc lit t
      end
  end.

(** Character equality under [re.IGNORECASE], for a literal of the
    pattern that has no other case-equivalent than its simple lower-case
    and upper-case forms (as every letter of "Capítulo" has): the two
    have the same simple lower case. *)
Definition eqc_ignorecase (a b : codepoint) : bool :=
  N.eqb (tolower_cp a) (tolower_cp b).

(** The value of a run of decimal digits. *)
Definition digits_value (ds : pystr) : Z :=
  fold_left (fun acc c => (acc * 10 + digit_value c)%Z) ds 0%Z.

(** [int(ds)] for a run of decimal digits: [None] stands for the
    [ValueError] raised for more than 4300 digits
    ([sys.get_int_max_str_digits()]). *)
Definition int_of_digits (ds : pystr) : option Z :=
  if N.of_nat (List.length ds) <=? 4300 then Some (digits_value ds)
  else None.

End PyStr.

(** ** The world outside the program: clock and gateway *)
Module World.

Import PyStr.
Local Open Scope Z_scope.

(** A naive [datetime]: day number and time of day. *)
Record datetime := mkdt {
  ordinal : Z;
  hour : Z;
  minute : Z;
  second : Z;
  microsecond : Z
}.

(** [date.weekday()]: Monday is 0; day number 1 is a Monday. *)
Definition weekday (d : datetime) : Z := (ordinal d + 6) mod 7.

(** [a < b] on [datetime]: field by field, most significant first. *)
Definition dt_ltb (a b : datetime) : bool :=
  (ordinal a <? ordinal b) || ((ordinal a =? ordinal b) &&
  ((hour a <? hour b) || ((hour a =? hour b) &&
  ((minute a <? minute b) || ((minute a =? minute b) &&
  ((second a <? second b) || ((second a =? second b) &&
  (microsecond a <? microsecond b)))))))).

Definition dt_lt (a b : datetime) : Prop := dt_ltb a b = true.
Definition dt_le (a b : datetime) : Prop := dt_ltb b a = false.

(** The last day of the calendar, 9999-12-31 ([date.max.toordinal()]);
    the first is day 1. *)
Definition max_ordinal : Z := 3652059.

(** What a video resource holds of interest to the program. *)
Record video := mkvideo {
  privacyStatus : string;
  title : pystr;
  duration : option pystr;
  publishAt : option datetime;
  relatedVideoId : option string
}.

(** A playlist item: the membership record id, and the snippet's title
    and video id. *)
Record playlist_item := mkitem {
  item_id : N;
  item_title : pystr;
  item_videoId : string
}.

(** The body of a [videos().update] request. *)
Record update_body := mkbody {
  body_id : string;
  body_title : pystr;
  body_description : pystr;
  body_publishAt : datetime;
  body_related : option string
}.

(** The platform's state. *)
Record remote := mkremote {
  uploads_playlist : option string;
  playlists : string -> list playlist_item;
  videos : string -> option video;
  next_item_id : N
}.

(** Requests sent through the gateway. *)
Inductive request :=
| ReqChannels
| ReqListItems (playlist_id : string) (maxResults : nat)
| ReqVideo (video_id : string)
| ReqUpdate (body : update_body)
| ReqInsert (video_id playlist_id : string)
| ReqDelete (item : N).

(** The world: the platform, which of the requests fail in transport
    ([faults n] for the n-th request of the run), the clock ([clock n] is
    what the n-th call of [datetime.now()] returns), and the requests
    issued so far with their success. *)
Record world := mkworld {
  platform : remote;
  faults : nat -> bool;
  requests : nat;
  clock : nat -> datetime;
  clock_reads : nat;
  trace : list (request * bool)
}.

Inductive exn :=
| ValueError | TypeError | IndexError | HttpError | OverflowError.

(** How a computation ends: a value, an exception, or no end within the
    fuel given to its loops. *)
Inductive outcome (A : Type) :=
| Ret (a : A)
| Raise (e : exn)
| OutOfFuel.
Arguments Ret {A} a.
Arguments Raise {A} e.
Arguments OutOfFuel {A}.

Definition M (A : Type) := world -> outcome A * world.

Definition ret {A} (a : A) : M A := fun w => (Ret a, w).
Definition raise {A} (e : exn) : M A := fun w => (Raise e, w).
Definition bind {A B} (m : M A) (f : A -> M B) : M B :=
  fun w =>
    match m w with
    | (Ret a, w') => f a w'
    | (Raise e, w') => (Raise e, w')
    | (OutOfFuel, w') => (OutOfFuel, w')
    end.

(** [try: m  except Exception: pass]. *)
Definition try_except (m : M unit) : M unit :=
  fun w =>
    match m w with
    | (Raise _, w') => (Ret tt, w')
    | r => r
    end.

(** [try: m  except Exception: ...], telling whether [m] went through. *)
Definition try_ok (m : M unit) : M bool :=
  fun w =>
    match m w with
    | (Ret _, w') => (Ret true, w')
    | (Raise _, w') => (Ret false, w')
    | (OutOfFuel, w') => (OutOfFuel, w')
    end.

(** [v in l] for a list of ids. *)
Definition is_in (v : string) (l : list string) : bool :=
  existsb (String.eqb v) l.

Declare Scope py_scope.
Delimit Scope py_scope with py.
Notation "x <- m ;; k" := (bind m (fun x => k))
  (at level 61, m at next level, right associativity) : py_scope.
Notation "m ;;; k" := (bind m (fun _ => k))
  (at level 61, right associativity) : py_scope.
Local Open Scope py_scope.

Definition set_platform (p : remote) (w : world) : world :=
  mkworld p (faults w) (requests w) (clock w) (clock_reads w) (trace w).

(** One request: it is recorded, and it fails when the transport says so. *)
Definition sent (r : request) (ok : bool) (w : world) : world :=
  mkworld (platform w) (faults w) (S (requests w)) (clock w)
    (clock_reads w) (trace w ++ [(r, ok)]).

Definition send (r : request) : M unit :=
  fun w =>
    if faults w (requests w)
    then (Raise HttpError, sent r false w)
    else (Ret tt, sent r true w).

Definition read_platform : M remote := fun w => (Ret (platform w), w).
Definition write_platform (p : remote) : M unit :=
  fun w => (Ret tt, set_platform p w).

(** [datetime.now()]. *)
Definition now : M datetime :=
  fun w =>
    (Ret (clock w (clock_reads w)),
     mkworld (platform w) (faults w) (requests w) (clock w)
       (S (clock_reads w)) (trace w)).

(** [d + timedelta(days=n)]: [OverflowError] when the day leaves the
    calendar. *)
Definition add_days (d : datetime) (n : Z) : M datetime :=
  if (1 <=? ordinal d + n) && (ordinal d + n <=? max_ordinal)
  then ret (mkdt (ordinal d + n) (hour d) (minute d) (second d)
              (microsecond d))
  else raise OverflowError.

(** The world after [n] further readings of the clock. *)
Definition advance (n : nat) (w : world) : world :=
  mkworld (platform w) (faults w) (requests w) (clock w)
    (clock_reads w + n) (trace w).

(** The platform's answer to a successful update: the stored record takes
    the body's title, privacy "private", publication time and, when given,
    related video. *)
Definition apply_update (p : remote) (b : update_body) : remote :=
  mkremote (uploads_playlist p) (playlists p)
    (fun v =>
       if String.eqb v (body_id b) then
         match videos p v with
         | Some old =>
             Some (mkvideo "private" (body_title b) (duration old)
                     (Some (body_publishAt b))
                     (match body_related b with
                      | Some r => Some r
                      | None => relatedVideoId old
                      end))
         | None => None
         end
       else videos p v)
    (next_item_id p).

(** The platform's answer to a successful insertion: a new membership
    record at the end of the playlist. *)
Definition apply_insert (p : remote) (video_id playlist_id : string)
  : remote :=
  let t := match videos p video_id with Some v => title v | None => [] end in
  mkremote (uploads_playlist p)
    (fun q =>
       if String.eqb q playlist_id
       then playlists p q ++ [mkitem (next_item_id p) t video_id]
       else playlists p q)
    (videos p) (N.succ (next_item_id p)).

(** The platform's answer to a successful deletion of a membership record. *)
Definition apply_delete (p : remote) (item : N) : remote :=
  mkremote (uploads_playlist p)
    (fun q => filter (fun it => negb (N.eqb (item_id it) item)) (playlists p q))
    (videos p) (next_item_id p).

(** [service.playlistItems().list(playlistId=.., maxResults=n).execute()
    .get("items", [])]: one page, of at most [n] records. *)
Definition playlistItems_list (playlist_id : string) (n : nat)
  : M (list playlist_item) :=
  send (ReqListItems playlist_id n) ;;;
  p <- read_platform ;;
  ret (firstn n (playlists p playlist_id)).

(** [service.playlistItems().delete(id=..).execute()]. *)
Definition playlistItems_delete (item : N) : M unit :=
  send (ReqDelete item) ;;;
  p <- read_platform ;;
  write_platform (apply_delete p item).

End World.

(** ** class YouTubeAPI *)
Module YouTubeAPI.

Import PyStr World.
Local Open Scope py_scope.

Definition get_uploads_playlist_id : M string :=
  send ReqChannels ;;;
  p <- read_platform ;;
  match uploads_playlist p with
  | Some u => ret u
  | None => raise IndexError
  end.

Definition fetch_videos (playlist_id : string) : M (list playlist_item) :=
  playlistItems_list playlist_id 100.

Definition get_full_video_data (video_id : string) : M (option video) :=
  send (ReqVideo video_id) ;;;
  p <- read_platform ;;
  ret (videos p video_id).

Definition update_video_content (body : update_body) : M unit :=
  send (ReqUpdate body) ;;;
  p <- read_platform ;;
  write_platform (apply_update p body).

Definition fetch_playlist_items (playlist_id : string) : M (list string) :=
  items <- playlistItems_list playlist_id 100 ;;
  ret (map item_videoId items).

Definition add_to_playlist (video_id target_playlist_id : string) : M unit :=
  send (ReqInsert video_id target_playlist_id) ;;;
  p <- read_platform ;;
  write_platform (apply_insert p video_id target_playlist_id).

End YouTubeAPI.

(** ** class CalendarStrategy *)
Module CalendarStrategy.

Import PyStr World.
Local Open Scope Z_scope.
Local Open Scope py_scope.

(** A slot of the weekly table: weekday, hour, minute. *)
Definition slot := (Z * Z * Z)%type.

Definition slots : list slot :=
  [ (0, 7, 30);
    (1, 13, 0);
    (2, 13, 0);
    (3, 13, 0);
    (4, 19, 0);
    (5, 10, 0);
    (6, 20, 0) ].

(** A slot a weekly table may hold: a weekday 0..6, an hour and a minute
    of the day. *)
Definition valid_slot (s : slot) : Prop :=
  let '(d, hr, mnt) := s in
  0 <= d < 7 /\ 0 <= hr < 24 /\ 0 <= mnt < 60.

Definition slot_day (s : slot) : Z := let '(d, _, _) := s in d.

Definition valid_hm (hr mnt : Z) : bool :=
  (0 <=? hr) && (hr <? 24) && (0 <=? mnt) && (mnt <? 60).

Definition valid_su (sec us : Z) : bool :=
  (0 <=? sec) && (sec <? 60) && (0 <=? us) && (us <? 1000000).

(** [d.replace(hour=.., minute=.., second=.., microsecond=..)]. *)
Definition replace_hmsu (d : datetime) (hr mnt sec us : Z) : M datetime :=
  if valid_hm hr mnt && valid_su sec us
  then ret (mkdt (ordinal d) hr mnt sec us)
  else raise ValueError.

(** [d.replace(hour=.., minute=..)]: the other fields are kept. *)
Definition replace_hm (d : datetime) (hr mnt : Z) : M datetime :=
  if valid_hm hr mnt
  then ret (mkdt (ordinal d) hr mnt (second d) (microsecond d))
  else raise ValueError.

(** The body of [for s_day, hr, mnt in slots]. *)
Fixpoint for_slots (sl : list slot) (current : datetime) (quantity : Z)
  (dates : list datetime) : M (list datetime) :=
  match sl with
  | [] => ret dates
  | (s_day, hr, mnt) :: rest =>
      if weekday current =? s_day then
        possible <- replace_hmsu current hr mnt 0 0 ;;
        t <- now ;;
        if dt_ltb t possible && (Z.of_nat (List.length dates) <? quantity)
        then for_slots rest current quantity (dates ++ [possible])
        else for_slots rest current quantity dates
      else for_slots rest current quantity dates
  end.

(** [while len(dates) < quantity]: one day per turn. *)
Fixpoint while_loop (sl : list slot) (quantity : Z) (fuel : nat)
  (current : datetime) (dates : list datetime) : M (list datetime) :=
  if Z.of_nat (List.length dates) <? quantity then
    match fuel with
    | O => fun w => (OutOfFuel, w)
    | S fuel' =>
        dates' <- for_slots sl current quantity dates ;;
        next <- add_days current 1 ;;
        current' <- replace_hm next 0 0 ;;
        while_loop sl quantity fuel' current' dates'
    end
  else ret dates.

(** [generate_schedule] with the weekly table as a parameter. *)
Definition generate_schedule_from (sl : list slot) (quantity : Z)
  (fuel : nat) : M (list datetime) :=
  current <- now ;;
  while_loop sl quantity fuel current [].

Definition generate_schedule (quantity : Z) (fuel : nat)
  : M (list datetime) :=
  generate_schedule_from slots quantity fuel.

End CalendarStrategy.

(** ** list.sort(key=.., reverse=..) *)
Module PySort.

Import PyStr.

Section Sort.
Variable A : Type.
Variable key : A -> pystr.

(** The order of two elements by their keys. *)
Definition key_le (x y : A) : Prop := str_le (key x) (key y).

(** [x] goes before the first element whose key is not below its own,
    so that equal keys keep their order: the sort is stable. *)
Fixpoint insert (x : A) (l : list A) : list A :=
  match l with
  | [] => [x]
  | y :: l' =>
      if str_ltb (key y) (key x) then y :: insert x l' else x :: l
  end.

Definition sort_ascending (l : list A) : list A :=
  fold_right insert [] l.

(** With [reverse=True] the list is reversed, sorted, and reversed
    again, which keeps the sort stable. *)
Definition sort (reverse : bool) (l : list A) : list A :=
  if reverse then rev (sort_ascending (rev l)) else sort_ascending l.
End Sort.

Arguments key_le {A} key x y.
Arguments insert {A} key x l.
Arguments sort_ascending {A} key l.
Arguments sort {A} key reverse l.

End PySort.

(** ** class ListPrivateVideosTask *)
Module ListPrivateVideosTask.

Import PyStr World YouTubeAPI.
Local Open Scope py_scope.

(** The dictionaries the task returns. *)
Record video_info := mkinfo {
  info_title : pystr;
  info_id : string;
  info_details : video
}.

(** The body of [for item in items]. *)
Fixpoint for_items (items : list playlist_item)
  (private_videos : list video_info) : M (list video_info) :=
  match items with
  | [] => ret private_videos
  | item :: rest =>
      let v_id := item_videoId item in
      details <- get_full_video_data v_id ;;
      match details with
      | None => raise TypeError
      | Some d =>
          if String.eqb (privacyStatus d) "private"
          then for_items rest (private_videos ++ [mkinfo (title d) v_id d])
          else for_items rest private_videos
      end
  end.

Definition execute : M (list video_info) :=
  uploads_id <- get_uploads_playlist_id ;;
  items <- fetch_videos uploads_id ;;
  private_videos <- for_items items [] ;;
  ret (PySort.sort info_title false private_videos).

End ListPrivateVideosTask.

(** ** class FullAutomationTask *)
Module FullAutomationTask.

Import PyStr World YouTubeAPI.
Local Open Scope py_scope.

(** A [dict] from chapter numbers to video ids, as an association list:
    assignment overwrites. *)
Definition dict := list (pystr * string).

Fixpoint dict_set (k : pystr) (v : string) (d : dict) : dict :=
  match d with
  | [] => [(k, v)]
  | (k', v') :: d' =>
      if str_eqb k' k then (k, v) :: d' else (k', v') :: dict_set k v d'
  end.

Fixpoint dict_get (d : dict) (k : pystr) : option string :=
  match d with
  | [] => None
  | (k', v') :: d' => if str_eqb k' k then Some v' else dict_get d' k
  end.

(** "GÉNESIS - CAPÍTULO", "CAPÍTULO" and "Capítulo". *)
Definition CAPITULO : pystr := py "CAP" ++ [205%N] ++ py "TULO".
Definition GENESIS_CAPITULO : pystr :=
  py "G" ++ [201%N] ++ py "NESIS - " ++ CAPITULO.
Definition Capitulo : pystr := py "Cap" ++ [237%N] ++ py "tulo".

(** The body of [for item in all_items]. *)
Definition ref_map_step (ref_map : dict) (item : playlist_item) : dict :=
  let t := upper (item_title item) in
  let v_id := item_videoId item in
  if contains GENESIS_CAPITULO t then
    match search_lit_ws_digits N.eqb CAPITULO t with
    | Some g => dict_set g v_id ref_map
    | None => ref_map
    end
  else ref_map.

Definition build_ref_map (all_items : list playlist_item) : dict :=
  fold_left ref_map_step all_items [].

(** [title if "#biblia" in title.lower() else f"{title} #biblia"]. *)
Definition new_title (t : pystr) : pystr :=
  if contains (py "#biblia") (lower t) then t else t ++ py " #biblia".

Definition related_id (ref_map : dict) (t : pystr) : option string :=
  match search_lit_ws_digits eqc_ignorecase Capitulo t with
  | Some g => dict_get ref_map g
  | None => None
  end.

(** [if related_id:] holds for an id that is neither [None] nor empty. *)
Definition truthy (r : option string) : option string :=
  match r with
  | Some EmptyString => None
  | _ => r
  end.

Definition make_body (description : pystr) (ref_map : dict)
  (vid_info : ListPrivateVideosTask.video_info) (publish_date : datetime)
  : update_body :=
  let t := ListPrivateVideosTask.info_title vid_info in
  mkbody (ListPrivateVideosTask.info_id vid_info) (new_title t) description
    publish_date (truthy (related_id ref_map t)).

(** The body of [for vid_info, publish_date in zip(..)]. *)
Fixpoint for_videos (target_playlist : string) (description : pystr)
  (videos_ya_en_playlist : list string) (ref_map : dict)
  (pairs : list (ListPrivateVideosTask.video_info * datetime)) : M unit :=
  match pairs with
  | [] => ret tt
  | (vid_info, publish_date) :: rest =>
      let v_id := ListPrivateVideosTask.info_id vid_info in
      let body := make_body description ref_map vid_info publish_date in
      try_except
        (update_video_content body ;;;
         if negb (is_in v_id videos_ya_en_playlist)
         then add_to_playlist v_id target_playlist
         else ret tt) ;;;
      for_videos target_playlist description videos_ya_en_playlist ref_map
        rest
  end.

Definition execute (target_playlist : string) (description : pystr)
  (fuel : nat) : M unit :=
  to_program_data <- ListPrivateVideosTask.execute ;;
  match to_program_data with
  | [] => ret tt
  | _ :: _ =>
      videos_ya_en_playlist <- fetch_playlist_items target_playlist ;;
      uploads_id <- get_uploads_playlist_id ;;
      all_items <- fetch_videos uploads_id ;;
      let ref_map := build_ref_map all_items in
      dates <- CalendarStrategy.generate_schedule
                 (Z.of_nat (List.length to_program_data)) fuel ;;
      for_videos target_playlist description videos_ya_en_playlist ref_map
        (combine to_program_data dates)
  end.

End FullAutomationTask.

(** ** class ClearPlaylistTask *)
Module ClearPlaylistTask.

Import PyStr World YouTubeAPI.
Local Open Scope py_scope.

(** The body of [for item in items]. *)
Fixpoint for_items (items : list playlist_item) : M unit :=
  match items with
  | [] => ret tt
  | item :: rest =>
      try_except (playlistItems_delete (item_id item)) ;;;
      for_items rest
  end.

Definition execute (playlist_id : string) : M unit :=
  items <- playlistItems_list playlist_id 100 ;;
  match items with
  | [] => ret tt
  | _ :: _ => for_items items
  end.

End ClearPlaylistTask.

(** ** class AddPublicShortsExtendedTask *)
Module AddPublicShortsExtendedTask.

Import PyStr World YouTubeAPI.
Local Open Scope py_scope.

Record short_info := mkshort {
  short_title : pystr;
  short_id : string
}.

(** The seconds [_check_duration] adds up; [None] stands for the
    [ValueError] of an [int] that is given too many digits. *)
Definition total_seconds (duration_str : pystr) : option Z :=
  let minutes := search_digits_then 77%N duration_str in
  let seconds := search_digits_then 83%N duration_str in
  match
    match minutes with Some g => int_of_digits g | None => Some 0%Z end,
    match seconds with Some g => int_of_digits g | None => Some 0%Z end
  with
  | Some m, Some s => Some (m * 60 + s)%Z
  | _, _ => None
  end.

Definition _check_duration (duration_str : pystr) (max_seconds : Z)
  : option bool :=
  if contains (py "H") duration_str then Some false
  else
    match total_seconds duration_str with
    | Some t => Some ((0 <? t) && (t <=? max_seconds))%Z
    | None => None
    end.

(** Whether the selection loop keeps a video with these details;
    [None] when the duration check raises. *)
Definition selects (details : video) : option bool :=
  if negb (String.eqb (privacyStatus details) "public") then Some false
  else
    let duration_iso :=
      match duration details with Some d => d | None => [] end in
    _check_duration duration_iso 120.

(** The body of [for item in all_items]. *)
Fixpoint for_items (all_items : list playlist_item)
  (videos_seleccionados : list short_info) : M (list short_info) :=
  match all_items with
  | [] => ret videos_seleccionados
  | item :: rest =>
      let v_id := item_videoId item in
      let t := item_title item in
      details <- get_full_video_data v_id ;;
      match details with
      | None => raise TypeError
      | Some d =>
          match selects d with
          | None => raise ValueError
          | Some true =>
              for_items rest (videos_seleccionados ++ [mkshort t v_id])
          | Some false => for_items rest videos_seleccionados
          end
      end
  end.

(** The body of [for vid in videos_seleccionados]; the value is [count]. *)
Fixpoint for_selected (target_playlist : string)
  (videos_ya_en_playlist : list string) (selected : list short_info)
  (count : nat) : M nat :=
  match selected with
  | [] => ret count
  | vid :: rest =>
      if negb (is_in (short_id vid) videos_ya_en_playlist)
      then
        ok <- try_ok (add_to_playlist (short_id vid) target_playlist) ;;
        for_selected target_playlist videos_ya_en_playlist rest
          (if ok then S count else count)
      else
        for_selected target_playlist videos_ya_en_playlist rest count
  end.

(** The task; the value is the count it prints at the end. *)
Definition execute (target_playlist : string) : M nat :=
  videos_ya_en_playlist <- fetch_playlist_items target_playlist ;;
  uploads_id <- get_uploads_playlist_id ;;
  all_items <- fetch_videos uploads_id ;;
  videos_seleccionados <- for_items all_items [] ;;
  let sorted :=
    PySort.sort (fun v => lower (short_title v)) true videos_seleccionados in
  for_selected target_playlist videos_ya_en_playlist sorted 0.

End AddPublicShortsExtendedTask.

(** ** Durations as the platform writes them *)
Module Iso8601.

Import PyStr.

(** An ISO 8601 duration of the form PT#H#M#S; each component may be
    absent. *)
Record iso_duration := mkiso {
  iso_hours : option N;
  iso_minutes : option N;
  iso_seconds : option N
}.

Fixpoint uint_digits (u : Decimal.uint) : pystr :=
  match u with
  | Decimal.Nil => []
  | Decimal.D0 u' => 48%N :: uint_digits u'
  | Decimal.D1 u' => 49%N :: uint_digits u'
  | Decimal.D2 u' => 50%N :: uint_digits u'
  | Decimal.D3 u' => 51%N :: uint_digits u'
  | Decimal.D4 u' => 52%N :: uint_digits u'
  | Decimal.D5 u' => 53%N :: uint_digits u'
  | Decimal.D6 u' => 54%N :: uint_digits u'
  | Decimal.D7 u' => 55%N :: uint_digits u'
  | Decimal.D8 u' => 56%N :: uint_digits u'
  | Decimal.D9 u' => 57%N :: uint_digits u'
  end.

(** A number in decimal. *)
Definition decimal (n : N) : pystr := uint_digits (N.to_uint n).

Definition component (v : option N) (mark : codepoint) : pystr :=
  match v with
  | Some n => decimal n ++ [mark]
  | None => []
  end.

(** The encoding of a duration. *)
Definition iso_render (d : iso_duration) : pystr :=
  py "PT" ++ component (iso_hours d) 72%N
          ++ component (iso_minutes d) 77%N
          ++ component (iso_seconds d) 83%N.

Definition value (v : option N) : Z :=
  match v with Some n => Z.of_N n | None => 0%Z end.

(** The duration in seconds. *)
Definition iso_total (d : iso_duration) : Z :=
  (3600 * value (iso_hours d) + 60 * value (iso_minutes d)
   + value (iso_seconds d))%Z.

(** The encoding of a duration of whole days and a time of day,
    P#DT#H#M#S, and its length in seconds. *)
Definition iso_render_days (days : N) (d : iso_duration) : pystr :=
  py "P" ++ decimal days ++ py "DT"
         ++ component (iso_hours d) 72%N
         ++ component (iso_minutes d) 77%N
         ++ component (iso_seconds d) 83%N.

Definition iso_total_days (days : N) (d : iso_duration) : Z :=
  (86400 * Z.of_N days + iso_total d)%Z.

(** A component that [int] accepts: at most 4300 digits. *)
Definition short_component (v : option N) : Prop :=
  match v with
  | Some n => (N.of_nat (List.length (decimal n)) <= 4300)%N
  | None => True
  end.

(** A digit stands immediately before [mark] somewhere in [s]: what it
    takes for [(\d+)mark] to match. *)
Definition digit_before (mark : codepoint) (s : pystr) : Prop :=
  exists a d b, s = a ++ d :: mark :: b /\ is_digit d = true.

End Iso8601.

(** ** What a run leaves behind *)
Module Observations.

Import World.

(** Requests that change the platform. *)
Definition is_write (r : request) : bool :=
  match r with
  | ReqUpdate _ | ReqInsert _ _ | ReqDelete _ => true
  | _ => false
  end.

(** The video ids of a playlist's membership records, in order. *)
Definition members (w : world) (playlist_id : string) : list string :=
  map item_videoId (playlists (platform w) playlist_id).

(** What a listing of the playlist returns: the ids in its first page. *)
Definition listed (w : world) (playlist_id : string) : list string :=
  map item_videoId (firstn 100 (playlists (platform w) playlist_id)).

(** The video ids in the first page of the uploads playlist. *)
Definition uploaded (w : world) : list string :=
  match uploads_playlist (platform w) with
  | Some u => listed w u
  | None => []
  end.

(** The requests a run from [w] to [w'] sent. *)
Definition sent_since (w w' : world) : list (request * bool) :=
  skipn (List.length (trace w)) (trace w').

(** Two platforms that differ at most beyond the first 100 records of
    their playlists. *)
Definition same_first_page (p p' : remote) : Prop :=
  uploads_playlist p = uploads_playlist p' /\
  (forall v, videos p v = videos p' v) /\
  (forall q, firstn 100 (playlists p q) = firstn 100 (playlists p' q)).

(** A platform cut down to the first 100 records of each playlist. *)
Definition first_page_only (p : remote) : remote :=
  mkremote (uploads_playlist p) (fun q => firstn 100 (playlists p q))
    (videos p) (next_item_id p).

(** The world after the requests [tr] that left the platform as it was. *)
Definition after_requests (tr : list (request * bool)) (w : world) : world :=
  mkworld (platform w) (faults w) (requests w + List.length tr) (clock w)
    (clock_reads w) (trace w ++ tr).

(** A successful request for the details of an item's video. *)
Definition fetch_ok (item : playlist_item) : request * bool :=
  (ReqVideo (item_videoId item), true).

(** How a run that is given up at the first failure ends: with a value
    after requests that all went through, or with the exception of its
    last request, the ones before having gone through. *)
Definition ends_at_failure {A} (o : outcome A) (tr : list (request * bool))
  : Prop :=
  match o with
  | Ret _ => Forall (fun e => snd e = true) tr
  | Raise HttpError =>
      exists tr0 r, tr = tr0 ++ [(r, false)] /\
                    Forall (fun e => snd e = true) tr0
  | Raise _ => Forall (fun e => snd e = true) tr
  | OutOfFuel => False
  end.

(** The private videos among the items, as the platform stores them. *)
Definition private_infos (p : remote) (items : list playlist_item)
  : list ListPrivateVideosTask.video_info :=
  flat_map
    (fun item =>
       match videos p (item_videoId item) with
       | Some d =>
           if String.eqb (privacyStatus d) "private"
           then [ListPrivateVideosTask.mkinfo (title d) (item_videoId item) d]
           else []
       | None => []
       end) items.

(** The public shorts among the items, as the platform stores them. *)
Definition public_shorts (p : remote) (items : list playlist_item)
  : list AddPublicShortsExtendedTask.short_info :=
  flat_map
    (fun item =>
       match videos p (item_videoId item) with
       | Some d =>
           match AddPublicShortsExtendedTask.selects d with
           | Some true =>
               [AddPublicShortsExtendedTask.mkshort (item_title item)
                  (item_videoId item)]
           | _ => []
           end
       | None => []
       end) items.

(** Ids a loop inserted, out of the candidates [cands], having been told
    that [ya] are members already: candidates that are not in [ya], each
    at most once when the candidates are distinct. *)
Definition picked (ya cands ins : list string) : Prop :=
  incl ins cands /\ (NoDup cands -> NoDup ins) /\
  Forall (fun v => is_in v ya = false) ins.

(** A request that is no insertion of a video in [ya]. *)
Definition insert_unlisted (target : string) (ya : list string)
  (e : request * bool) : Prop :=
  forall v pid, fst e = ReqInsert v pid ->
    pid = target /\ is_in v ya = false.

(** What a run from [w] to [w'] that inserts into [target] keeps: it asks
    for no insertion of a video that the listing of [target] in [w]
    shows; and when that listing is the whole playlist, without a video
    twice, and the uploads listed hold no video twice, the playlist in
    [w'] holds no video twice. *)
Definition deduplicated (target : string) (w w' : world) : Prop :=
  Forall (insert_unlisted target (listed w target)) (sent_since w w') /\
  (NoDup (members w target) ->
   (List.length (playlists (platform w) target) <= 100)%nat ->
   NoDup (uploaded w) ->
   NoDup (members w' target)).

(** Worlds that agree on everything but the platform. *)
Definition alike (w w' : world) : Prop :=
  faults w' = faults w /\ requests w' = requests w /\
  clock w' = clock w /\ clock_reads w' = clock_reads w /\
  trace w' = trace w.

(** Worlds that agree on everything but what lies beyond the first page
    of a playlist. *)
Definition alike_page (w w' : world) : Prop :=
  alike w w' /\ same_first_page (platform w) (platform w').

(** From worlds related by [R], the computation ends the same way, in
    worlds related by [R']. *)
Definition preserves {A} (R R' : world -> world -> Prop) (m : M A) : Prop :=
  forall w w', R w w' ->
    fst (m w) = fst (m w') /\ R' (snd (m w)) (snd (m w')).

End Observations.

(** ** Worlds to run the program in *)
Module Scenarios.

Import PyStr World.
Local Open Scope Z_scope.

Definition empty_platform : remote :=
  mkremote None (fun _ => []) (fun _ => None) 0%N.

(** A world whose clock stands still at [t] and whose requests all go
    through. *)
Definition still_world (p : remote) (t : datetime) : world :=
  mkworld p (fun _ => false) 0 (fun _ => t) 0 [].

(** Day 7 is a Sunday; 23:00 on it. *)
Definition sunday_23h : datetime := mkdt 7 23 0 0 0.

(** The last day of the calendar, 9999-12-31, a Friday, at noon. *)
Definition last_day_noon : datetime := mkdt 3652059 12 0 0 0.

(** A clock that passes midnight between its second and its third
    reading: Sunday 23:59, then Monday 00:01. *)
Definition over_midnight (n : nat) : datetime :=
  match n with
  | 0%nat | 1%nat => mkdt 7 23 59 0 0
  | _ => mkdt 8 0 1 0 0
  end.

Definition midnight_world : world :=
  mkworld empty_platform (fun _ => false) 0 over_midnight 0 [].

(** A table with a Monday and a Tuesday slot. *)
Definition monday_tuesday : list CalendarStrategy.slot :=
  [(0, 7, 30); (1, 13, 0)].

(** A channel whose uploads playlist is "UU", with a second playlist
    "PL". *)
Definition channel (uploads target_items : list playlist_item)
  (vids : string -> option video) : remote :=
  mkremote (Some "UU"%string)
    (fun q =>
       if String.eqb q "UU" then uploads
       else if String.eqb q "PL" then target_items
       else [])
    vids 1000%N.

(** One hundred membership records of one hundred other videos. *)
Definition filler (n : nat) : string :=
  String (ascii_of_nat (48 + n)) "f"%string.

Definition fillers : list playlist_item :=
  map (fun n => mkitem (N.of_nat n) [] (filler n)) (seq 0 100).

(** A public video of thirty seconds, uploaded as "short". *)
Definition short_video : video :=
  mkvideo "public" (py "clip") (Some (py "PT30S")) None None.

Definition only_short (v : string) : option video :=
  if String.eqb v "short" then Some short_video else None.

(** The channel with the short uploaded and a playlist of [n] other
    records, on a Sunday night. *)
Definition short_world (n : nat) : world :=
  still_world
    (channel [mkitem 500%N (py "clip") "short"%string] (firstn n fillers)
       only_short)
    sunday_23h.

(** Two public shorts uploaded under the Cyrillic titles "авель" and
    "Яков", and an empty playlist "PL". *)
Definition avel : pystr := [1072; 1074; 1077; 1083; 1100]%N.
Definition yakov : pystr := [1071; 1082; 1086; 1074]%N.

Definition cyrillic_shorts (v : string) : option video :=
  if String.eqb v "v1"
  then Some (mkvideo "public" avel (Some (py "PT30S")) None None)
  else if String.eqb v "v2"
       then Some (mkvideo "public" yakov (Some (py "PT45S")) None None)
       else None.

Definition cyrillic_world : world :=
  still_world
    (channel [mkitem 1%N avel "v1"%string; mkitem 2%N yakov "v2"%string] []
       cyrillic_shorts)
    sunday_23h.

(** Two private videos uploaded; the third request of the run, the fetch
    of the first one's details, fails. *)
Definition two_private (v : string) : option video :=
  if String.eqb v "v1" then Some (mkvideo "private" (py "a") None None None)
  else if String.eqb v "v2"
       then Some (mkvideo "private" (py "b") None None None)
       else None.

Definition failing_fetch_world : world :=
  mkworld
    (channel [mkitem 1%N (py "a") "v1"%string;
              mkitem 2%N (py "b") "v2"%string] [] two_private)
    (fun n => Nat.eqb n 2) 0 (fun _ => sunday_23h) 0 [].

(** Three private videos uploaded, titled B, a and C. *)
Definition three_private (v : string) : option video :=
  if String.eqb v "v1" then Some (mkvideo "private" (py "B") None None None)
  else if String.eqb v "v2"
       then Some (mkvideo "private" (py "a") None None None)
  else if String.eqb v "v3"
       then Some (mkvideo "private" (py "C") None None None)
       else None.

Definition three_private_world : world :=
  still_world
    (channel [mkitem 1%N (py "B") "v1"%string;
              mkitem 2%N (py "a") "v2"%string;
              mkitem 3%N (py "C") "v3"%string] [] three_private)
    sunday_23h.

End Scenarios.

(** ** class TestShortsRelatedFieldTask *)
Module TestShortsRelatedFieldTask.

Import PyStr World YouTubeAPI.
Local Open Scope py_scope.

(** What the task prints: the related video id it found ("NO ENCONTRADO"
    when the details hold none), or the error it caught. *)
Inductive report :=
| Resultado (related : string)
| ErrorEnTest.

(** The whole body is one [try]: a failed fetch is caught, and so is the
    [AttributeError] of [details.get] when no video was found. *)
Definition execute (short_id : string) : M report :=
  fun w =>
    match get_full_video_data short_id w with
    | (Ret (Some details), w') =>
        (Ret (Resultado
                (match relatedVideoId details with
                 | Some r => r
                 | None => "NO ENCONTRADO"%string
                 end)), w')
    | (Ret None, w') => (Ret ErrorEnTest, w')
    | (Raise _, w') => (Ret ErrorEnTest, w')
    | (OutOfFuel, w') => (OutOfFuel, w')
    end.

End TestShortsRelatedFieldTask.

(** ** class YouTubeAutomator *)
Module YouTubeAutomator.

Import PyStr World.
Local Open Scope py_scope.

(** The tasks that implement [YouTubeTask], with what their constructors
    take ([fuel] is for the loop of the calendar). *)
Inductive YouTubeTask :=
| FullAutomation (target_playlist : string) (description : pystr)
    (fuel : nat)
| ListPrivateVideos
| TestShortsRelatedField (short_id : string)
| ClearPlaylist (playlist_id : string)
| AddPublicShortsExtended (target_playlist : string).

(** [run]: the task is executed, and what it returns is dropped. *)
Definition run (task : YouTubeTask) : M unit :=
  match task with
  | FullAutomation target description fuel =>
      FullAutomationTask.execute target description fuel
  | ListPrivateVideos => ListPrivateVideosTask.execute ;;; ret tt
  | TestShortsRelatedField short_id =>
      TestShortsRelatedFieldTask.execute short_id ;;; ret tt
  | ClearPlaylist playlist_id => ClearPlaylistTask.execute playlist_id
  | AddPublicShortsExtended target =>
      AddPublicShortsExtendedTask.execute target ;;; ret tt
  end.

End YouTubeAutomator.

(** ** What the tasks are expected to do *)
Module Expectations.

Import PyStr World Observations.
Local Open Scope Z_scope.

(** The entry of the weekly table for the day numbered [o], as an
    instant of that day. *)
Definition slot_instant (o : Z) : datetime :=
  match find (fun s => CalendarStrategy.slot_day s =? (o + 6) mod 7)
          CalendarStrategy.slots with
  | Some (_, hr, mnt) => mkdt o hr mnt 0 0
  | None => mkdt o 0 0 0 0
  end.

(** The slots of [n] days in a row, from day [o] on. *)
Definition days_from (o : Z) (n : nat) : list datetime :=
  map (fun i => slot_instant (o + Z.of_nat i)) (seq 0 n).

(** Whether the slot of the day of the first reading of the clock is
    still ahead at the second reading. *)
Definition today_ahead (w : world) : bool :=
  dt_ltb (clock w (S (clock_reads w)))
    (slot_instant (ordinal (clock w (clock_reads w)))).

(** The schedule: today's slot when it is still ahead, and the slots of
    the days that follow. *)
Definition expected_schedule (w : world) (quantity : Z) : list datetime :=
  days_from
    (if today_ahead w
     then ordinal (clock w (clock_reads w))
     else ordinal (clock w (clock_reads w)) + 1)
    (Z.to_nat quantity).

(** An instant that is a slot of the table [sl]. *)
Definition on_table (sl : list CalendarStrategy.slot) (e : datetime) : Prop :=
  In (weekday e, hour e, minute e) sl /\ second e = 0 /\ microsecond e = 0.

(** No request fails, from now on. *)
Definition no_faults (w : world) : Prop :=
  forall k, faults w (requests w + k) = false.

(** The chapter number under which an upload enters the reference map. *)
Definition chapter_key (item : playlist_item) : option pystr :=
  let t := upper (item_title item) in
  if contains FullAutomationTask.GENESIS_CAPITULO t
  then search_lit_ws_digits N.eqb FullAutomationTask.CAPITULO t
  else None.

Definition has_key (g : pystr) (item : playlist_item) : bool :=
  match chapter_key item with
  | Some k => str_eqb k g
  | None => false
  end.

(** The requests of one turn of the full task's loop: an update that
    fails; an update alone, for a video that is listed; an update and an
    insertion, for a video that is not. *)
Definition full_turn (target : string) (description : pystr)
  (ya : list string) (ref_map : FullAutomationTask.dict)
  (pair : ListPrivateVideosTask.video_info * datetime)
  (seg : list (request * bool)) : Prop :=
  let b := FullAutomationTask.make_body description ref_map (fst pair)
             (snd pair) in
  let v := ListPrivateVideosTask.info_id (fst pair) in
  seg = [(ReqUpdate b, false)] \/
  (seg = [(ReqUpdate b, true)] /\ is_in v ya = true) \/
  (exists ok, seg = [(ReqUpdate b, true); (ReqInsert v target, ok)] /\
              is_in v ya = false).

(** The requests of one turn of the insertion loop of the public-shorts
    task: none for a video that is listed, one insertion otherwise. *)
Definition shorts_turn (target : string) (ya : list string)
  (vid : AddPublicShortsExtendedTask.short_info)
  (seg : list (request * bool)) : Prop :=
  let v := AddPublicShortsExtendedTask.short_id vid in
  (seg = [] /\ is_in v ya = true) \/
  (exists ok, seg = [(ReqInsert v target, ok)] /\ is_in v ya = false).

(** Insertions that went through. *)
Definition inserted_ok (e : request * bool) : bool :=
  match e with
  | (ReqInsert _ _, true) => true
  | _ => false
  end.

(** The kinds of request each task may send. *)
Definition may_send (task : YouTubeAutomator.YouTubeTask) (r : request)
  : bool :=
  match task, r with
  | YouTubeAutomator.FullAutomation target _ _, ReqInsert _ pid =>
      String.eqb pid target
  | YouTubeAutomator.FullAutomation _ _ _, ReqDelete _ => false
  | YouTubeAutomator.FullAutomation _ _ _, _ => true
  | YouTubeAutomator.ListPrivateVideos, r => negb (is_write r)
  | YouTubeAutomator.TestShortsRelatedField short_id, ReqVideo v =>
      String.eqb v short_id
  | YouTubeAutomator.TestShortsRelatedField _, _ => false
  | YouTubeAutomator.ClearPlaylist pid, ReqListItems q _ => String.eqb q pid
  | YouTubeAutomator.ClearPlaylist _, ReqDelete _ => true
  | YouTubeAutomator.ClearPlaylist _, _ => false
  | YouTubeAutomator.AddPublicShortsExtended target, ReqInsert _ pid =>
      String.eqb pid target
  | YouTubeAutomator.AddPublicShortsExtended _, r => negb (is_write r)
  end.

(** A computation all of whose requests satisfy [P]. *)
Definition sends_only {A} (P : request -> bool) (m : M A) : Prop :=
  forall w, exists tr,
    trace (snd (m w)) = trace w ++ tr /\
    Forall (fun e => P (fst e) = true) tr.

End Expectations.

(** * Properties *)

(** ** Strings and regular expressions *)
Module PyStrFacts.

Import PyStr.
Local Open Scope N_scope.

Lemma span_app (p : codepoint -> bool) (s : pystr) :
  fst (span p s) ++ snd (span p s) = s.
Proof.
  induction s as [|c t IH]; simpl; [reflexivity|].
  destruct (p c); simpl; [|reflexivity].
  destruct (span p t) as [a b]; simpl in *. now rewrite IH.
Qed.

Lemma span_prefix (p : codepoint -> bool) (s : pystr) :
  Forall (fun c => p c = true) (fst (span p s)).
Proof.
  induction s as [|c t IH]; simpl; [constructor|].
  destruct (p c) eqn:E; simpl; [|constructor].
  destruct (span p t) as [a b]; simpl in *. now constructor.
Qed.

Lemma span_run (p : codepoint -> bool) (ds : pystr) (m : codepoint)
  (rest : pystr) :
  Forall (fun c => p c = true) ds -> p m = false ->
  span p (ds ++ m :: rest) = (ds, m :: rest).
Proof.
  intros Hds Hm. induction Hds as [|c ds Hc _ IH]; simpl.
  - now rewrite Hm.
  - now rewrite Hc, IH.
Qed.

Lemma span_all (p : codepoint -> bool) (ds : pystr) :
  Forall (fun c => p c = true) ds -> span p ds = (ds, []).
Proof.
  induction 1 as [|c ds Hc _ IH]; simpl; [reflexivity|].
  now rewrite Hc, IH.
Qed.

(** A character that is no digit is stepped over. *)
Lemma search_skip (mark c : codepoint) (t : pystr) :
  is_digit c = false ->
  search_digits_then mark (c :: t) = search_digits_then mark t.
Proof.
  intros Hc. cbn [search_digits_then span]. now rewrite Hc.
Qed.

(** A run of digits followed by the mark is the match. *)
Lemma search_hit (mark d : codepoint) (ds rest : pystr) :
  Forall (fun c => is_digit c = true) (d :: ds) -> is_digit mark = false ->
  search_digits_then mark ((d :: ds) ++ mark :: rest) = Some (d :: ds).
Proof.
  intros Hds Hm.
  change (search_digits_then mark ((d :: ds) ++ mark :: rest)) with
    (match span is_digit ((d :: ds) ++ mark :: rest) with
     | ((_ :: _) as r, m :: _) =>
         if N.eqb m mark then Some r
         else search_digits_then mark (ds ++ mark :: rest)
     | _ => search_digits_then mark (ds ++ mark :: rest)
     end).
  rewrite (span_run is_digit (d :: ds) mark rest Hds Hm). now rewrite N.eqb_refl.
Qed.

(** A run of digits followed by another character holds no match. *)
Lemma search_pass (mark m : codepoint) (ds rest : pystr) :
  Forall (fun c => is_digit c = true) ds -> is_digit m = false ->
  m <> mark ->
  search_digits_then mark (ds ++ m :: rest) = search_digits_then mark rest.
Proof.
  intros Hds Hm Hne. induction Hds as [|c ds Hc Hds IH].
  - simpl app. now apply search_skip.
  - change (search_digits_then mark ((c :: ds) ++ m :: rest)) with
      (match span is_digit ((c :: ds) ++ m :: rest) with
       | ((_ :: _) as r, m' :: _) =>
           if N.eqb m' mark then Some r
           else search_digits_then mark (ds ++ m :: rest)
       | _ => search_digits_then mark (ds ++ m :: rest)
       end).
    rewrite (span_run is_digit (c :: ds) m rest (Forall_cons c Hc Hds) Hm).
    apply N.eqb_neq in Hne. now rewrite Hne.
Qed.

Lemma search_unfold (mark c : codepoint) (t : pystr) :
  search_digits_then mark (c :: t) =
  match span is_digit (c :: t) with
  | ((_ :: _) as r, m :: _) =>
      if N.eqb m mark then Some r else search_digits_then mark t
  | _ => search_digits_then mark t
  end.
Proof. reflexivity. Qed.

Lemma digit_before_tail (mark c : codepoint) (t : pystr) :
  Iso8601.digit_before mark t -> Iso8601.digit_before mark (c :: t).
Proof.
  intros (a & d & b & -> & Hd). now exists (c :: a), d, b.
Qed.

(** The search finds nothing exactly when no digit stands before the
    mark. *)
Lemma search_none_iff (mark : codepoint) (s : pystr) :
  is_digit mark = false ->
  search_digits_then mark s = None <-> ~ Iso8601.digit_before mark s.
Proof.
  intros Hm. split.
  - intros Hnone (a & d & b & -> & Hd). revert Hnone.
    induction a as [|c a IH].
    + change ([] ++ d :: mark :: b) with ([d] ++ mark :: b).
      rewrite (search_hit mark d [] b); [discriminate| |exact Hm].
      now constructor.
    + simpl app. rewrite search_unfold.
      destruct (span is_digit (c :: a ++ d :: mark :: b)) as [[|x r] [|m r']];
        try exact IH.
      destruct (N.eqb m mark); [discriminate|exact IH].
  - induction s as [|c t IH]; intros Hno; [reflexivity|].
    assert (Ht : search_digits_then mark t = None).
    { apply IH. intros H. apply Hno. now apply digit_before_tail. }
    rewrite search_unfold.
    pose proof (span_app is_digit (c :: t)) as Happ.
    pose proof (span_prefix is_digit (c :: t)) as Hpre.
    destruct (span is_digit (c :: t)) as [[|x r] [|m r']]; try exact Ht.
    destruct (N.eqb_spec m mark) as [->|]; [|exact Ht].
    exfalso. apply Hno. simpl fst in *. simpl snd in *.
    destruct (exists_last (l := x :: r)) as (front & d & Hlast);
      [discriminate|].
    rewrite Hlast in Happ, Hpre.
    exists front, d, r'. split.
    + rewrite <- Happ, <- app_assoc. reflexivity.
    + apply Forall_app in Hpre. destruct Hpre as [_ Hd].
      now inversion Hd.
Qed.

Lemma contains_char (c : codepoint) (s : pystr) :
  contains [c] s = true <-> In c s.
Proof.
  induction s as [|x t IH]; simpl.
  - split; [discriminate|tauto].
  - rewrite Bool.orb_true_iff, IH, Bool.andb_true_r, N.eqb_eq.
    split; intros [H|H]; auto.
Qed.

Lemma contains_char_false (c : codepoint) (s : pystr) :
  contains [c] s = false <-> ~ In c s.
Proof.
  rewrite <- contains_char. destruct (contains [c] s); split; intros H;
    congruence.
Qed.

End PyStrFacts.

(** ** Decimal numbers and rendered durations *)
Module Iso8601Facts.

Import PyStr PyStrFacts Iso8601.

Local Notation "'digit_step'" :=
  (fun (acc : Z) (c : codepoint) => (acc * 10 + digit_value c)%Z).

Ltac digit_values :=
  repeat match goal with
         | |- context [digit_value ?c] =>
             let v := eval vm_compute in (digit_value c) in
             change (digit_value c) with v
         end.

Lemma fold_digits_acc (u : Decimal.uint) (acc : positive) :
  fold_left digit_step (uint_digits u) (Z.pos acc)
  = Z.pos (Pos.of_uint_acc u acc).
Proof.
  revert acc. induction u; intros acc; cbn [uint_digits fold_left Pos.of_uint_acc];
    [reflexivity|..]; rewrite <- IHu; f_equal; digit_values; lia.
Qed.

Lemma fold_digits (u : Decimal.uint) :
  fold_left digit_step (uint_digits u) 0%Z = Z.of_N (Pos.of_uint u).
Proof.
  induction u; cbn [uint_digits fold_left Pos.of_uint]; [reflexivity|..];
    try (exact IHu);
    cbn [Z.of_N]; rewrite <- fold_digits_acc; reflexivity.
Qed.

Lemma value_of_decimal (n : N) : digits_value (decimal n) = Z.of_N n.
Proof.
  unfold digits_value, decimal.
  rewrite fold_digits. f_equal. apply DecimalN.Unsigned.of_to.
Qed.

(** [int(str(n)) == n], within the limit on digits. *)
Lemma int_of_decimal (n : N) :
  short_component (Some n) ->
  int_of_digits (decimal n) = Some (Z.of_N n).
Proof.
  unfold short_component, int_of_digits. intros H.
  apply N.leb_le in H. now rewrite H, value_of_decimal.
Qed.

Lemma uint_digits_are_digits (u : Decimal.uint) :
  Forall (fun c => is_digit c = true) (uint_digits u).
Proof. induction u; simpl; constructor; auto. Qed.

Lemma decimal_digits (n : N) :
  Forall (fun c => is_digit c = true) (decimal n).
Proof. apply uint_digits_are_digits. Qed.

Lemma decimal_cons (n : N) : exists d ds, decimal n = d :: ds.
Proof.
  unfold decimal. destruct n as [|p]; [now exists 48%N, []|].
  simpl N.to_uint.
  pose proof (DecimalPos.Unsigned.to_uint_nonnil p) as Hnn.
  destruct (Pos.to_uint p); [congruence|..]; simpl; eauto.
Qed.

(** A component is not searched into by another mark. *)
Lemma search_component_pass (mark m : codepoint) (v : option N)
  (rest : pystr) :
  is_digit m = false -> m <> mark ->
  search_digits_then mark (component v m ++ rest)
  = search_digits_then mark rest.
Proof.
  intros Hm Hne. destruct v as [n|]; [|reflexivity].
  unfold component. rewrite <- app_assoc. simpl app.
  apply search_pass; auto using decimal_digits.
Qed.

Lemma search_component_hit (mark : codepoint) (n : N) (rest : pystr) :
  is_digit mark = false ->
  search_digits_then mark (component (Some n) mark ++ rest)
  = Some (decimal n).
Proof.
  intros Hm. unfold component. rewrite <- app_assoc. simpl app.
  pose proof (decimal_digits n) as Hd.
  destruct (decimal_cons n) as (d & ds & E). rewrite E in *.
  now apply search_hit.
Qed.

Lemma component_chars (v : option N) (m c : codepoint) :
  In c (component v m) -> c = m \/ is_digit c = true.
Proof.
  destruct v as [n|]; simpl; [|tauto].
  rewrite in_app_iff. intros [H|[H|[]]]; [right|now left].
  pose proof (decimal_digits n) as Hd. rewrite Forall_forall in Hd. auto.
Qed.

Lemma search_in_rendered (mark : codepoint) (v : option N) :
  is_digit mark = false ->
  search_digits_then mark (component v mark) = option_map decimal v.
Proof.
  intros Hm. destruct v as [n|]; [|reflexivity].
  rewrite <- (app_nil_r (component (Some n) mark)).
  now apply search_component_hit.
Qed.

(** What [_check_duration] adds up for a rendered duration without an
    hour component. *)
Lemma total_seconds_rendered (m sec : option N) :
  short_component m -> short_component sec ->
  AddPublicShortsExtendedTask.total_seconds (iso_render (mkiso None m sec))
  = Some (60 * value m + value sec)%Z.
Proof.
  intros Hm Hs.
  unfold AddPublicShortsExtendedTask.total_seconds, iso_render.
  cbn [iso_hours iso_minutes iso_seconds component].
  change (py "PT" ++ [] ++ component m 77%N ++ component sec 83%N)
    with (80%N :: 84%N :: component m 77%N ++ component sec 83%N).
  rewrite !search_skip by reflexivity.
  rewrite (search_component_pass 83%N 77%N m) by (reflexivity || discriminate).
  rewrite search_in_rendered by reflexivity.
  destruct m as [n|].
  - rewrite search_component_hit by reflexivity.
    rewrite (int_of_decimal n Hm). destruct sec as [k|];
      cbn [option_map value];
      rewrite ?(int_of_decimal _ Hs); f_equal; lia.
  - cbn [component app]. rewrite <- (app_nil_r (component sec 83%N)).
    rewrite search_component_pass by (reflexivity || discriminate).
    cbn [search_digits_then].
    destruct sec as [k|]; cbn [option_map value];
      rewrite ?(int_of_decimal _ Hs); f_equal; lia.
Qed.

Lemma rendered_has_hour (d : iso_duration) :
  contains (py "H") (iso_render d) = true <-> iso_hours d <> None.
Proof.
  change (py "H") with [72%N]. rewrite contains_char. unfold iso_render.
  change (py "PT") with [80%N; 84%N].
  destruct (iso_hours d) as [h|]; split; try congruence.
  - intros _. unfold component. rewrite !in_app_iff. right. left. right.
    now left.
  - intros H. exfalso. rewrite !in_app_iff in H.
    destruct H as [H|[H|[H|H]]].
    + simpl in H. destruct H as [H|[H|[]]]; discriminate.
    + destruct H.
    + apply component_chars in H. destruct H; discriminate.
    + apply component_chars in H. destruct H; discriminate.
Qed.

End Iso8601Facts.

(** ** The order on strings and the sorts *)
Module PySortFacts.

Import PyStr PySort.

Lemma str_ltb_irrefl (a : pystr) : str_ltb a a = false.
Proof.
  induction a as [|x a IH]; simpl; [reflexivity|].
  now rewrite N.ltb_irrefl, N.eqb_refl.
Qed.

Lemma str_ltb_trans (a b c : pystr) :
  str_ltb a b = true -> str_ltb b c = true -> str_ltb a c = true.
Proof.
  revert b c. induction a as [|x a IH]; intros [|y b] [|z c]; simpl;
    try congruence.
  destruct (N.ltb_spec x y), (N.eqb_spec x y), (N.ltb_spec y z),
    (N.eqb_spec y z), (N.ltb_spec x z), (N.eqb_spec x z);
    subst; try congruence; try lia.
  apply IH.
Qed.

(** Two strings are equal or one is below the other. *)
Lemma str_ltb_total (a b : pystr) :
  str_ltb a b = true \/ a = b \/ str_ltb b a = true.
Proof.
  revert b. induction a as [|x a IH]; intros [|y b]; simpl; auto.
  destruct (N.ltb_spec x y), (N.eqb_spec x y), (N.ltb_spec y x),
    (N.eqb_spec y x); subst; auto; try lia.
  destruct (IH b) as [Hlt|[->|Hgt]]; auto.
Qed.

Lemma str_ltb_asym (a b : pystr) :
  str_ltb a b = true -> str_ltb b a = false.
Proof.
  intros H. destruct (str_ltb b a) eqn:E; [|reflexivity].
  pose proof (str_ltb_trans _ _ _ H E) as Haa.
  now rewrite str_ltb_irrefl in Haa.
Qed.

Lemma str_le_trans (a b c : pystr) :
  str_le a b -> str_le b c -> str_le a c.
Proof.
  unfold str_le. intros Hab Hbc.
  destruct (str_ltb c a) eqn:E; [|reflexivity].
  destruct (str_ltb_total b c) as [H|[->|H]]; try congruence.
  pose proof (str_ltb_trans _ _ _ H E). congruence.
Qed.

Section SortFacts.
Variable A : Type.
Variable key : A -> pystr.

Local Notation "'key_le'" := (key_le key).

Lemma insert_perm (x : A) (l : list A) :
  Permutation (x :: l) (insert key x l).
Proof.
  induction l as [|y l IH]; simpl; [reflexivity|].
  destruct (str_ltb (key y) (key x)); [|reflexivity].
  rewrite perm_swap. now constructor.
Qed.

Lemma sort_ascending_perm (l : list A) :
  Permutation l (sort_ascending key l).
Proof.
  induction l as [|x l IH]; simpl; [constructor|].
  rewrite <- insert_perm. now constructor.
Qed.

Lemma insert_sorted (x : A) (l : list A) :
  StronglySorted key_le l -> StronglySorted key_le (insert key x l).
Proof.
  induction 1 as [|y l Hl IH Hy]; simpl.
  - repeat constructor.
  - destruct (str_ltb (key y) (key x)) eqn:E.
    + constructor; [exact IH|].
      apply (Permutation_Forall (insert_perm x l)).
      constructor; [|exact Hy].
      unfold key_le, str_le. now apply str_ltb_asym.
    + constructor; [now constructor|].
      constructor; [exact E|].
      eapply Forall_impl; [|exact Hy].
      intros z Hz. unfold key_le in *.
      eapply str_le_trans; [exact E|exact Hz].
Qed.

Lemma sort_ascending_sorted (l : list A) :
  StronglySorted key_le (sort_ascending key l).
Proof.
  induction l as [|x l IH]; simpl; [constructor|].
  now apply insert_sorted.
Qed.

Lemma sort_perm (reverse : bool) (l : list A) :
  Permutation l (sort key reverse l).
Proof.
  unfold sort. destruct reverse; [|apply sort_ascending_perm].
  rewrite <- Permutation_rev, <- sort_ascending_perm.
  apply Permutation_rev.
Qed.

Lemma StronglySorted_snoc (R : A -> A -> Prop) (l : list A) (x : A) :
  StronglySorted R l -> Forall (fun a => R a x) l ->
  StronglySorted R (l ++ [x]).
Proof.
  induction 1 as [|y l Hl IH Hy]; intros Hx; simpl.
  - repeat constructor.
  - inversion Hx; subst. constructor; [now apply IH|].
    apply Forall_app. split; [exact Hy|]. now repeat constructor.
Qed.

Lemma StronglySorted_rev (R : A -> A -> Prop) (l : list A) :
  StronglySorted R l -> StronglySorted (fun a b => R b a) (rev l).
Proof.
  induction 1 as [|x l Hl IH Hx]; simpl; [constructor|].
  apply StronglySorted_snoc; [exact IH|].
  now apply Forall_rev.
Qed.

(** The sort rearranges the list, and leaves the keys in order. *)
Lemma sort_sorted (reverse : bool) (l : list A) :
  StronglySorted
    (fun x y => if reverse then key_le y x else key_le x y)
    (sort key reverse l).
Proof.
  unfold sort. destruct reverse.
  - apply StronglySorted_rev with (R := key_le).
    apply sort_ascending_sorted.
  - apply sort_ascending_sorted.
Qed.
End SortFacts.

End PySortFacts.

(** ** Computations in the world *)
Module WorldFacts.

Import World.
Local Open Scope py_scope.

Lemma bind_Ret_inv {A B} (m : M A) (f : A -> M B) (w w' : world) (b : B) :
  bind m f w = (Ret b, w') ->
  exists a w1, m w = (Ret a, w1) /\ f a w1 = (Ret b, w').
Proof.
  unfold bind. destruct (m w) as [[a|e|] w1]; intros H;
    try discriminate. eauto.
Qed.

End WorldFacts.

(** ** The title tag and the two sorts *)
Module TitleClaims.

Import PyStr PyStrFacts PySort PySortFacts World WorldFacts.

Lemma startswith_app (n b : pystr) : startswith n (n ++ b) = true.
Proof.
  induction n as [|x n IH]; simpl; [reflexivity|].
  now rewrite N.eqb_refl, IH.
Qed.

Lemma contains_app (n a b : pystr) : contains n (a ++ n ++ b) = true.
Proof.
  induction a as [|x a IH]; simpl app.
  - destruct (n ++ b) eqn:E; simpl; rewrite <- ?E, startswith_app;
      reflexivity.
  - cbn [contains]. rewrite IH. apply Bool.orb_true_r.
Qed.

(** Lower-casing what follows a prefix: the prefix gives what it gives,
    and what follows is lower-cased with the prefix before it. *)
Lemma lower_from_app (t s : pystr) :
  forall before, exists x,
    lower_from before (t ++ s) = x ++ lower_from (rev t ++ before) s.
Proof.
  induction t as [|c t IH]; intros before.
  - now exists [].
  - cbn [app lower_from rev]. destruct (IH (c :: before)) as (x & Hx).
    rewrite Hx, <- app_assoc. cbn [app]. eexists. now rewrite app_assoc.
Qed.

(** Text that lower-casing leaves as it is, whatever stands before it:
    no capital sigma, and every code point its own lower case. *)
Lemma lower_from_plain (s : pystr) :
  Forall (fun c => N.eqb c 931 = false /\ lower_cp c = [c]) s ->
  forall before, lower_from before s = s.
Proof.
  induction 1 as [|c s [Hc Hl] _ IH]; intros before; [reflexivity|].
  cbn [lower_from]. now rewrite Hc, Hl, IH.
Qed.

Lemma tagged_has_tag (t : pystr) :
  contains (py "#biblia") (lower (t ++ py " #biblia")) = true.
Proof.
  unfold lower. destruct (lower_from_app t (py " #biblia") []) as (x & ->).
  rewrite lower_from_plain.
  - change (py " #biblia") with ([32%N] ++ py "#biblia" ++ []).
    rewrite app_assoc. apply contains_app.
  - repeat (constructor; [split; vm_compute; reflexivity|]). constructor.
Qed.

(** C7. Tagging a title twice gives what tagging it once gives.  The
    tagged title always holds the tag (whatever its case), a title that
    holds it already is left as it is, and any other title gets the tag
    appended once. *)
Theorem C7_new_title_idempotent (t : pystr) :
  FullAutomationTask.new_title (FullAutomationTask.new_title t)
  = FullAutomationTask.new_title t /\
  contains (py "#biblia") (lower (FullAutomationTask.new_title t)) = true /\
  (if contains (py "#biblia") (lower t)
   then FullAutomationTask.new_title t = t
   else FullAutomationTask.new_title t = t ++ py " #biblia").
Proof.
  unfold FullAutomationTask.new_title.
  destruct (contains (py "#biblia") (lower t)) eqn:E.
  - rewrite E. auto.
  - rewrite tagged_has_tag. auto using tagged_has_tag.
Qed.

(** C6. The private videos are sorted by title, ascending, on code
    points, so that B, a, C come out as B, C, a; the public shorts are
    sorted by lower-cased title ([str.lower()], in every script),
    descending, so that they come out as C, B, a, and "авель", "Яков"
    as Яков, авель.  Each sort rearranges its input and leaves the keys
    in order, and what the list task returns is sorted. *)
Theorem C6_sort_orders :
  (forall (a b c : video) (i j k : string),
     map ListPrivateVideosTask.info_title
       (sort ListPrivateVideosTask.info_title false
          [ListPrivateVideosTask.mkinfo (py "B") i a;
           ListPrivateVideosTask.mkinfo (py "a") j b;
           ListPrivateVideosTask.mkinfo (py "C") k c])
     = [py "B"; py "C"; py "a"]) /\
  (forall i j k : string,
     map AddPublicShortsExtendedTask.short_title
       (sort (fun v => lower (AddPublicShortsExtendedTask.short_title v)) true
          [AddPublicShortsExtendedTask.mkshort (py "B") i;
           AddPublicShortsExtendedTask.mkshort (py "a") j;
           AddPublicShortsExtendedTask.mkshort (py "C") k])
     = [py "C"; py "B"; py "a"]) /\
  (forall i j : string,
     map AddPublicShortsExtendedTask.short_title
       (sort (fun v => lower (AddPublicShortsExtendedTask.short_title v)) true
          [AddPublicShortsExtendedTask.mkshort
             [1072; 1074; 1077; 1083; 1100]%N i;
           AddPublicShortsExtendedTask.mkshort [1071; 1082; 1086; 1074]%N j])
     = [[1071; 1082; 1086; 1074]%N; [1072; 1074; 1077; 1083; 1100]%N]) /\
  (forall l : list ListPrivateVideosTask.video_info,
     let r := sort ListPrivateVideosTask.info_title false l in
     Permutation l r /\
     StronglySorted
       (fun x y => str_le (ListPrivateVideosTask.info_title x)
                          (ListPrivateVideosTask.info_title y)) r) /\
  (forall l : list AddPublicShortsExtendedTask.short_info,
     let r :=
       sort (fun v => lower (AddPublicShortsExtendedTask.short_title v))
         true l in
     Permutation l r /\
     StronglySorted
       (fun x y => str_le (lower (AddPublicShortsExtendedTask.short_title y))
                          (lower (AddPublicShortsExtendedTask.short_title x)))
       r) /\
  (forall (w w' : world) (l : list ListPrivateVideosTask.video_info),
     ListPrivateVideosTask.execute w = (Ret l, w') ->
     StronglySorted
       (fun x y => str_le (ListPrivateVideosTask.info_title x)
                          (ListPrivateVideosTask.info_title y)) l).
Proof.
  split; [reflexivity|]. split; [reflexivity|].
  split; [intros i j; vm_compute; reflexivity|].
  split; [|split].
  - intros l r. split; [apply sort_perm|].
    exact (sort_sorted _ ListPrivateVideosTask.info_title false l).
  - intros l r. split; [apply sort_perm|].
    exact (sort_sorted _
             (fun v => lower (AddPublicShortsExtendedTask.short_title v))
             true l).
  - intros w w' l H. unfold ListPrivateVideosTask.execute in H.
    apply bind_Ret_inv in H. destruct H as (u & w1 & _ & H).
    apply bind_Ret_inv in H. destruct H as (items & w2 & _ & H).
    apply bind_Ret_inv in H. destruct H as (pv & w3 & _ & H).
    unfold ret in H. inversion H; subst.
    exact (sort_sorted _ ListPrivateVideosTask.info_title false pv).
Qed.

Lemma C6_witness_three_private :
  exists (l : list ListPrivateVideosTask.video_info) (w' : world),
    ListPrivateVideosTask.execute Scenarios.three_private_world
    = (Ret l, w') /\
    map ListPrivateVideosTask.info_title l = [py "B"; py "C"; py "a"] /\
    StronglySorted
      (fun x y => str_le (ListPrivateVideosTask.info_title x)
                         (ListPrivateVideosTask.info_title y)) l.
Proof.
  eexists _, _. split; [vm_compute; reflexivity|].
  split; [reflexivity|].
  refine (proj2 (proj2 (proj2 (proj2 (proj2 C6_sort_orders))))
            Scenarios.three_private_world _ _ _).
  vm_compute. reflexivity.
Defined.

End TitleClaims.

(** ** The calendar *)
Module CalendarFacts.

Import World WorldFacts CalendarStrategy.
Local Open Scope Z_scope.
Local Open Scope py_scope.

Lemma advance_0 (w : world) : advance 0 w = w.
Proof. destruct w. unfold advance. simpl. now rewrite Nat.add_0_r. Qed.

Lemma advance_advance (n m : nat) (w : world) :
  advance m (advance n w) = advance (n + m) w.
Proof. unfold advance. simpl. now rewrite Nat.add_assoc. Qed.

Lemma now_advance (w : world) :
  now w = (Ret (clock w (clock_reads w)), advance 1 w).
Proof. unfold now, advance. now rewrite Nat.add_1_r. Qed.

Lemma dt_ltb_ordinal (a b : datetime) :
  ordinal a < ordinal b -> dt_ltb a b = true.
Proof.
  intros H. unfold dt_ltb. apply Z.ltb_lt in H. now rewrite H.
Qed.

Lemma dt_ltb_trans (a b c : datetime) :
  dt_ltb a b = true -> dt_ltb b c = true -> dt_ltb a c = true.
Proof.
  unfold dt_ltb.
  rewrite !Bool.orb_true_iff, !Bool.andb_true_iff, !Bool.orb_true_iff,
    !Bool.andb_true_iff, !Bool.orb_true_iff, !Bool.andb_true_iff,
    !Bool.orb_true_iff, !Bool.andb_true_iff, !Z.ltb_lt, !Z.eqb_eq.
  lia.
Qed.

Lemma dt_ltb_total (a b : datetime) :
  dt_ltb a b = true \/ dt_ltb b a = true \/
  (ordinal a = ordinal b /\ hour a = hour b /\ minute a = minute b /\
   second a = second b /\ microsecond a = microsecond b).
Proof.
  unfold dt_ltb.
  rewrite !Bool.orb_true_iff, !Bool.andb_true_iff, !Bool.orb_true_iff,
    !Bool.andb_true_iff, !Bool.orb_true_iff, !Bool.andb_true_iff,
    !Bool.orb_true_iff, !Bool.andb_true_iff, !Z.ltb_lt, !Z.eqb_eq.
  lia.
Qed.

Lemma dt_ltb_irrefl (a : datetime) : dt_ltb a a = false.
Proof.
  unfold dt_ltb. now rewrite !Z.ltb_irrefl, !Z.eqb_refl.
Qed.

(** [a <= b < c] gives [a < c]. *)
Lemma dt_le_lt_trans (a b c : datetime) :
  dt_le a b -> dt_lt b c -> dt_lt a c.
Proof.
  unfold dt_le, dt_lt. intros Hab Hbc.
  destruct (dt_ltb_total a b) as [H|[H|H]].
  - eapply dt_ltb_trans; eauto.
  - congruence.
  - destruct a, b; simpl in H. destruct H as (-> & -> & -> & -> & ->).
    exact Hbc.
Qed.

Lemma dt_lt_le (a b : datetime) : dt_lt a b -> dt_le a b.
Proof.
  unfold dt_le, dt_lt. intros H.
  destruct (dt_ltb b a) eqn:E; [|reflexivity].
  pose proof (dt_ltb_trans _ _ _ H E) as Haa.
  now rewrite dt_ltb_irrefl in Haa.
Qed.

Lemma valid_slot_hm (d hr mnt : Z) :
  valid_slot (d, hr, mnt) -> valid_hm hr mnt = true.
Proof.
  unfold valid_slot, valid_hm. intros (_ & Hh & Hm).
  rewrite !Bool.andb_true_iff, !Z.leb_le, !Z.ltb_lt. lia.
Qed.

(** A table with no slot for the day leaves everything as it is. *)
Lemma for_slots_no_match (sl : list slot) (current : datetime) (q : Z)
  (dates : list datetime) (w : world) :
  ~ In (weekday current) (map slot_day sl) ->
  for_slots sl current q dates w = (Ret dates, w).
Proof.
  induction sl as [|[[d hr] mnt] rest IH]; intros Hno; [reflexivity|].
  cbn [for_slots]. simpl in Hno.
  destruct (Z.eqb_spec (weekday current) d) as [E|E]; [|apply IH; tauto].
  exfalso. apply Hno. now left.
Qed.

(** One day of the table: what is appended carries the day of [current]
    and lies after a reading of the clock; the list does not grow beyond
    [q]; a table with one slot a weekday appends at most one instant; and
    a slot for the day appends one when the clock is still on an earlier
    day and the list is short of [q]. *)
Lemma for_slots_run (sl : list slot) (current : datetime) (q : Z) :
  Forall valid_slot sl ->
  forall (dates : list datetime) (w : world),
  exists (added : list datetime) (n : nat),
    for_slots sl current q dates w = (Ret (dates ++ added), advance n w) /\
    Forall (fun e => ordinal e = ordinal current /\
                     exists k, dt_lt (clock w (clock_reads w + k)) e) added /\
    Z.of_nat (List.length (dates ++ added))
      <= Z.max (Z.of_nat (List.length dates)) q /\
    (NoDup (map slot_day sl) -> (List.length added <= 1)%nat) /\
    (In (weekday current) (map slot_day sl) ->
     (forall k, ordinal (clock w (clock_reads w + k)) < ordinal current) ->
     Z.of_nat (List.length dates) < q -> added <> []).
Proof.
  induction sl as [|[[d hr] mnt] rest IH]; intros Hv dates w.
  - exists [], 0%nat. rewrite app_nil_r, advance_0. simpl.
    repeat split; auto; try lia.
  - inversion Hv as [|s r Hs Hrest]; subst.
    cbn [for_slots].
    destruct (Z.eqb_spec (weekday current) d) as [E|E].
    + unfold replace_hmsu. rewrite (valid_slot_hm _ _ _ Hs).
      cbn [valid_su Z.leb Z.ltb Z.compare andb].
      unfold bind at 1. unfold ret at 1. unfold bind at 1.
      rewrite now_advance.
      set (possible := mkdt (ordinal current) hr mnt 0 0).
      destruct (dt_ltb (clock w (clock_reads w)) possible
                && (Z.of_nat (List.length dates) <? q)) eqn:C.
      * apply Bool.andb_true_iff in C. destruct C as [C1 C2].
        apply Z.ltb_lt in C2.
        destruct (IH Hrest (dates ++ [possible]) (advance 1 w))
          as (added & n & Hrun & Hall & Hlen & Hone & _).
        exists (possible :: added), (1 + n)%nat.
        rewrite <- advance_advance.
        replace (dates ++ possible :: added)
          with ((dates ++ [possible]) ++ added)
          by (now rewrite <- app_assoc).
        split; [exact Hrun|]. split; [|split; [|split]].
        -- constructor.
           ++ split; [reflexivity|]. exists 0%nat.
              now rewrite Nat.add_0_r.
           ++ eapply Forall_impl; [|exact Hall].
              intros e (He & k & Hk). split; [exact He|].
              exists (1 + k)%nat. simpl in Hk.
              now rewrite Nat.add_assoc.
        -- rewrite !length_app in *. cbn [List.length] in *. lia.
        -- intros Hnd. simpl in Hnd. apply NoDup_cons_iff in Hnd.
           destruct Hnd as [Hnin Hnd'].
           rewrite (for_slots_no_match rest current q (dates ++ [possible])
                      (advance 1 w)) in Hrun.
           ++ inversion Hrun as [[Hd Hw]].
              rewrite <- (app_nil_r (dates ++ [possible])) in Hd at 1.
              apply app_inv_head in Hd. subst added. simpl. lia.
           ++ now rewrite E.
        -- discriminate.
      * destruct (IH Hrest dates (advance 1 w))
          as (added & n & Hrun & Hall & Hlen & Hone & Hprog).
        exists added, (1 + n)%nat. rewrite <- advance_advance.
        split; [exact Hrun|]. split; [|split; [|split]].
        -- eapply Forall_impl; [|exact Hall].
           intros e (He & k & Hk). split; [exact He|].
           exists (1 + k)%nat. simpl in Hk. now rewrite Nat.add_assoc.
        -- exact Hlen.
        -- intros Hnd. apply Hone. now inversion Hnd.
        -- intros _ Hclock Hq. exfalso.
           apply Z.ltb_lt in Hq. rewrite Hq, Bool.andb_true_r in C.
           rewrite dt_ltb_ordinal in C; [discriminate|].
           specialize (Hclock 0%nat). now rewrite Nat.add_0_r in Hclock.
    + destruct (IH Hrest dates w)
        as (added & n & Hrun & Hall & Hlen & Hone & Hprog).
      exists added, n. split; [exact Hrun|]. split; [exact Hall|].
      split; [exact Hlen|]. split.
      * intros Hnd. apply Hone. now inversion Hnd.
      * intros Hin. apply Hprog. simpl in Hin. destruct Hin; congruence.
Qed.

Lemma add_days_in (d : datetime) (n : Z) (w : world) :
  1 <= ordinal d + n <= max_ordinal ->
  add_days d n w
  = (Ret (mkdt (ordinal d + n) (hour d) (minute d) (second d)
            (microsecond d)), w).
Proof.
  intros H. unfold add_days.
  destruct (Z.leb_spec 1 (ordinal d + n)); [|lia].
  destruct (Z.leb_spec (ordinal d + n) max_ordinal); [reflexivity|lia].
Qed.

Lemma add_days_out (d : datetime) (n : Z) (w : world) :
  max_ordinal < ordinal d + n ->
  add_days d n w = (Raise OverflowError, w).
Proof.
  intros H. unfold add_days.
  destruct (Z.leb_spec (ordinal d + n) max_ordinal); [lia|].
  now rewrite Bool.andb_false_r.
Qed.

Lemma weekday_range (d : datetime) : 0 <= weekday d < 7.
Proof. unfold weekday. apply Z.mod_pos_bound. lia. Qed.

Section Run.

Variable sl : list slot.
Variable q : Z.
Variable w0 : world.
Variable K : Z.

Local Notation "'t0'" := (clock w0 (clock_reads w0)).

Hypothesis Hvalid : Forall valid_slot sl.
Hypothesis Hevery : forall d, 0 <= d < 7 -> In d (map slot_day sl).
Hypothesis Hmono : forall k, dt_le t0 (clock w0 (clock_reads w0 + k)).
Hypothesis HK : 0 <= K.
Hypothesis Hday :
  forall k, ordinal (clock w0 (clock_reads w0 + k)) <= ordinal t0 + K.
Hypothesis Hreal : 0 <= ordinal t0.

(** What bounds the number of days still to visit: one for each instant
    missing, and the days on which the clock may still be, on which
    nothing may be found. *)
Local Notation "'measure' current dates" :=
  ((q - Z.of_nat (List.length dates))
   + (if ordinal current <=? ordinal t0 + K
      then ordinal t0 + K + 1 - ordinal current else 0))
  (at level 10, current at level 9, dates at level 9).

Lemma while_run (fuel : nat) :
  forall (current : datetime) (dates : list datetime) (n : nat),
  ordinal t0 <= ordinal current ->
  Z.of_nat (List.length dates) <= q ->
  measure current dates <= Z.of_nat fuel ->
  ordinal current + measure current dates <= max_ordinal ->
  exists (added : list datetime) (n' : nat),
    while_loop sl q fuel current dates (advance n w0)
    = (Ret (dates ++ added), advance n' w0) /\
    Z.of_nat (List.length (dates ++ added)) = q /\
    Forall (fun e => ordinal current <= ordinal e /\ dt_lt t0 e) added /\
    (NoDup (map slot_day sl) ->
     StronglySorted (fun a b => ordinal a < ordinal b) added).
Proof.
  induction fuel as [|fuel IH]; intros current dates n Hord Hlen Hmu Hroom;
    cbn [while_loop];
    destruct (Z.ltb_spec (Z.of_nat (List.length dates)) q) as [Hq|Hq];
    try (exists [], n; rewrite app_nil_r;
         repeat split; [lia|constructor|intros; constructor]).
  - exfalso. destruct (ordinal current <=? ordinal t0 + K) eqn:E;
      [apply Z.leb_le in E|]; lia.
  - destruct (for_slots_run sl current q Hvalid dates (advance n w0))
      as (added1 & n1 & Hrun & Hall & Hlen1 & Hone & Hprog).
    unfold bind at 1. rewrite Hrun.
    assert (Hnext : 1 <= ordinal current + 1 <= max_ordinal).
    { destruct (ordinal current <=? ordinal t0 + K) eqn:E;
        [apply Z.leb_le in E|]; lia. }
    unfold bind at 1. rewrite (add_days_in _ _ _ Hnext).
    unfold replace_hm. change (valid_hm 0 0) with true. cbv iota.
    unfold bind at 1. unfold ret at 1.
    rewrite advance_advance. cbn [second microsecond].
    set (current' := mkdt (ordinal current + 1) 0 0 (second current)
                       (microsecond current)).
    assert (Hord' : ordinal current' = ordinal current + 1) by reflexivity.
    assert (Hclock : forall k,
               ordinal (clock (advance n w0)
                          (clock_reads (advance n w0) + k))
               <= ordinal t0 + K).
    { intros k. simpl. rewrite <- Nat.add_assoc. apply Hday. }
    assert (Hgrow : Z.of_nat (List.length (dates ++ added1)) <= q) by lia.
    assert (Hstep : measure current' (dates ++ added1)
                    <= measure current dates - 1).
    { rewrite length_app in *. rewrite Hord'.
      destruct (Z.leb_spec (ordinal current) (ordinal t0 + K)) as [Hin|Hout].
      - destruct (Z.leb_spec (ordinal current + 1) (ordinal t0 + K)); lia.
      - destruct (Z.leb_spec (ordinal current + 1) (ordinal t0 + K));
          [lia|].
        assert (added1 <> []).
        { apply Hprog; [apply Hevery, weekday_range| |exact Hq].
          intros k. specialize (Hclock k). lia. }
        destruct added1; [congruence|]. simpl List.length in *. lia. }
    destruct (IH current' (dates ++ added1) (n + n1)%nat
                ltac:(lia) Hgrow ltac:(lia) ltac:(lia))
      as (added2 & n' & Hrun2 & Hlen2 & Hall2 & Hsort2).
    exists (added1 ++ added2), n'.
    rewrite app_assoc. split; [exact Hrun2|]. split; [exact Hlen2|].
    assert (Hall1 : Forall (fun e => ordinal e = ordinal current /\
                                     dt_lt t0 e) added1).
    { eapply Forall_impl; [|exact Hall].
      intros e (He & k & Hk). split; [exact He|].
      eapply dt_le_lt_trans; [|exact Hk].
      simpl. rewrite <- Nat.add_assoc. apply Hmono. }
    split.
    + apply Forall_app. split.
      * eapply Forall_impl; [|exact Hall1]. intros e [He Ht]. split; [lia|auto].
      * eapply Forall_impl; [|exact Hall2]. intros e [He Ht]. split; [lia|auto].
    + intros Hnd. specialize (Hone Hnd). specialize (Hsort2 Hnd).
      destruct added1 as [|e [|e' r]]; [exact Hsort2| |simpl in Hone; lia].
      simpl app. constructor; [exact Hsort2|].
      inversion Hall1 as [|x l [He _] _]; subst.
      eapply Forall_impl; [|exact Hall2]. intros a [Ha _]. lia.
Qed.

(** The whole generation, from the first reading of the clock. *)
Lemma generate_run (fuel : nat) :
  0 <= q ->
  q + K + 1 <= Z.of_nat fuel ->
  ordinal t0 + q + K + 1 <= max_ordinal ->
  exists (dates : list datetime) (n : nat),
    generate_schedule_from sl q fuel w0 = (Ret dates, advance n w0) /\
    Z.of_nat (List.length dates) = q /\
    Forall (dt_lt t0) dates /\
    (NoDup (map slot_day sl) ->
     StronglySorted (fun a b => ordinal a < ordinal b) dates).
Proof.
  intros Hq Hfuel Hroom.
  unfold generate_schedule_from, bind. rewrite now_advance.
  destruct (while_run fuel t0 [] 1%nat) as (added & n & Hrun & Hlen & Hall & Hs).
  - lia.
  - simpl. lia.
  - simpl List.length.
    destruct (Z.leb_spec (ordinal t0) (ordinal t0 + K)); lia.
  - simpl List.length.
    destruct (Z.leb_spec (ordinal t0) (ordinal t0 + K)); lia.
  - exists added, n. simpl app in *. split; [exact Hrun|].
    split; [exact Hlen|]. split; [|exact Hs].
    eapply Forall_impl; [|exact Hall]. now intros e [_ He].
Qed.

End Run.

(** A table of valid slots never stops a day's turn. *)
Lemma for_slots_returns (sl : list slot) (current : datetime) (q : Z)
  (dates : list datetime) (w : world) :
  Forall valid_slot sl ->
  exists dates' w', for_slots sl current q dates w = (Ret dates', w').
Proof.
  intros Hv.
  destruct (for_slots_run sl current q Hv dates w) as (added & n & H & _).
  eauto.
Qed.

(** Every table, every quantity, every clock: the loop ends within the
    days the calendar has left, with the schedule or with the
    [OverflowError] of the last day. *)
Lemma while_loop_ends (sl : list slot) (q : Z) :
  Forall valid_slot sl ->
  forall (fuel : nat) (current : datetime) (dates : list datetime)
         (w : world),
  (Z.to_nat (max_ordinal - ordinal current) < fuel)%nat ->
  match fst (while_loop sl q fuel current dates w) with
  | Ret _ => True
  | Raise e => e = OverflowError
  | OutOfFuel => False
  end.
Proof.
  intros Hv. induction fuel as [|fuel IH]; intros current dates w Hfuel;
    [lia|].
  cbn [while_loop].
  destruct (Z.of_nat (List.length dates) <? q); [|exact I].
  destruct (for_slots_returns sl current q dates w Hv) as (d1 & w1 & H1).
  unfold bind at 1. rewrite H1. unfold bind at 1. unfold add_days.
  destruct ((1 <=? ordinal current + 1)
            && (ordinal current + 1 <=? max_ordinal)) eqn:E;
    [|reflexivity].
  apply Bool.andb_true_iff in E. destruct E as [E1 E2].
  apply Z.leb_le in E1, E2.
  unfold ret at 1. unfold replace_hm. change (valid_hm 0 0) with true.
  cbv iota. unfold bind at 1. unfold ret at 1.
  apply IH. cbn [ordinal]. lia.
Qed.

(** An empty table: the loop turns through every day the calendar has
    left, reads no clock, and ends with [OverflowError]. *)
Lemma while_loop_empty (q : Z) (fuel : nat) :
  forall (current : datetime) (dates : list datetime) (w : world),
  Z.of_nat (List.length dates) < q ->
  0 <= ordinal current ->
  while_loop [] q fuel current dates w
  = (if (Z.to_nat (max_ordinal - ordinal current) <? fuel)%nat
     then Raise OverflowError else OutOfFuel, w).
Proof.
  induction fuel as [|fuel IH]; intros current dates w Hq Ho;
    cbn [while_loop]; pose proof Hq as Hq'; apply Z.ltb_lt in Hq';
    rewrite Hq'; [reflexivity|].
  cbn [for_slots]. unfold bind at 1. unfold ret at 1.
  unfold bind at 1.
  destruct (Z.le_gt_cases (ordinal current + 1) max_ordinal) as [Hin|Hout].
  - rewrite add_days_in by lia.
    unfold replace_hm. change (valid_hm 0 0) with true. cbv iota.
    unfold bind at 1. unfold ret at 1.
    rewrite IH by (cbn [ordinal]; lia). cbn [ordinal].
    replace (Z.to_nat (max_ordinal - ordinal current))
      with (S (Z.to_nat (max_ordinal - (ordinal current + 1)))) by lia.
    reflexivity.
  - rewrite add_days_out by lia.
    replace (Z.to_nat (max_ordinal - ordinal current)) with 0%nat by lia.
    reflexivity.
Qed.

Lemma generate_empty (q : Z) (fuel : nat) (w : world) :
  0 < q ->
  0 <= ordinal (clock w (clock_reads w)) ->
  generate_schedule_from [] q fuel w
  = (if (Z.to_nat (max_ordinal - ordinal (clock w (clock_reads w)))
         <? fuel)%nat
     then Raise OverflowError else OutOfFuel, advance 1 w).
Proof.
  intros Hq Ho. unfold generate_schedule_from, bind. rewrite now_advance.
  rewrite while_loop_empty by (cbn [List.length]; lia).
  now destruct (_ <? _)%nat.
Qed.

(** The list never grows beyond the quantity. *)
Lemma for_slots_bound (sl : list slot) (current : datetime) (q : Z) :
  forall dates w dates' w',
  for_slots sl current q dates w = (Ret dates', w') ->
  Z.of_nat (List.length dates) <= Z.max q 0 ->
  Z.of_nat (List.length dates') <= Z.max q 0.
Proof.
  induction sl as [|[[d hr] mnt] rest IH]; intros dates w dates' w' Hrun Hd.
  - cbn in Hrun. now inversion Hrun; subst.
  - cbn [for_slots] in Hrun.
    destruct (weekday current =? d); [|exact (IH _ _ _ _ Hrun Hd)].
    apply bind_Ret_inv in Hrun. destruct Hrun as (possible & w1 & _ & Hrun).
    apply bind_Ret_inv in Hrun. destruct Hrun as (t & w2 & _ & Hrun).
    destruct (dt_ltb t possible); cbn [andb] in Hrun;
      [|exact (IH _ _ _ _ Hrun Hd)].
    destruct (Z.ltb_spec (Z.of_nat (List.length dates)) q) as [Hlt|Hge];
      [|exact (IH _ _ _ _ Hrun Hd)].
    apply (IH _ _ _ _ Hrun). rewrite length_app. cbn [List.length]. lia.
Qed.

Lemma while_loop_exact (sl : list slot) (q : Z) (fuel : nat) :
  forall current dates w dates' w',
  while_loop sl q fuel current dates w = (Ret dates', w') ->
  Z.of_nat (List.length dates) <= Z.max q 0 ->
  List.length dates' = Z.to_nat q.
Proof.
  induction fuel as [|fuel IH]; intros current dates w dates' w' Hrun Hd;
    cbn [while_loop] in Hrun;
    destruct (Z.ltb_spec (Z.of_nat (List.length dates)) q) as [Hlt|Hge];
    try discriminate;
    try (inversion Hrun; subst; lia).
  apply bind_Ret_inv in Hrun. destruct Hrun as (dates1 & w1 & H1 & Hrun).
  apply bind_Ret_inv in Hrun. destruct Hrun as (next & w2 & _ & Hrun).
  apply bind_Ret_inv in Hrun. destruct Hrun as (current' & w3 & _ & Hrun).
  apply (IH _ _ _ _ _ Hrun).
  exact (for_slots_bound _ _ _ _ _ _ _ H1 Hd).
Qed.

Lemma StronglySorted_impl {A} (R S : A -> A -> Prop) (l : list A) :
  (forall a b, R a b -> S a b) -> StronglySorted R l -> StronglySorted S l.
Proof.
  intros H. induction 1 as [|x l Hl IH Hx]; constructor; auto.
  eapply Forall_impl; [|exact Hx]. auto.
Qed.

Lemma slots_valid : Forall valid_slot slots.
Proof. unfold slots, valid_slot. repeat constructor; lia. Qed.

Lemma slots_every_day (d : Z) : 0 <= d < 7 -> In d (map slot_day slots).
Proof.
  intros H. simpl.
  assert (d = 0 \/ d = 1 \/ d = 2 \/ d = 3 \/ d = 4 \/ d = 5 \/ d = 6)
    by lia.
  intuition auto.
Qed.

Lemma slots_one_a_day : NoDup (map slot_day slots).
Proof.
  simpl. repeat constructor; simpl; intuition discriminate.
Qed.

End CalendarFacts.

(** ** The schedule generator *)
Module CalendarClaims.

Import World WorldFacts CalendarStrategy CalendarFacts Scenarios.
Local Open Scope Z_scope.



(** The schedule of that run: the slots of Monday, Tuesday and
    Wednesday. *)
Example over_midnight_schedule :
  fst (generate_schedule 3 5 midnight_world)
  = Ret [mkdt 8 7 30 0 0; mkdt 9 13 0 0 0; mkdt 10 13 0 0 0].
Proof. vm_compute. reflexivity. Qed.


(** C2 (as amended).  The weekly table is a literal of
    [generate_schedule], seven entries, one for each weekday: no caller
    can pass a table, and the program has no [ConfigurationError].
    Whatever the quantity and whatever the clock does, the generator
    ends within as many turns of its loop as the calendar has days left:
    with the schedule, of exactly the quantity asked for, or with the
    [OverflowError] of the step beyond 9999-12-31.  The same holds of the
    loop with any table of valid slots in the place of the literal; with
    a table of zero entries and Q > 0 it turns through every day that is
    left, without reading the clock, and ends with [OverflowError]. *)
Theorem C2_generate_terminates (sl : list slot) (w : world) (quantity : Z)
  (fuel : nat) :
  (Z.to_nat (max_ordinal - ordinal (clock w (clock_reads w))) < fuel)%nat ->
  Forall valid_slot sl ->
  match fst (generate_schedule quantity fuel w) with
  | Ret dates => List.length dates = Z.to_nat quantity
  | Raise e => e = OverflowError
  | OutOfFuel => False
  end /\
  match fst (generate_schedule_from sl quantity fuel w) with
  | Ret dates => List.length dates = Z.to_nat quantity
  | Raise e => e = OverflowError
  | OutOfFuel => False
  end /\
  (0 < quantity -> 0 <= ordinal (clock w (clock_reads w)) ->
   generate_schedule_from [] quantity fuel w
   = (Raise OverflowError, advance 1 w)).
Proof.
  intros Hfuel Hv.
  assert (Hends : forall table, Forall valid_slot table ->
            match fst (generate_schedule_from table quantity fuel w) with
            | Ret dates => List.length dates = Z.to_nat quantity
            | Raise e => e = OverflowError
            | OutOfFuel => False
            end).
  { intros table Ht. unfold generate_schedule_from, bind.
    rewrite now_advance.
    pose proof (while_loop_ends table quantity Ht fuel
                  (clock w (clock_reads w)) [] (advance 1 w) Hfuel) as He.
    destruct (while_loop table quantity fuel (clock w (clock_reads w)) []
                (advance 1 w)) as [[dates|e|] w'] eqn:Hrun;
      cbn [fst] in *; try exact He.
    apply (while_loop_exact _ _ _ _ _ _ _ _ Hrun). cbn [List.length]. lia. }
  split; [apply Hends, slots_valid|]. split; [now apply Hends|].
  intros Hq Ho. rewrite generate_empty by assumption.
  apply Nat.ltb_lt in Hfuel. now rewrite Hfuel.
Qed.

(** Three days before the end of the calendar: the code's table gives
    its three instants, and the empty table ends with [OverflowError]. *)
Lemma C2_witness_late_december :
  match fst (generate_schedule 3 5
               (still_world empty_platform (mkdt 3652056 23 0 0 0))) with
  | Ret dates => List.length dates = Z.to_nat 3
  | Raise e => e = OverflowError
  | OutOfFuel => False
  end /\
  match fst (generate_schedule_from monday_tuesday 3 5
               (still_world empty_platform (mkdt 3652056 23 0 0 0))) with
  | Ret dates => List.length dates = Z.to_nat 3
  | Raise e => e = OverflowError
  | OutOfFuel => False
  end /\
  (0 < 3 -> 0 <= 3652056 ->
   generate_schedule_from [] 3 5
     (still_world empty_platform (mkdt 3652056 23 0 0 0))
   = (Raise OverflowError,
      advance 1 (still_world empty_platform (mkdt 3652056 23 0 0 0)))).
Proof.
  apply (C2_generate_terminates monday_tuesday
           (still_world empty_platform (mkdt 3652056 23 0 0 0)) 3 5).
  - simpl. unfold max_ordinal. lia.
  - unfold monday_tuesday, valid_slot. repeat constructor; lia.
Defined.

(** The scenario of the specification, with the loop taking the table as
    a parameter: a Monday and a Tuesday slot, three instants asked for on
    a Sunday at 23:00. *)
Example monday_tuesday_schedule :
  fst (generate_schedule_from monday_tuesday 3 35
         (still_world empty_platform sunday_23h))
  = Ret [mkdt 8 7 30 0 0; mkdt 9 13 0 0 0; mkdt 15 7 30 0 0].
Proof. vm_compute. reflexivity. Qed.

(** C2, as stated, fails.  The exception the generator can end with is
    [OverflowError], with its own table of seven entries (here on
    9999-12-30 at 23:00, the step beyond the last day) as with a table
    of zero entries in the place of the literal: on day 7 of the
    calendar that loop gives no schedule and raises nothing for 3652052
    turns, one for each day that is left, and then ends with
    [OverflowError]. *)
Lemma C2_counterexample_empty_table :
  fst (generate_schedule 1 5
         (still_world empty_platform (mkdt 3652058 23 0 0 0)))
  = Raise OverflowError /\
  (forall fuel : nat,
     fst (generate_schedule_from [] 1 fuel
            (still_world empty_platform sunday_23h))
     = if 3652052 <? Z.of_nat fuel then Raise OverflowError
       else OutOfFuel).
Proof.
  split; [vm_compute; reflexivity|].
  intros fuel. rewrite generate_empty by (simpl; lia).
  cbn [fst still_world clock clock_reads sunday_23h ordinal].
  unfold max_ordinal.
  destruct (Z.ltb_spec 3652052 (Z.of_nat fuel)),
    (Nat.ltb_spec (Z.to_nat (3652059 - 7)) fuel); (reflexivity || lia).
Qed.

End CalendarClaims.

(** ** The gateway *)
Module GatewayFacts.

Import PyStr World WorldFacts YouTubeAPI Observations.
Local Open Scope py_scope.

Lemma playlistItems_list_eq (pid : string) (n : nat) (w : world) :
  playlistItems_list pid n w =
  if faults w (requests w)
  then (Raise HttpError, sent (ReqListItems pid n) false w)
  else (Ret (firstn n (playlists (platform w) pid)),
        sent (ReqListItems pid n) true w).
Proof.
  unfold playlistItems_list, bind, send.
  destruct (faults w (requests w)); reflexivity.
Qed.

Lemma fetch_playlist_items_eq (pid : string) (w : world) :
  fetch_playlist_items pid w =
  if faults w (requests w)
  then (Raise HttpError, sent (ReqListItems pid 100) false w)
  else (Ret (listed w pid), sent (ReqListItems pid 100) true w).
Proof.
  unfold fetch_playlist_items, bind. rewrite playlistItems_list_eq.
  destruct (faults w (requests w)); reflexivity.
Qed.

Lemma get_uploads_playlist_id_eq (w : world) :
  get_uploads_playlist_id w =
  if faults w (requests w)
  then (Raise HttpError, sent ReqChannels false w)
  else match uploads_playlist (platform w) with
       | Some u => (Ret u, sent ReqChannels true w)
       | None => (Raise IndexError, sent ReqChannels true w)
       end.
Proof.
  unfold get_uploads_playlist_id, bind, send.
  destruct (faults w (requests w)); [reflexivity|].
  unfold read_platform. simpl.
  destruct (uploads_playlist (platform w)); reflexivity.
Qed.

Lemma get_full_video_data_eq (v : string) (w : world) :
  get_full_video_data v w =
  if faults w (requests w)
  then (Raise HttpError, sent (ReqVideo v) false w)
  else (Ret (videos (platform w) v), sent (ReqVideo v) true w).
Proof.
  unfold get_full_video_data, bind, send.
  destruct (faults w (requests w)); reflexivity.
Qed.

Lemma update_video_content_eq (b : update_body) (w : world) :
  update_video_content b w =
  if faults w (requests w)
  then (Raise HttpError, sent (ReqUpdate b) false w)
  else (Ret tt, set_platform (apply_update (platform w) b)
                  (sent (ReqUpdate b) true w)).
Proof.
  unfold update_video_content, bind, send.
  destruct (faults w (requests w)); reflexivity.
Qed.

Lemma add_to_playlist_eq (v pid : string) (w : world) :
  add_to_playlist v pid w =
  if faults w (requests w)
  then (Raise HttpError, sent (ReqInsert v pid) false w)
  else (Ret tt, set_platform (apply_insert (platform w) v pid)
                  (sent (ReqInsert v pid) true w)).
Proof.
  unfold add_to_playlist, bind, send.
  destruct (faults w (requests w)); reflexivity.
Qed.

Lemma playlistItems_delete_eq (i : N) (w : world) :
  playlistItems_delete i w =
  if faults w (requests w)
  then (Raise HttpError, sent (ReqDelete i) false w)
  else (Ret tt, set_platform (apply_delete (platform w) i)
                  (sent (ReqDelete i) true w)).
Proof.
  unfold playlistItems_delete, bind, send.
  destruct (faults w (requests w)); reflexivity.
Qed.

Lemma preserves_bind {A B} (R R1 R2 : world -> world -> Prop)
  (m : M A) (f : A -> M B) :
  preserves R R1 m -> (forall a, preserves R1 R2 (f a)) ->
  (forall w w', R1 w w' -> R2 w w') ->
  preserves R R2 (bind m f).
Proof.
  intros Hm Hf Hsub w w' HR. destruct (Hm w w' HR) as [Ho Hw].
  unfold bind. destruct (m w) as [o w1], (m w') as [o' w1'].
  simpl in Ho, Hw. subst o'. destruct o as [a|e|]; simpl; auto.
  now apply Hf.
Qed.

Lemma preserves_ret {A} (R : world -> world -> Prop) (a : A) :
  preserves R R (ret a).
Proof. intros w w' H. now split. Qed.

Lemma preserves_raise {A} (R : world -> world -> Prop) (e : exn) :
  preserves R R (@raise A e).
Proof. intros w w' H. now split. Qed.

Lemma preserves_weaken {A} (R R' S S' : world -> world -> Prop) (m : M A) :
  preserves R R' m -> (forall w w', S w w' -> R w w') ->
  (forall w w', R' w w' -> S' w w') -> preserves S S' m.
Proof.
  intros Hm H1 H2 w w' HS. destruct (Hm w w' (H1 _ _ HS)). auto.
Qed.

Lemma preserves_try_except (R R' : world -> world -> Prop) (m : M unit) :
  preserves R R' m -> preserves R R' (try_except m).
Proof.
  intros Hm w w' HR. destruct (Hm w w' HR) as [Ho Hw].
  unfold try_except. destruct (m w) as [o w1], (m w') as [o' w1'].
  simpl in Ho, Hw. subst o'. destruct o; simpl; auto.
Qed.

Lemma preserves_try_ok (R R' : world -> world -> Prop) (m : M unit) :
  preserves R R' m -> preserves R R' (try_ok m).
Proof.
  intros Hm w w' HR. destruct (Hm w w' HR) as [Ho Hw].
  unfold try_ok. destruct (m w) as [o w1], (m w') as [o' w1'].
  simpl in Ho, Hw. subst o'. destruct o; simpl; auto.
Qed.

Lemma alike_page_alike (w w' : world) : alike_page w w' -> alike w w'.
Proof. now intros [H _]. Qed.

Lemma alike_sent (r : request) (ok : bool) (w w' : world) :
  alike w w' -> alike (sent r ok w) (sent r ok w').
Proof.
  intros (Hf & Hr & Hc & Hk & Ht). unfold alike, sent. simpl.
  now rewrite Hf, Hr, Hc, Hk, Ht.
Qed.

(** Reading: the answer depends on the first page only. *)
Lemma preserves_list (pid : string) (n : nat) :
  (n <= 100)%nat ->
  preserves alike_page alike_page (playlistItems_list pid n).
Proof.
  intros Hn w w' [Ha Hp]. rewrite !playlistItems_list_eq.
  destruct Ha as (Hf & Hr & Hc & Hk & Ht). rewrite Hf, Hr.
  assert (Hs : forall ok, alike_page (sent (ReqListItems pid n) ok w)
                            (sent (ReqListItems pid n) ok w')).
  { intros ok. split; [|exact Hp]. apply alike_sent. repeat split; auto. }
  destruct (faults w (requests w)); simpl; split; auto.
  destruct Hp as (_ & _ & Hpl).
  replace n with (Nat.min n 100) by lia.
  rewrite <- !firstn_firstn. now rewrite Hpl.
Qed.

Lemma preserves_fetch_videos (pid : string) :
  preserves alike_page alike_page (fetch_videos pid).
Proof. apply preserves_list. lia. Qed.

Lemma preserves_fetch_playlist_items (pid : string) :
  preserves alike_page alike_page (fetch_playlist_items pid).
Proof.
  unfold fetch_playlist_items.
  eapply preserves_bind; [apply preserves_list; lia| |auto].
  intros items. apply preserves_ret.
Qed.

Lemma preserves_get_uploads :
  preserves alike_page alike_page get_uploads_playlist_id.
Proof.
  intros w w' [Ha Hp]. rewrite !get_uploads_playlist_id_eq.
  destruct Ha as (Hf & Hr & Hc & Hk & Ht). rewrite Hf, Hr.
  assert (Hs : forall ok, alike_page (sent ReqChannels ok w)
                            (sent ReqChannels ok w')).
  { intros ok. split; [|exact Hp]. apply alike_sent. repeat split; auto. }
  destruct Hp as (Hu & _ & _). rewrite <- Hu.
  destruct (faults w (requests w)); simpl; auto.
  destruct (uploads_playlist (platform w)); simpl; auto.
Qed.

Lemma preserves_get_video (v : string) :
  preserves alike_page alike_page (get_full_video_data v).
Proof.
  intros w w' [Ha Hp]. rewrite !get_full_video_data_eq.
  destruct Ha as (Hf & Hr & Hc & Hk & Ht). rewrite Hf, Hr.
  assert (Hs : forall ok, alike_page (sent (ReqVideo v) ok w)
                            (sent (ReqVideo v) ok w')).
  { intros ok. split; [|exact Hp]. apply alike_sent. repeat split; auto. }
  destruct Hp as (_ & Hv & _). rewrite <- Hv.
  destruct (faults w (requests w)); simpl; auto.
Qed.

(** Writing: how it ends depends on the transport only. *)
Lemma preserves_update (b : update_body) :
  preserves alike alike (update_video_content b).
Proof.
  intros w w' Ha. rewrite !update_video_content_eq.
  pose proof (alike_sent (ReqUpdate b) true w w' Ha).
  pose proof (alike_sent (ReqUpdate b) false w w' Ha).
  destruct Ha as (Hf & Hr & Hc & Hk & Ht). rewrite Hf, Hr.
  destruct (faults w (requests w)); simpl; auto.
Qed.

Lemma preserves_add (v pid : string) :
  preserves alike alike (add_to_playlist v pid).
Proof.
  intros w w' Ha. rewrite !add_to_playlist_eq.
  pose proof (alike_sent (ReqInsert v pid) true w w' Ha).
  pose proof (alike_sent (ReqInsert v pid) false w w' Ha).
  destruct Ha as (Hf & Hr & Hc & Hk & Ht). rewrite Hf, Hr.
  destruct (faults w (requests w)); simpl; auto.
Qed.

Lemma preserves_delete (i : N) :
  preserves alike alike (playlistItems_delete i).
Proof.
  intros w w' Ha. rewrite !playlistItems_delete_eq.
  pose proof (alike_sent (ReqDelete i) true w w' Ha).
  pose proof (alike_sent (ReqDelete i) false w w' Ha).
  destruct Ha as (Hf & Hr & Hc & Hk & Ht). rewrite Hf, Hr.
  destruct (faults w (requests w)); simpl; auto.
Qed.

End GatewayFacts.

(** ** The tasks see the first page only *)
Module FirstPageFacts.

Import PyStr World WorldFacts YouTubeAPI Observations GatewayFacts.
Local Open Scope py_scope.

Lemma preserves_now : preserves alike alike now.
Proof.
  intros w w' (Hf & Hr & Hc & Hk & Ht). unfold now. simpl.
  rewrite Hc, Hk. split; [reflexivity|].
  unfold alike. simpl. rewrite Hf, Hr, Ht. auto.
Qed.

Lemma preserves_replace_hmsu (d : datetime) (hr mnt sec us : Z) :
  preserves alike alike (CalendarStrategy.replace_hmsu d hr mnt sec us).
Proof.
  unfold CalendarStrategy.replace_hmsu.
  destruct (_ && _)%bool; [apply preserves_ret|apply preserves_raise].
Qed.

Lemma preserves_replace_hm (d : datetime) (hr mnt : Z) :
  preserves alike alike (CalendarStrategy.replace_hm d hr mnt).
Proof.
  unfold CalendarStrategy.replace_hm.
  destruct (CalendarStrategy.valid_hm hr mnt);
    [apply preserves_ret|apply preserves_raise].
Qed.

Lemma preserves_add_days (d : datetime) (n : Z) :
  preserves alike alike (add_days d n).
Proof.
  unfold add_days.
  destruct (_ && _)%bool; [apply preserves_ret|apply preserves_raise].
Qed.

Lemma preserves_for_slots (sl : list CalendarStrategy.slot)
  (current : datetime) (q : Z) :
  forall dates,
  preserves alike alike (CalendarStrategy.for_slots sl current q dates).
Proof.
  induction sl as [|[[d hr] mnt] rest IH]; intros dates;
    cbn [CalendarStrategy.for_slots]; [apply preserves_ret|].
  destruct (Z.eqb (weekday current) d); [|apply IH].
  eapply preserves_bind; [apply preserves_replace_hmsu| |auto].
  intros possible.
  eapply preserves_bind; [apply preserves_now| |auto].
  intros t. destruct (_ && _)%bool; apply IH.
Qed.

Lemma preserves_while_loop (sl : list CalendarStrategy.slot) (q : Z)
  (fuel : nat) :
  forall current dates,
  preserves alike alike (CalendarStrategy.while_loop sl q fuel current dates).
Proof.
  induction fuel as [|fuel IH]; intros current dates;
    cbn [CalendarStrategy.while_loop];
    destruct (Z.ltb _ q); try apply preserves_ret.
  - intros w w' H. now split.
  - eapply preserves_bind; [apply preserves_for_slots| |auto].
    intros dates'.
    eapply preserves_bind; [apply preserves_add_days| |auto].
    intros next.
    eapply preserves_bind; [apply preserves_replace_hm| |auto].
    intros current'. apply IH.
Qed.

Lemma preserves_generate_schedule (q : Z) (fuel : nat) :
  preserves alike alike (CalendarStrategy.generate_schedule q fuel).
Proof.
  unfold CalendarStrategy.generate_schedule,
    CalendarStrategy.generate_schedule_from.
  eapply preserves_bind; [apply preserves_now| |auto].
  intros current. apply preserves_while_loop.
Qed.

Lemma preserves_list_for_items (items : list playlist_item) :
  forall acc,
  preserves alike_page alike_page (ListPrivateVideosTask.for_items items acc).
Proof.
  induction items as [|item rest IH]; intros acc;
    cbn [ListPrivateVideosTask.for_items]; [apply preserves_ret|].
  eapply preserves_bind; [apply preserves_get_video| |auto].
  intros [d|]; [|apply preserves_raise].
  destruct (String.eqb _ _); apply IH.
Qed.

Lemma preserves_list_private :
  preserves alike_page alike_page ListPrivateVideosTask.execute.
Proof.
  unfold ListPrivateVideosTask.execute.
  eapply preserves_bind; [apply preserves_get_uploads| |auto].
  intros u.
  eapply preserves_bind; [apply preserves_fetch_videos| |auto].
  intros items.
  eapply preserves_bind; [apply preserves_list_for_items| |auto].
  intros pv. apply preserves_ret.
Qed.

Lemma preserves_shorts_for_items (items : list playlist_item) :
  forall acc,
  preserves alike_page alike_page
    (AddPublicShortsExtendedTask.for_items items acc).
Proof.
  induction items as [|item rest IH]; intros acc;
    cbn [AddPublicShortsExtendedTask.for_items]; [apply preserves_ret|].
  eapply preserves_bind; [apply preserves_get_video| |auto].
  intros [d|]; [|apply preserves_raise].
  destruct (AddPublicShortsExtendedTask.selects d) as [[|]|];
    [apply IH|apply IH|apply preserves_raise].
Qed.

Lemma preserves_for_selected (target : string) (ya : list string)
  (selected : list AddPublicShortsExtendedTask.short_info) :
  forall count,
  preserves alike alike
    (AddPublicShortsExtendedTask.for_selected target ya selected count).
Proof.
  induction selected as [|vid rest IH]; intros count;
    cbn [AddPublicShortsExtendedTask.for_selected]; [apply preserves_ret|].
  destruct (negb _); [|apply IH].
  eapply preserves_bind;
    [apply preserves_try_ok, preserves_add| |auto].
  intros ok. apply IH.
Qed.

Lemma preserves_add_public_shorts (target : string) :
  preserves alike_page alike (AddPublicShortsExtendedTask.execute target).
Proof.
  unfold AddPublicShortsExtendedTask.execute.
  eapply preserves_bind;
    [apply preserves_fetch_playlist_items| |apply alike_page_alike].
  intros ya.
  eapply preserves_bind;
    [apply preserves_get_uploads| |apply alike_page_alike].
  intros u.
  eapply preserves_bind;
    [apply preserves_fetch_videos| |apply alike_page_alike].
  intros items.
  eapply preserves_bind;
    [apply preserves_shorts_for_items| |apply alike_page_alike].
  intros sel.
  eapply preserves_weaken;
    [apply preserves_for_selected|apply alike_page_alike|auto].
Qed.

Lemma preserves_clear_for_items (items : list playlist_item) :
  preserves alike alike (ClearPlaylistTask.for_items items).
Proof.
  induction items as [|item rest IH];
    cbn [ClearPlaylistTask.for_items]; [apply preserves_ret|].
  eapply preserves_bind;
    [apply preserves_try_except, preserves_delete| |auto].
  intros _. apply IH.
Qed.

Lemma preserves_clear (pid : string) :
  preserves alike_page alike (ClearPlaylistTask.execute pid).
Proof.
  unfold ClearPlaylistTask.execute.
  eapply preserves_bind;
    [apply preserves_list; lia| |apply alike_page_alike].
  intros items.
  eapply preserves_weaken with (R := alike) (R' := alike);
    [|apply alike_page_alike|auto].
  destruct items; [apply preserves_ret|apply preserves_clear_for_items].
Qed.

Lemma preserves_for_videos (target : string) (description : pystr)
  (ya : list string) (ref_map : FullAutomationTask.dict)
  (pairs : list (ListPrivateVideosTask.video_info * datetime)) :
  preserves alike alike
    (FullAutomationTask.for_videos target description ya ref_map pairs).
Proof.
  induction pairs as [|[vid_info publish_date] rest IH];
    cbn [FullAutomationTask.for_videos]; [apply preserves_ret|].
  eapply preserves_bind with (R1 := alike);
    [apply preserves_try_except| |auto].
  - eapply preserves_bind with (R1 := alike);
      [apply preserves_update| |auto].
    intros _. destruct (negb _); [apply preserves_add|apply preserves_ret].
  - intros _. apply IH.
Qed.

Lemma preserves_full_automation (target : string) (description : pystr)
  (fuel : nat) :
  preserves alike_page alike
    (FullAutomationTask.execute target description fuel).
Proof.
  unfold FullAutomationTask.execute.
  eapply preserves_bind;
    [apply preserves_list_private| |apply alike_page_alike].
  intros [|x l].
  { eapply preserves_weaken with (R := alike) (R' := alike);
      [apply preserves_ret|apply alike_page_alike|auto]. }
  eapply preserves_bind;
    [apply preserves_fetch_playlist_items| |apply alike_page_alike].
  intros ya.
  eapply preserves_bind;
    [apply preserves_get_uploads| |apply alike_page_alike].
  intros u.
  eapply preserves_bind;
    [apply preserves_fetch_videos| |apply alike_page_alike].
  intros items.
  eapply preserves_weaken with (R := alike) (R' := alike);
    [|apply alike_page_alike|auto].
  eapply preserves_bind; [apply preserves_generate_schedule| |auto].
  intros dates. apply preserves_for_videos.
Qed.

(** A world and the same world cut down to first pages. *)
Lemma alike_page_cut (w : world) :
  alike_page w (set_platform (first_page_only (platform w)) w).
Proof.
  split; [repeat split|].
  repeat split. intros q.
  cbn [set_platform platform first_page_only playlists].
  now rewrite firstn_firstn, Nat.min_id.
Qed.

End FirstPageFacts.

(** ** Reading tasks *)
Module ReadingFacts.

Import PyStr World WorldFacts YouTubeAPI Observations GatewayFacts.
Local Open Scope py_scope.
Local Arguments firstn : simpl never.

Lemma after_requests_nil (w : world) : after_requests [] w = w.
Proof.
  destruct w. unfold after_requests. simpl.
  now rewrite Nat.add_0_r, app_nil_r.
Qed.

Lemma after_requests_app (tr1 tr2 : list (request * bool)) (w : world) :
  after_requests tr2 (after_requests tr1 w) = after_requests (tr1 ++ tr2) w.
Proof.
  unfold after_requests. simpl.
  now rewrite length_app, Nat.add_assoc, app_assoc.
Qed.

Lemma sent_after (r : request) (ok : bool) (w : world) :
  sent r ok w = after_requests [(r, ok)] w.
Proof. unfold sent, after_requests. simpl. now rewrite Nat.add_1_r. Qed.

Lemma list_for_items_cons (item : playlist_item)
  (rest : list playlist_item)
  (acc : list ListPrivateVideosTask.video_info) (w : world) :
  ListPrivateVideosTask.for_items (item :: rest) acc w =
  if faults w (requests w)
  then (Raise HttpError,
        after_requests [(ReqVideo (item_videoId item), false)] w)
  else
    match videos (platform w) (item_videoId item) with
    | None =>
        (Raise TypeError,
         after_requests [(ReqVideo (item_videoId item), true)] w)
    | Some d =>
        ListPrivateVideosTask.for_items rest
          (if String.eqb (privacyStatus d) "private"
           then acc ++ [ListPrivateVideosTask.mkinfo (title d)
                          (item_videoId item) d]
           else acc)
          (after_requests [(ReqVideo (item_videoId item), true)] w)
    end.
Proof.
  cbn [ListPrivateVideosTask.for_items]. unfold bind.
  rewrite get_full_video_data_eq, !sent_after.
  destruct (faults w (requests w)); [reflexivity|].
  destruct (videos (platform w) (item_videoId item)) as [d|];
    [|reflexivity].
  destruct (String.eqb (privacyStatus d) "private"); reflexivity.
Qed.

Lemma shorts_for_items_cons (item : playlist_item)
  (rest : list playlist_item)
  (acc : list AddPublicShortsExtendedTask.short_info) (w : world) :
  AddPublicShortsExtendedTask.for_items (item :: rest) acc w =
  if faults w (requests w)
  then (Raise HttpError,
        after_requests [(ReqVideo (item_videoId item), false)] w)
  else
    match videos (platform w) (item_videoId item) with
    | None =>
        (Raise TypeError,
         after_requests [(ReqVideo (item_videoId item), true)] w)
    | Some d =>
        match AddPublicShortsExtendedTask.selects d with
        | None =>
            (Raise ValueError,
             after_requests [(ReqVideo (item_videoId item), true)] w)
        | Some b =>
            AddPublicShortsExtendedTask.for_items rest
              (if b
               then acc ++ [AddPublicShortsExtendedTask.mkshort
                              (item_title item) (item_videoId item)]
               else acc)
              (after_requests [(ReqVideo (item_videoId item), true)] w)
        end
    end.
Proof.
  cbn [AddPublicShortsExtendedTask.for_items]. unfold bind.
  rewrite get_full_video_data_eq, !sent_after.
  destruct (faults w (requests w)); [reflexivity|].
  destruct (videos (platform w) (item_videoId item)) as [d|];
    [|reflexivity].
  destruct (AddPublicShortsExtendedTask.selects d) as [[|]|]; reflexivity.
Qed.

(** The selection loop of the list task: either every fetch goes
    through and every item is looked at, or the loop ends at the first
    item whose fetch fails or finds no video, with the exception, and
    the items after it are not asked for. *)
Lemma list_for_items_run (items : list playlist_item) :
  forall (acc : list ListPrivateVideosTask.video_info) (w : world),
  ListPrivateVideosTask.for_items items acc w
  = (Ret (acc ++ private_infos (platform w) items),
     after_requests (map fetch_ok items) w)
  \/
  exists before item after e ok,
    items = before ++ item :: after /\
    ListPrivateVideosTask.for_items items acc w
    = (Raise e,
       after_requests
         (map fetch_ok before ++ [(ReqVideo (item_videoId item), ok)]) w) /\
    ((ok = false /\ e = HttpError) \/
     (ok = true /\ e = TypeError /\
      videos (platform w) (item_videoId item) = None)).
Proof.
  induction items as [|item rest IH]; intros acc w.
  - left. simpl. now rewrite app_nil_r, after_requests_nil.
  - rewrite !list_for_items_cons.
    destruct (faults w (requests w)) eqn:Ef.
    { right. exists [], item, rest, HttpError, false. auto. }
    destruct (videos (platform w) (item_videoId item)) as [d|] eqn:Ev.
    2:{ right. exists [], item, rest, TypeError, true. auto 6. }
    set (w1 := after_requests [(ReqVideo (item_videoId item), true)] w).
    set (acc' := if String.eqb (privacyStatus d) "private" then _ else acc).
    assert (Hacc : acc ++ private_infos (platform w) (item :: rest)
                   = acc' ++ private_infos (platform w1) rest).
    { unfold private_infos, acc'. cbn [flat_map]. rewrite Ev.
      destruct (String.eqb (privacyStatus d) "private"); [now rewrite <- app_assoc|reflexivity]. }
    destruct (IH acc' w1)
      as [Hok|(before & item0 & after & e & ok & Hit & Hrun & Hwhy)].
    + left. rewrite Hok, <- Hacc. unfold w1.
      now rewrite after_requests_app.
    + right. exists (item :: before), item0, after, e, ok.
      split; [now rewrite Hit|]. split; [|exact Hwhy].
      rewrite Hrun. unfold w1. now rewrite after_requests_app.
Qed.

(** The selection loop of the public-shorts task, likewise; it ends
    also at an item whose duration check raises. *)
Lemma shorts_for_items_run (items : list playlist_item) :
  forall (acc : list AddPublicShortsExtendedTask.short_info) (w : world),
  AddPublicShortsExtendedTask.for_items items acc w
  = (Ret (acc ++ public_shorts (platform w) items),
     after_requests (map fetch_ok items) w)
  \/
  exists before item after e ok,
    items = before ++ item :: after /\
    AddPublicShortsExtendedTask.for_items items acc w
    = (Raise e,
       after_requests
         (map fetch_ok before ++ [(ReqVideo (item_videoId item), ok)]) w) /\
    ((ok = false /\ e = HttpError) \/
     (ok = true /\ e = TypeError /\
      videos (platform w) (item_videoId item) = None) \/
     (ok = true /\ e = ValueError /\
      exists d, videos (platform w) (item_videoId item) = Some d /\
                AddPublicShortsExtendedTask.selects d = None)).
Proof.
  induction items as [|item rest IH]; intros acc w.
  - left. simpl. now rewrite app_nil_r, after_requests_nil.
  - rewrite !shorts_for_items_cons.
    destruct (faults w (requests w)) eqn:Ef.
    { right. exists [], item, rest, HttpError, false. auto. }
    destruct (videos (platform w) (item_videoId item)) as [d|] eqn:Ev.
    2:{ right. exists [], item, rest, TypeError, true.
        split; [reflexivity|]. split; [reflexivity|]. right. left. auto. }
    destruct (AddPublicShortsExtendedTask.selects d) as [b|] eqn:Es.
    2:{ right. exists [], item, rest, ValueError, true.
        split; [reflexivity|]. split; [reflexivity|]. right. right.
        split; [reflexivity|]. split; [reflexivity|]. now exists d. }
    set (w1 := after_requests [(ReqVideo (item_videoId item), true)] w).
    set (acc' := if b then _ else acc).
    assert (Hacc : acc ++ public_shorts (platform w) (item :: rest)
                   = acc' ++ public_shorts (platform w1) rest).
    { unfold public_shorts, acc'. cbn [flat_map]. rewrite Ev, Es.
      destruct b; [now rewrite <- app_assoc|reflexivity]. }
    destruct (IH acc' w1)
      as [Hok|(before & item0 & after & e & ok & Hit & Hrun & Hwhy)].
    + left. rewrite Hok, <- Hacc. unfold w1.
      now rewrite after_requests_app.
    + right. exists (item :: before), item0, after, e, ok.
      split; [now rewrite Hit|]. split; [|exact Hwhy].
      rewrite Hrun. unfold w1. now rewrite after_requests_app.
Qed.

Lemma fetch_ok_all (items : list playlist_item) :
  Forall (fun e : request * bool => snd e = true) (map fetch_ok items).
Proof. induction items; simpl; constructor; auto. Qed.

Lemma fetch_ok_reads (items : list playlist_item) :
  Forall (fun e : request * bool => is_write (fst e) = false)
    (map fetch_ok items).
Proof. induction items; simpl; constructor; auto. Qed.

(** The list task as a whole: it only reads, it is given up at the first
    request that fails, and what it returns is the sorted list of the
    private videos among the first page of the uploads. *)
Lemma list_private_run (w : world) :
  exists tr,
    snd (ListPrivateVideosTask.execute w) = after_requests tr w /\
    Forall (fun e => is_write (fst e) = false) tr /\
    ends_at_failure (fst (ListPrivateVideosTask.execute w)) tr /\
    (forall l, fst (ListPrivateVideosTask.execute w) = Ret l ->
       exists u, uploads_playlist (platform w) = Some u /\
         l = PySort.sort ListPrivateVideosTask.info_title false
               (private_infos (platform w)
                  (firstn 100 (playlists (platform w) u)))).
Proof.
  remember (ListPrivateVideosTask.execute w) as r eqn:Hr.
  unfold ListPrivateVideosTask.execute, bind at 1 in Hr.
  rewrite get_uploads_playlist_id_eq, !sent_after in Hr.
  destruct (faults w (requests w)) eqn:E0.
  { subst r. exists [(ReqChannels, false)]. cbn [fst snd].
    split; [reflexivity|]. split; [now repeat constructor|].
    split; [|discriminate].
    exists [], ReqChannels. now split. }
  destruct (uploads_playlist (platform w)) as [u|] eqn:Eu.
  2:{ subst r. exists [(ReqChannels, true)]. cbn [fst snd].
      split; [reflexivity|]. split; [now repeat constructor|].
      split; [now repeat constructor|discriminate]. }
  set (w1 := after_requests [(ReqChannels, true)] w) in Hr.
  unfold bind at 1 in Hr. unfold fetch_videos in Hr.
  rewrite playlistItems_list_eq, !sent_after in Hr.
  destruct (faults w1 (requests w1)) eqn:E1.
  { subst r. exists [(ReqChannels, true); (ReqListItems u 100, false)].
    unfold w1. rewrite after_requests_app. cbn [fst snd app].
    split; [reflexivity|]. split; [now repeat constructor|].
    split; [|discriminate].
    exists [(ReqChannels, true)], (ReqListItems u 100).
    split; [reflexivity|now repeat constructor]. }
  set (items := firstn 100 (playlists (platform w1) u)) in Hr.
  set (w2 := after_requests [(ReqListItems u 100, true)] w1) in Hr.
  assert (Hw2 : forall tr,
             after_requests tr w2
             = after_requests
                 ([(ReqChannels, true); (ReqListItems u 100, true)] ++ tr) w).
  { intros tr. unfold w2, w1. now rewrite !after_requests_app. }
  unfold bind in Hr.
  destruct (list_for_items_run items [] w2)
    as [Hok|(before & item & after & e & ok & Hit & Hrun & Hwhy)].
  - rewrite Hok, Hw2 in Hr. subst r. cbn [fst snd ret].
    eexists. split; [reflexivity|]. split; [|split].
    + repeat constructor. apply fetch_ok_reads.
    + repeat constructor. apply fetch_ok_all.
    + intros l Hl. exists u. split; [reflexivity|].
      inversion Hl. reflexivity.
  - rewrite Hrun, Hw2 in Hr. subst r. cbn [fst snd].
    eexists. split; [reflexivity|]. split; [|split].
    + repeat constructor. apply Forall_app. split;
        [apply fetch_ok_reads|now repeat constructor].
    + destruct Hwhy as [[-> ->]|(-> & -> & _)]; cbn [ends_at_failure].
      * exists ([(ReqChannels, true); (ReqListItems u 100, true)]
                ++ map fetch_ok before), (ReqVideo (item_videoId item)).
        split; [now rewrite <- app_assoc|].
        repeat constructor. apply fetch_ok_all.
      * repeat constructor. apply Forall_app. split;
          [apply fetch_ok_all|now repeat constructor].
    + discriminate.
Qed.

End ReadingFacts.

(** ** Writing loops *)
Module WritingFacts.

Import PyStr World WorldFacts YouTubeAPI Observations GatewayFacts.
Import ReadingFacts.
Local Open Scope py_scope.
Local Arguments firstn : simpl never.

Lemma members_insert (p : remote) (v target : string) (w : world) :
  members (set_platform (apply_insert p v target) w) target
  = map item_videoId (playlists p target) ++ [v].
Proof.
  unfold members. cbn [set_platform platform apply_insert playlists].
  rewrite String.eqb_refl, map_app. reflexivity.
Qed.

Lemma picked_nil (ya cands : list string) : picked ya cands [].
Proof.
  repeat split; [intros x []|constructor|constructor].
Qed.

Lemma picked_skip (ya cands ins : list string) (v : string) :
  picked ya cands ins -> picked ya (v :: cands) ins.
Proof.
  intros (Hi & Hn & Hf). repeat split; auto.
  - intros x Hx. right. auto.
  - intros Hnd. apply Hn. now inversion Hnd.
Qed.

Lemma picked_take (ya cands ins : list string) (v : string) :
  is_in v ya = false -> picked ya cands ins ->
  picked ya (v :: cands) (v :: ins).
Proof.
  intros Hv (Hi & Hn & Hf). repeat split.
  - intros x [->|Hx]; [now left|right; auto].
  - intros Hnd. inversion Hnd as [|a l Hnin Hnd']; subst.
    constructor; auto.
  - now constructor.
Qed.

(** The insertion loop of the public-shorts task always comes to its
    end; it appends to the playlist candidates that were not listed, and
    asks for no other insertion. *)
Lemma for_selected_run (target : string) (ya : list string)
  (selected : list AddPublicShortsExtendedTask.short_info) :
  forall (count : nat) (w : world),
  exists (c : nat) (w' : world) (ins : list string)
         (tr : list (request * bool)),
    AddPublicShortsExtendedTask.for_selected target ya selected count w
    = (Ret c, w') /\
    members w' target = members w target ++ ins /\
    picked ya (map AddPublicShortsExtendedTask.short_id selected) ins /\
    trace w' = trace w ++ tr /\
    Forall (insert_unlisted target ya) tr.
Proof.
  induction selected as [|vid rest IH]; intros count w.
  - exists count, w, [], []. cbn. rewrite !app_nil_r.
    split; [reflexivity|]. split; [reflexivity|].
    split; [apply picked_nil|]. split; [reflexivity|constructor].
  - cbn [AddPublicShortsExtendedTask.for_selected map].
    destruct (is_in (AddPublicShortsExtendedTask.short_id vid) ya) eqn:Ein;
      cbn [negb].
    + destruct (IH count w) as (c & w' & ins & tr & Hrun & Hm & Hp & Ht & Hf).
      exists c, w', ins, tr.
      split; [exact Hrun|]. split; [exact Hm|].
      split; [now apply picked_skip|]. now split.
    + unfold bind, try_ok. rewrite add_to_playlist_eq.
      destruct (faults w (requests w)).
      * destruct (IH count
                    (sent (ReqInsert (AddPublicShortsExtendedTask.short_id vid)
                             target) false w))
          as (c & w' & ins & tr & Hrun & Hm & Hp & Ht & Hf).
        exists c, w', ins,
          ((ReqInsert (AddPublicShortsExtendedTask.short_id vid) target,
            false) :: tr).
        split; [exact Hrun|]. split; [exact Hm|].
        split; [now apply picked_skip|]. split.
        -- rewrite Ht. cbn [sent trace]. now rewrite <- app_assoc.
        -- constructor; [|exact Hf].
           intros v pid E. inversion E; subst. auto.
      * destruct (IH (S count)
                    (set_platform
                       (apply_insert (platform w)
                          (AddPublicShortsExtendedTask.short_id vid) target)
                       (sent (ReqInsert
                                (AddPublicShortsExtendedTask.short_id vid)
                                target) true w)))
          as (c & w' & ins & tr & Hrun & Hm & Hp & Ht & Hf).
        exists c, w', (AddPublicShortsExtendedTask.short_id vid :: ins),
          ((ReqInsert (AddPublicShortsExtendedTask.short_id vid) target,
            true) :: tr).
        split; [exact Hrun|]. split; [|split; [|split]].
        -- rewrite Hm, members_insert. unfold members.
           now rewrite <- app_assoc.
        -- now apply picked_take.
        -- rewrite Ht. cbn [sent trace set_platform].
           now rewrite <- app_assoc.
        -- constructor; [|exact Hf].
           intros v pid E. inversion E; subst. auto.
Qed.

(** The loop of the full task, likewise: an update that fails, or an
    insertion that fails, is passed over. *)
Lemma for_videos_run (target : string) (description : pystr)
  (ya : list string) (ref_map : FullAutomationTask.dict)
  (pairs : list (ListPrivateVideosTask.video_info * datetime)) :
  forall (w : world),
  exists (w' : world) (ins : list string) (tr : list (request * bool)),
    FullAutomationTask.for_videos target description ya ref_map pairs w
    = (Ret tt, w') /\
    members w' target = members w target ++ ins /\
    picked ya
      (map (fun p => ListPrivateVideosTask.info_id (fst p)) pairs) ins /\
    trace w' = trace w ++ tr /\
    Forall (insert_unlisted target ya) tr.
Proof.
  induction pairs as [|[vid_info publish_date] rest IH]; intros w.
  - exists w, [], []. cbn. rewrite !app_nil_r.
    split; [reflexivity|]. split; [reflexivity|].
    split; [apply picked_nil|]. split; [reflexivity|constructor].
  - cbn [FullAutomationTask.for_videos map fst].
    set (v := ListPrivateVideosTask.info_id vid_info).
    set (body := FullAutomationTask.make_body description ref_map vid_info
                   publish_date).
    unfold bind at 1. unfold try_except, bind at 1.
    rewrite update_video_content_eq.
    destruct (faults w (requests w)).
    { destruct (IH (sent (ReqUpdate body) false w))
        as (w' & ins & tr & Hrun & Hm & Hp & Ht & Hf).
      exists w', ins, ((ReqUpdate body, false) :: tr).
      split; [exact Hrun|]. split; [exact Hm|].
      split; [now apply picked_skip|]. split.
      - rewrite Ht. cbn [sent trace]. now rewrite <- app_assoc.
      - constructor; [|exact Hf]. intros x pid E. discriminate E. }
    set (w1 := set_platform (apply_update (platform w) body)
                 (sent (ReqUpdate body) true w)).
    assert (Hm1 : members w1 target = members w target) by reflexivity.
    assert (Ht1 : trace w1 = trace w ++ [(ReqUpdate body, true)])
      by reflexivity.
    assert (Hu : insert_unlisted target ya (ReqUpdate body, true))
      by (intros x pid E; discriminate E).
    destruct (is_in v ya) eqn:Ein; cbn [negb].
    { unfold ret at 1.
      destruct (IH w1) as (w' & ins & tr & Hrun & Hm & Hp & Ht & Hf).
      exists w', ins, ((ReqUpdate body, true) :: tr).
      split; [exact Hrun|]. split; [now rewrite Hm, Hm1|].
      split; [now apply picked_skip|]. split.
      - rewrite Ht, Ht1. now rewrite <- app_assoc.
      - now constructor. }
    rewrite add_to_playlist_eq.
    destruct (faults w1 (requests w1)).
    + destruct (IH (sent (ReqInsert v target) false w1))
        as (w' & ins & tr & Hrun & Hm & Hp & Ht & Hf).
      exists w', ins,
        ((ReqUpdate body, true) :: (ReqInsert v target, false) :: tr).
      split; [exact Hrun|]. split; [now rewrite Hm|].
      split; [now apply picked_skip|]. split.
      * rewrite Ht. cbn [sent trace]. rewrite Ht1.
        now rewrite <- !app_assoc.
      * constructor; [exact Hu|]. constructor; [|exact Hf].
        intros x pid E. inversion E; subst. auto.
    + destruct (IH (set_platform (apply_insert (platform w1) v target)
                      (sent (ReqInsert v target) true w1)))
        as (w' & ins & tr & Hrun & Hm & Hp & Ht & Hf).
      exists w', (v :: ins),
        ((ReqUpdate body, true) :: (ReqInsert v target, true) :: tr).
      split; [exact Hrun|]. split; [|split; [|split]].
      * rewrite Hm, members_insert.
        change (map item_videoId (playlists (platform w1) target))
          with (members w1 target).
        now rewrite Hm1, <- app_assoc.
      * now apply picked_take.
      * rewrite Ht. cbn [sent trace set_platform]. rewrite Ht1.
        now rewrite <- !app_assoc.
      * constructor; [exact Hu|]. constructor; [|exact Hf].
        intros x pid E. inversion E; subst. auto.
Qed.

(** The deletion loop always comes to its end. *)
Lemma clear_for_items_run (items : list playlist_item) :
  forall w, exists w', ClearPlaylistTask.for_items items w = (Ret tt, w').
Proof.
  induction items as [|item rest IH]; intros w; [now exists w|].
  cbn [ClearPlaylistTask.for_items]. unfold bind, try_except.
  rewrite playlistItems_delete_eq.
  destruct (faults w (requests w)); apply IH.
Qed.

End WritingFacts.

(** ** No video twice in the playlist *)
Module DedupFacts.

Import PyStr World WorldFacts YouTubeAPI Observations GatewayFacts.
Import ReadingFacts WritingFacts.
Local Open Scope py_scope.
Local Arguments firstn : simpl never.

Lemma sent_since_app (w w' : world) (tr : list (request * bool)) :
  trace w' = trace w ++ tr -> sent_since w w' = tr.
Proof.
  intros H. unfold sent_since. rewrite H.
  rewrite skipn_app, skipn_all, Nat.sub_diag. reflexivity.
Qed.

Lemma is_in_false (v : string) (l : list string) :
  is_in v l = false -> ~ In v l.
Proof.
  unfold is_in. intros H Hin.
  assert (existsb (String.eqb v) l = true).
  { apply existsb_exists. exists v. split; [exact Hin|apply String.eqb_refl]. }
  congruence.
Qed.

Lemma reads_unlisted (target : string) (ya : list string)
  (tr : list (request * bool)) :
  Forall (fun e => is_write (fst e) = false) tr ->
  Forall (insert_unlisted target ya) tr.
Proof.
  intros H. eapply Forall_impl; [|exact H].
  intros [r ok] Hr v pid E. simpl in *. subst r. discriminate.
Qed.

(** A run that only reads. *)
Lemma dedup_reads (target : string) (w w' : world)
  (tr : list (request * bool)) :
  platform w' = platform w -> trace w' = trace w ++ tr ->
  Forall (fun e => is_write (fst e) = false) tr ->
  deduplicated target w w'.
Proof.
  intros Hp Ht Hr. split.
  - rewrite (sent_since_app w w' tr Ht). now apply reads_unlisted.
  - intros Hnd _ _. unfold members. now rewrite Hp.
Qed.

(** A run that reads, and then inserts candidates that were not listed. *)
Lemma dedup_writes (target : string) (w w1 w' : world)
  (tr1 tr2 : list (request * bool)) (cands ins : list string) :
  platform w1 = platform w -> trace w1 = trace w ++ tr1 ->
  Forall (fun e => is_write (fst e) = false) tr1 ->
  members w' target = members w1 target ++ ins ->
  picked (listed w target) cands ins ->
  trace w' = trace w1 ++ tr2 ->
  Forall (insert_unlisted target (listed w target)) tr2 ->
  (NoDup (uploaded w) -> NoDup cands) ->
  deduplicated target w w'.
Proof.
  intros Hp Ht1 Hr1 Hm (Hincl & Hnd & Hout) Ht2 Hr2 Hc. split.
  - rewrite (sent_since_app w w' (tr1 ++ tr2)).
    + apply Forall_app. split; [now apply reads_unlisted|exact Hr2].
    + now rewrite Ht2, Ht1, app_assoc.
  - intros Hmem Hlen Hup. rewrite Hm.
    assert (Hm1 : members w1 target = members w target)
      by (unfold members; now rewrite Hp).
    rewrite Hm1.
    assert (Hl : listed w target = members w target).
    { unfold listed, members. now rewrite firstn_all2. }
    rewrite Hl in Hout.
    apply NoDup_app; auto.
    intros a Ha Hins. rewrite Forall_forall in Hout.
    apply (is_in_false a (members w target)); auto.
Qed.

Lemma shorts_ids (p : remote) (items : list playlist_item) :
  NoDup (map item_videoId items) ->
  NoDup (map AddPublicShortsExtendedTask.short_id (public_shorts p items)) /\
  incl (map AddPublicShortsExtendedTask.short_id (public_shorts p items))
       (map item_videoId items).
Proof.
  induction items as [|item rest IH]; intros Hnd.
  - split; [constructor|intros x []].
  - cbn [map] in Hnd. apply NoDup_cons_iff in Hnd.
    destruct Hnd as [Hnin Hnd]. destruct (IH Hnd) as [IHn IHi].
    unfold public_shorts in *. cbn [flat_map map].
    destruct (videos p (item_videoId item)) as [d|];
      [destruct (AddPublicShortsExtendedTask.selects d) as [[|]|]|];
      cbn [app map];
      try (split; [exact IHn|]; intros x Hx; right; now apply IHi).
    split.
    + constructor; [|exact IHn]. intros Hin. apply Hnin. now apply IHi.
    + intros x [E|Hx]; [left; exact E|right; now apply IHi].
Qed.

Lemma infos_ids (p : remote) (items : list playlist_item) :
  NoDup (map item_videoId items) ->
  NoDup (map ListPrivateVideosTask.info_id (private_infos p items)) /\
  incl (map ListPrivateVideosTask.info_id (private_infos p items))
       (map item_videoId items).
Proof.
  induction items as [|item rest IH]; intros Hnd.
  - split; [constructor|intros x []].
  - cbn [map] in Hnd. apply NoDup_cons_iff in Hnd.
    destruct Hnd as [Hnin Hnd]. destruct (IH Hnd) as [IHn IHi].
    unfold private_infos in *. cbn [flat_map map].
    destruct (videos p (item_videoId item)) as [d|];
      [destruct (String.eqb (privacyStatus d) "private")|]; cbn [app map].
    + split.
      * constructor; [|exact IHn]. intros Hin. apply Hnin. now apply IHi.
      * intros x [E|Hx]; [left; exact E|right; now apply IHi].
    + split; [exact IHn|]. intros x Hx. right. now apply IHi.
    + split; [exact IHn|]. intros x Hx. right. now apply IHi.
Qed.

Lemma sorted_ids {A} (key : A -> pystr) (id : A -> string) (reverse : bool)
  (l : list A) :
  NoDup (map id l) -> NoDup (map id (PySort.sort key reverse l)).
Proof.
  apply Permutation_NoDup, Permutation_map, PySortFacts.sort_perm.
Qed.

Lemma combined_ids {A B} (id : A -> string) (l : list A) (d : list B) :
  NoDup (map id l) -> NoDup (map (fun p => id (fst p)) (combine l d)).
Proof.
  revert d. induction l as [|x l IH]; intros d Hnd; [constructor|].
  destruct d as [|y d]; [constructor|]. cbn [combine map fst].
  cbn [map] in Hnd. apply NoDup_cons_iff in Hnd. destruct Hnd as [Hnin Hnd].
  constructor; [|now apply IH].
  intros Hin. apply Hnin. apply in_map_iff in Hin.
  destruct Hin as ([a b] & E & Hin). apply in_combine_l in Hin.
  simpl in E. rewrite <- E. now apply in_map.
Qed.

Ltac reads_tac :=
  repeat (apply Forall_app; split);
  repeat first [assumption | apply fetch_ok_reads | constructor].

Ltac dedup_by_reads :=
  cbn [snd]; rewrite ?after_requests_app;
  eapply dedup_reads; [reflexivity|reflexivity|reads_tac].

(** The public-shorts task. *)
Lemma shorts_deduplicated (target : string) (w : world) :
  deduplicated target w
    (snd (AddPublicShortsExtendedTask.execute target w)).
Proof.
  remember (AddPublicShortsExtendedTask.execute target w) as r eqn:Hr.
  unfold AddPublicShortsExtendedTask.execute, bind at 1 in Hr.
  rewrite fetch_playlist_items_eq, !sent_after in Hr.
  destruct (faults w (requests w)); [subst r; dedup_by_reads|].
  set (w1 := after_requests [(ReqListItems target 100, true)] w) in Hr.
  unfold bind at 1 in Hr.
  rewrite get_uploads_playlist_id_eq, !sent_after in Hr.
  destruct (faults w1 (requests w1));
    [subst r; unfold w1; dedup_by_reads|].
  change (platform w1) with (platform w) in Hr.
  destruct (uploads_playlist (platform w)) as [u|] eqn:Eu;
    [|subst r; unfold w1; dedup_by_reads].
  set (w2 := after_requests [(ReqChannels, true)] w1) in Hr.
  unfold bind at 1 in Hr. unfold fetch_videos in Hr.
  rewrite playlistItems_list_eq, !sent_after in Hr.
  destruct (faults w2 (requests w2));
    [subst r; unfold w2, w1; dedup_by_reads|].
  change (platform w2) with (platform w) in Hr.
  set (items := firstn 100 (playlists (platform w) u)) in Hr.
  set (w3 := after_requests [(ReqListItems u 100, true)] w2) in Hr.
  unfold bind at 1 in Hr.
  destruct (shorts_for_items_run items [] w3)
    as [Hok|(before & item & after & e & ok & Hit & Hrun & Hwhy)].
  2:{ rewrite Hrun in Hr. subst r. unfold w3, w2, w1. dedup_by_reads. }
  rewrite Hok in Hr. cbn [app] in Hr.
  change (platform w3) with (platform w) in Hr.
  set (w4 := after_requests (map fetch_ok items) w3) in Hr.
  set (sorted := PySort.sort _ true _) in Hr.
  destruct (for_selected_run target (listed w target) sorted 0 w4)
    as (c & w' & ins & tr & Hsel & Hm & Hp & Ht & Hf).
  rewrite Hsel in Hr. subst r. cbn [snd].
  eapply dedup_writes with (w1 := w4);
    [reflexivity| | |exact Hm|exact Hp|exact Ht|exact Hf|].
  - unfold w4, w3, w2, w1. rewrite !after_requests_app. reflexivity.
  - reads_tac.
  - intros Hup. unfold uploaded in Hup. rewrite Eu in Hup.
    unfold sorted. apply sorted_ids. now apply shorts_ids.
Qed.

(** The calendar touches the clock only. *)
Lemma for_slots_frame (sl : list CalendarStrategy.slot)
  (current : datetime) (q : Z) :
  forall dates w, exists n,
    snd (CalendarStrategy.for_slots sl current q dates w) = advance n w.
Proof.
  induction sl as [|[[d hr] mnt] rest IH]; intros dates w;
    cbn [CalendarStrategy.for_slots].
  - exists 0%nat. now rewrite CalendarFacts.advance_0.
  - destruct (Z.eqb (weekday current) d); [|apply IH].
    unfold bind at 1. unfold CalendarStrategy.replace_hmsu.
    destruct (_ && _)%bool; cbn [ret raise snd].
    2:{ exists 0%nat. now rewrite CalendarFacts.advance_0. }
    unfold bind at 1. rewrite CalendarFacts.now_advance.
    destruct (_ && _)%bool.
    + destruct (IH (dates ++ [mkdt (ordinal current) hr mnt 0 0])
                  (advance 1 w)) as (n & Hn).
      exists (1 + n)%nat. now rewrite Hn, CalendarFacts.advance_advance.
    + destruct (IH dates (advance 1 w)) as (n & Hn).
      exists (1 + n)%nat. now rewrite Hn, CalendarFacts.advance_advance.
Qed.

Lemma while_loop_frame (sl : list CalendarStrategy.slot) (q : Z)
  (fuel : nat) :
  forall current dates w, exists n,
    snd (CalendarStrategy.while_loop sl q fuel current dates w)
    = advance n w.
Proof.
  induction fuel as [|fuel IH]; intros current dates w;
    cbn [CalendarStrategy.while_loop];
    destruct (Z.ltb _ q);
    try (exists 0%nat; now rewrite CalendarFacts.advance_0).
  unfold bind at 1.
  destruct (for_slots_frame sl current q dates w) as (n1 & Hn1).
  destruct (CalendarStrategy.for_slots sl current q dates w)
    as [[dates'|e|] w1]; cbn [snd] in Hn1; subst w1;
    try (now exists n1).
  unfold bind at 1. unfold add_days.
  destruct (_ && _)%bool; [|now exists n1].
  unfold ret at 1.
  unfold bind at 1. unfold CalendarStrategy.replace_hm.
  change (CalendarStrategy.valid_hm 0 0) with true. cbv iota.
  unfold ret at 1.
  destruct (IH (mkdt (ordinal current + 1) 0 0 (second current)
                  (microsecond current))
              dates' (advance n1 w)) as (n2 & Hn2).
  exists (n1 + n2)%nat. cbn [ordinal second microsecond].
  now rewrite Hn2, CalendarFacts.advance_advance.
Qed.

Lemma generate_schedule_frame (q : Z) (fuel : nat) (w : world) :
  exists n, snd (CalendarStrategy.generate_schedule q fuel w) = advance n w.
Proof.
  unfold CalendarStrategy.generate_schedule,
    CalendarStrategy.generate_schedule_from, bind.
  rewrite CalendarFacts.now_advance.
  destruct (while_loop_frame CalendarStrategy.slots q fuel
              (clock w (clock_reads w)) [] (advance 1 w)) as (n & Hn).
  exists (1 + n)%nat. now rewrite Hn, CalendarFacts.advance_advance.
Qed.

(** The full task. *)
Lemma full_deduplicated (target : string) (description : pystr)
  (fuel : nat) (w : world) :
  deduplicated target w
    (snd (FullAutomationTask.execute target description fuel w)).
Proof.
  remember (FullAutomationTask.execute target description fuel w)
    as r eqn:Hr.
  unfold FullAutomationTask.execute, bind at 1 in Hr.
  destruct (list_private_run w) as (tr0 & Hw0 & Hr0 & _ & Hval).
  destruct (ListPrivateVideosTask.execute w) as [[l|e|] w0];
    cbn [fst snd] in Hw0, Hval; subst w0;
    try (subst r; dedup_by_reads).
  destruct (Hval l eq_refl) as (u & Eu & Hl). clear Hval.
  destruct l as [|x l'] eqn:El; [subst r; dedup_by_reads|].
  rewrite <- El in Hr. set (w0 := after_requests tr0 w) in Hr.
  unfold bind at 1 in Hr.
  rewrite fetch_playlist_items_eq, !sent_after in Hr.
  destruct (faults w0 (requests w0));
    [subst r; unfold w0; dedup_by_reads|].
  change (listed w0 target) with (listed w target) in Hr.
  set (w1 := after_requests [(ReqListItems target 100, true)] w0) in Hr.
  unfold bind at 1 in Hr.
  rewrite get_uploads_playlist_id_eq, !sent_after in Hr.
  destruct (faults w1 (requests w1));
    [subst r; unfold w1, w0; dedup_by_reads|].
  change (platform w1) with (platform w) in Hr. rewrite Eu in Hr.
  set (w2 := after_requests [(ReqChannels, true)] w1) in Hr.
  unfold bind at 1 in Hr. unfold fetch_videos in Hr.
  rewrite playlistItems_list_eq, !sent_after in Hr.
  destruct (faults w2 (requests w2));
    [subst r; unfold w2, w1, w0; dedup_by_reads|].
  set (w3 := after_requests [(ReqListItems u 100, true)] w2) in Hr.
  set (ref_map := FullAutomationTask.build_ref_map _) in Hr.
  unfold bind at 1 in Hr.
  destruct (generate_schedule_frame (Z.of_nat (List.length l)) fuel w3)
    as (n & Hn).
  assert (Hw3 : trace w3 = trace w ++ (tr0 ++
                  [(ReqListItems target 100, true); (ReqChannels, true);
                   (ReqListItems u 100, true)])).
  { unfold w3, w2, w1, w0. rewrite !after_requests_app. reflexivity. }
  assert (Hreads : Forall (fun e => is_write (fst e) = false)
                     (tr0 ++ [(ReqListItems target 100, true);
                              (ReqChannels, true);
                              (ReqListItems u 100, true)])).
  { apply Forall_app. split; [exact Hr0|now repeat constructor]. }
  destruct (CalendarStrategy.generate_schedule
              (Z.of_nat (List.length l)) fuel w3) as [[dates|e|] w4];
    cbn [snd] in Hn; subst w4;
    try (subst r; cbn [snd];
         eapply dedup_reads; [reflexivity|exact Hw3|exact Hreads]).
  destruct (for_videos_run target description (listed w target) ref_map
              (combine l dates) (advance n w3))
    as (w' & ins & tr & Hrun & Hm & Hp & Ht & Hf).
  rewrite Hrun in Hr. subst r. cbn [snd].
  eapply dedup_writes with (w1 := advance n w3);
    [reflexivity|exact Hw3|exact Hreads|exact Hm|exact Hp|exact Ht
    |exact Hf|].
  intros Hup. unfold uploaded in Hup. rewrite Eu in Hup.
  apply combined_ids with (id := ListPrivateVideosTask.info_id).
  rewrite El, Hl. apply sorted_ids. now apply infos_ids.
Qed.

End DedupFacts.

(** ** The loops, turn by turn *)
Module TurnFacts.

Import PyStr World WorldFacts YouTubeAPI Observations Expectations.
Import GatewayFacts ReadingFacts WritingFacts DedupFacts.
Local Open Scope py_scope.
Local Arguments firstn : simpl never.

(** The loop of the full task: one turn for each pair, in order; the
    platform's playlists change by insertion only. *)
Lemma for_videos_turns (target : string) (description : pystr)
  (ya : list string) (ref_map : FullAutomationTask.dict)
  (pairs : list (ListPrivateVideosTask.video_info * datetime)) :
  forall (w : world),
  exists (w' : world) (segs : list (list (request * bool))),
    FullAutomationTask.for_videos target description ya ref_map pairs w
    = (Ret tt, w') /\
    trace w' = trace w ++ List.concat segs /\
    Forall2 (full_turn target description ya ref_map) pairs segs.
Proof.
  induction pairs as [|[vid_info publish_date] rest IH]; intros w.
  - exists w, []. cbn. rewrite app_nil_r. repeat split. constructor.
  - cbn [FullAutomationTask.for_videos].
    set (v := ListPrivateVideosTask.info_id vid_info).
    set (body := FullAutomationTask.make_body description ref_map vid_info
                   publish_date).
    unfold bind at 1. unfold try_except, bind at 1.
    rewrite update_video_content_eq.
    destruct (faults w (requests w)).
    { destruct (IH (sent (ReqUpdate body) false w))
        as (w' & segs & Hrun & Ht & Hf).
      exists w', ([(ReqUpdate body, false)] :: segs).
      split; [exact Hrun|]. split.
      - rewrite Ht. cbn [sent trace List.concat]. now rewrite <- !app_assoc.
      - constructor; [|exact Hf]. now left. }
    set (w1 := set_platform (apply_update (platform w) body)
                 (sent (ReqUpdate body) true w)).
    assert (Ht1 : trace w1 = trace w ++ [(ReqUpdate body, true)])
      by reflexivity.
    destruct (is_in v ya) eqn:Ein; cbn [negb].
    { unfold ret at 1.
      destruct (IH w1) as (w' & segs & Hrun & Ht & Hf).
      exists w', ([(ReqUpdate body, true)] :: segs).
      split; [exact Hrun|]. split.
      - rewrite Ht, Ht1. cbn [List.concat]. now rewrite <- !app_assoc.
      - constructor; [|exact Hf]. right. left. now split. }
    rewrite add_to_playlist_eq.
    destruct (faults w1 (requests w1)).
    + destruct (IH (sent (ReqInsert v target) false w1))
        as (w' & segs & Hrun & Ht & Hf).
      exists w', ([(ReqUpdate body, true); (ReqInsert v target, false)]
                  :: segs).
      split; [exact Hrun|]. split.
      * rewrite Ht. cbn [sent trace List.concat]. rewrite Ht1.
        now rewrite <- !app_assoc.
      * constructor; [|exact Hf]. right. right. exists false. now split.
    + destruct (IH (set_platform (apply_insert (platform w1) v target)
                      (sent (ReqInsert v target) true w1)))
        as (w' & segs & Hrun & Ht & Hf).
      exists w', ([(ReqUpdate body, true); (ReqInsert v target, true)]
                  :: segs).
      split; [exact Hrun|]. split.
      * rewrite Ht. cbn [sent trace set_platform List.concat]. rewrite Ht1.
        now rewrite <- !app_assoc.
      * constructor; [|exact Hf]. right. right. exists true. now split.
Qed.

Lemma length_insert (p : remote) (v target : string) :
  List.length (playlists (apply_insert p v target) target)
  = S (List.length (playlists p target)).
Proof.
  cbn [apply_insert playlists]. rewrite String.eqb_refl, length_app.
  cbn [List.length]. lia.
Qed.

(** The insertion loop of the public-shorts task: one turn for each
    selected video, in order; what it returns counts the insertions that
    went through, and the playlist grows by as many records. *)
Lemma for_selected_turns (target : string) (ya : list string)
  (selected : list AddPublicShortsExtendedTask.short_info) :
  forall (count : nat) (w : world),
  exists (c : nat) (w' : world) (segs : list (list (request * bool))),
    AddPublicShortsExtendedTask.for_selected target ya selected count w
    = (Ret c, w') /\
    trace w' = trace w ++ List.concat segs /\
    Forall2 (shorts_turn target ya) selected segs /\
    c = (count + List.length (filter inserted_ok (List.concat segs)))%nat /\
    List.length (playlists (platform w') target)
    = (List.length (playlists (platform w) target)
       + List.length (filter inserted_ok (List.concat segs)))%nat.
Proof.
  induction selected as [|vid rest IH]; intros count w.
  - exists count, w, []. cbn. rewrite app_nil_r.
    repeat split; try lia. constructor.
  - cbn [AddPublicShortsExtendedTask.for_selected].
    set (v := AddPublicShortsExtendedTask.short_id vid).
    destruct (is_in v ya) eqn:Ein; cbn [negb].
    + destruct (IH count w) as (c & w' & segs & Hrun & Ht & Hf & Hc & Hl).
      exists c, w', ([] :: segs). split; [exact Hrun|].
      split; [exact Ht|]. split; [|now split].
      constructor; [|exact Hf]. left. now split.
    + unfold bind, try_ok. rewrite add_to_playlist_eq.
      destruct (faults w (requests w)).
      * destruct (IH count (sent (ReqInsert v target) false w))
          as (c & w' & segs & Hrun & Ht & Hf & Hc & Hl).
        exists c, w', ([(ReqInsert v target, false)] :: segs).
        split; [exact Hrun|]. split; [|split; [|split]].
        -- rewrite Ht. cbn [sent trace List.concat]. now rewrite <- !app_assoc.
        -- constructor; [|exact Hf]. right. exists false. now split.
        -- exact Hc.
        -- exact Hl.
      * destruct (IH (S count)
                    (set_platform (apply_insert (platform w) v target)
                       (sent (ReqInsert v target) true w)))
          as (c & w' & segs & Hrun & Ht & Hf & Hc & Hl).
        exists c, w', ([(ReqInsert v target, true)] :: segs).
        split; [exact Hrun|]. split; [|split; [|split]].
        -- rewrite Ht. cbn [sent trace set_platform List.concat].
           now rewrite <- !app_assoc.
        -- constructor; [|exact Hf]. right. exists true. now split.
        -- rewrite Hc. cbn [List.concat app filter inserted_ok List.length]. lia.
        -- rewrite Hl. cbn [set_platform platform].
           rewrite length_insert.
           cbn [List.concat app filter inserted_ok List.length sent platform].
           lia.
Qed.

(** The deletion loop: one request for each record, in order, whatever
    fails. *)
Lemma clear_for_items_turns (items : list playlist_item) :
  forall (w : world),
  exists (w' : world) (tr : list (request * bool)),
    ClearPlaylistTask.for_items items w = (Ret tt, w') /\
    trace w' = trace w ++ tr /\
    map fst tr = map (fun it => ReqDelete (item_id it)) items.
Proof.
  induction items as [|item rest IH]; intros w.
  - exists w, []. cbn. now rewrite app_nil_r.
  - cbn [ClearPlaylistTask.for_items]. unfold bind, try_except.
    rewrite playlistItems_delete_eq.
    destruct (faults w (requests w)).
    + destruct (IH (sent (ReqDelete (item_id item)) false w))
        as (w' & tr & Hrun & Ht & Hm).
      exists w', ((ReqDelete (item_id item), false) :: tr).
      split; [exact Hrun|]. split.
      * rewrite Ht. cbn [sent trace]. now rewrite <- app_assoc.
      * cbn [map fst]. now rewrite Hm.
    + destruct (IH (set_platform
                      (apply_delete (platform w) (item_id item))
                      (sent (ReqDelete (item_id item)) true w)))
        as (w' & tr & Hrun & Ht & Hm).
      exists w', ((ReqDelete (item_id item), true) :: tr).
      split; [exact Hrun|]. split.
      * rewrite Ht. cbn [sent trace set_platform]. now rewrite <- app_assoc.
      * cbn [map fst]. now rewrite Hm.
Qed.

End TurnFacts.

(** ** The tasks and the gateway *)
Module TaskClaims.

Import PyStr World WorldFacts YouTubeAPI Observations GatewayFacts.
Import ReadingFacts WritingFacts DedupFacts FirstPageFacts Scenarios.
Import Expectations TurnFacts.
Local Open Scope py_scope.
Local Arguments firstn : simpl never.

(** C8. Each listing (of the uploads, of a playlist's members for the
    duplicate check, of a playlist's records for deletion) is one request
    for 100 records, and its answer is the first 100 records of the
    playlist, or fewer; no further page is asked for.  So the tasks see
    the first page only: run in a world and in that world cut down to the
    first 100 records of each playlist, each task ends the same way,
    having sent the same requests. *)
Theorem C8_listings_are_one_page (w : world) (pid : string)
  (description : pystr) (fuel : nat) :
  (fetch_videos pid w
   = if faults w (requests w)
     then (Raise HttpError, sent (ReqListItems pid 100) false w)
     else (Ret (firstn 100 (playlists (platform w) pid)),
           sent (ReqListItems pid 100) true w)) /\
  (fetch_playlist_items pid w
   = if faults w (requests w)
     then (Raise HttpError, sent (ReqListItems pid 100) false w)
     else (Ret (map item_videoId (firstn 100 (playlists (platform w) pid))),
           sent (ReqListItems pid 100) true w)) /\
  (playlistItems_list pid 100 w
   = if faults w (requests w)
     then (Raise HttpError, sent (ReqListItems pid 100) false w)
     else (Ret (firstn 100 (playlists (platform w) pid)),
           sent (ReqListItems pid 100) true w)) /\
  (List.length (firstn 100 (playlists (platform w) pid)) <= 100)%nat /\
  let cut := set_platform (first_page_only (platform w)) w in
  (fst (ListPrivateVideosTask.execute w)
   = fst (ListPrivateVideosTask.execute cut) /\
   trace (snd (ListPrivateVideosTask.execute w))
   = trace (snd (ListPrivateVideosTask.execute cut))) /\
  (fst (AddPublicShortsExtendedTask.execute pid w)
   = fst (AddPublicShortsExtendedTask.execute pid cut) /\
   trace (snd (AddPublicShortsExtendedTask.execute pid w))
   = trace (snd (AddPublicShortsExtendedTask.execute pid cut))) /\
  (fst (ClearPlaylistTask.execute pid w)
   = fst (ClearPlaylistTask.execute pid cut) /\
   trace (snd (ClearPlaylistTask.execute pid w))
   = trace (snd (ClearPlaylistTask.execute pid cut))) /\
  (fst (FullAutomationTask.execute pid description fuel w)
   = fst (FullAutomationTask.execute pid description fuel cut) /\
   trace (snd (FullAutomationTask.execute pid description fuel w))
   = trace (snd (FullAutomationTask.execute pid description fuel cut))).
Proof.
  split; [apply playlistItems_list_eq|].
  split; [apply fetch_playlist_items_eq|].
  split; [apply playlistItems_list_eq|].
  split; [apply firstn_le_length|].
  intros cut. pose proof (alike_page_cut w) as Hcut. fold cut in Hcut.
  split; [|split; [|split]].
  - destruct (preserves_list_private w cut Hcut) as [Ho [[_ [_ [_ [_ Ht]]]] _]].
    now split.
  - destruct (preserves_add_public_shorts pid w cut Hcut)
      as [Ho [_ [_ [_ [_ Ht]]]]].
    now split.
  - destruct (preserves_clear pid w cut Hcut) as [Ho [_ [_ [_ [_ Ht]]]]].
    now split.
  - destruct (preserves_full_automation pid description fuel w cut Hcut)
      as [Ho [_ [_ [_ [_ Ht]]]]].
    now split.
Qed.

(** C9. When the list task returns no private video, the full task ends
    there, in the world the list task left: it has sent no write (no
    update, no insertion), has listed no playlist for a reference map,
    and has not read the clock for a schedule. *)
Theorem C9_nothing_to_schedule (target : string) (description : pystr)
  (fuel : nat) (w w' : world) :
  ListPrivateVideosTask.execute w = (Ret [], w') ->
  FullAutomationTask.execute target description fuel w = (Ret tt, w') /\
  platform w' = platform w /\
  clock_reads w' = clock_reads w /\
  Forall (fun e => is_write (fst e) = false) (sent_since w w').
Proof.
  intros H. split.
  - unfold FullAutomationTask.execute, bind. now rewrite H.
  - destruct (list_private_run w) as (tr & Hw & Hr & _).
    rewrite H in Hw. cbn [snd] in Hw. subst w'.
    split; [reflexivity|]. split; [reflexivity|].
    now rewrite (sent_since_app w (after_requests tr w) tr eq_refl).
Qed.

Lemma C9_witness_no_private_video :
  ListPrivateVideosTask.execute (short_world 3)
  = (Ret [], snd (ListPrivateVideosTask.execute (short_world 3))) /\
  FullAutomationTask.execute "PL" (py "text") 40 (short_world 3)
  = (Ret tt, snd (ListPrivateVideosTask.execute (short_world 3))) /\
  trace (snd (FullAutomationTask.execute "PL" (py "text") 40 (short_world 3)))
  = [(ReqChannels, true); (ReqListItems "UU" 100, true);
     (ReqVideo "short", true)].
Proof.
  assert (H : ListPrivateVideosTask.execute (short_world 3)
              = (Ret [], snd (ListPrivateVideosTask.execute (short_world 3))))
    by (vm_compute; reflexivity).
  split; [exact H|].
  pose proof (C9_nothing_to_schedule "PL" (py "text") 40 _ _ H) as [Hrun _].
  split; [exact Hrun|]. rewrite Hrun. vm_compute. reflexivity.
Defined.

(** C4 (as amended).  In the list task a failure of the detail fetch is
    not caught.  Its loop either fetches every item, or ends at the first
    item whose fetch fails (or finds no video) with that exception,
    having asked for none of the items after it; the task ends with the
    exception of the first request that fails, which is its last
    request.  The selection loop of the public-shorts task does the
    same, and ends also at a video whose duration check raises.  In the
    loops that write, a failure is caught within the turn of its item and
    the loop goes on to the next item: the deletion loop asks once for
    the deletion of every record, in order, whichever requests failed;
    the insertion loop of the public-shorts task and the loop of the full
    task give every item its turn, in order, whichever requests failed
    in the turns before. *)
Theorem C4_fetch_failure_ends_list_task :
  (forall (items : list playlist_item)
          (acc : list ListPrivateVideosTask.video_info) (w : world),
     ListPrivateVideosTask.for_items items acc w
     = (Ret (acc ++ private_infos (platform w) items),
        after_requests (map fetch_ok items) w)
     \/
     exists before item after e ok,
       items = before ++ item :: after /\
       ListPrivateVideosTask.for_items items acc w
       = (Raise e,
          after_requests
            (map fetch_ok before ++ [(ReqVideo (item_videoId item), ok)])
            w) /\
       ((ok = false /\ e = HttpError) \/
        (ok = true /\ e = TypeError /\
         videos (platform w) (item_videoId item) = None))) /\
  (forall w : world,
     exists tr,
       snd (ListPrivateVideosTask.execute w) = after_requests tr w /\
       ends_at_failure (fst (ListPrivateVideosTask.execute w)) tr) /\
  (forall (items : list playlist_item)
          (acc : list AddPublicShortsExtendedTask.short_info) (w : world),
     AddPublicShortsExtendedTask.for_items items acc w
     = (Ret (acc ++ public_shorts (platform w) items),
        after_requests (map fetch_ok items) w)
     \/
     exists before item after e ok,
       items = before ++ item :: after /\
       AddPublicShortsExtendedTask.for_items items acc w
       = (Raise e,
          after_requests
            (map fetch_ok before ++ [(ReqVideo (item_videoId item), ok)])
            w) /\
       ((ok = false /\ e = HttpError) \/
        (ok = true /\ e = TypeError /\
         videos (platform w) (item_videoId item) = None) \/
        (ok = true /\ e = ValueError /\
         exists d, videos (platform w) (item_videoId item) = Some d /\
                   AddPublicShortsExtendedTask.selects d = None))) /\
  (forall (items : list playlist_item) (w : world),
     exists (w' : world) (tr : list (request * bool)),
       ClearPlaylistTask.for_items items w = (Ret tt, w') /\
       sent_since w w' = tr /\
       map fst tr = map (fun it => ReqDelete (item_id it)) items) /\
  (forall (target : string) (ya : list string)
          (selected : list AddPublicShortsExtendedTask.short_info)
          (count : nat) (w : world),
     exists (c : nat) (w' : world) (segs : list (list (request * bool))),
       AddPublicShortsExtendedTask.for_selected target ya selected count w
       = (Ret c, w') /\
       sent_since w w' = List.concat segs /\
       Forall2 (shorts_turn target ya) selected segs) /\
  (forall (target : string) (description : pystr) (ya : list string)
          (ref_map : FullAutomationTask.dict)
          (pairs : list (ListPrivateVideosTask.video_info * datetime))
          (w : world),
     exists (w' : world) (segs : list (list (request * bool))),
       FullAutomationTask.for_videos target description ya ref_map pairs w
       = (Ret tt, w') /\
       sent_since w w' = List.concat segs /\
       Forall2 (full_turn target description ya ref_map) pairs segs).
Proof.
  split; [intros; apply list_for_items_run|].
  split.
  { intros w. destruct (list_private_run w) as (tr & Hw & _ & He & _).
    now exists tr. }
  split; [intros; apply shorts_for_items_run|].
  split.
  { intros items w.
    destruct (clear_for_items_turns items w) as (w' & tr & Hrun & Ht & Hm).
    exists w', tr. split; [exact Hrun|]. split; [|exact Hm].
    now apply sent_since_app. }
  split.
  - intros target ya selected count w.
    destruct (for_selected_turns target ya selected count w)
      as (c & w' & segs & Hrun & Ht & Hf & _).
    exists c, w', segs. split; [exact Hrun|]. split; [|exact Hf].
    now apply sent_since_app.
  - intros target description ya ref_map pairs w.
    destruct (for_videos_turns target description ya ref_map pairs w)
      as (w' & segs & Hrun & Ht & Hf).
    exists w', segs. split; [exact Hrun|]. split; [|exact Hf].
    now apply sent_since_app.
Qed.

(** C4, as stated, fails: the fetch of the first video fails, and the
    task ends with the exception; the second video is never asked for. *)
Lemma C4_counterexample_failed_fetch :
  fst (ListPrivateVideosTask.execute failing_fetch_world) = Raise HttpError /\
  trace (snd (ListPrivateVideosTask.execute failing_fetch_world))
  = [(ReqChannels, true); (ReqListItems "UU" 100, true);
     (ReqVideo "v1", false)].
Proof. vm_compute. split; reflexivity. Qed.

(** C3.  The duplicate check does not keep a second run from inserting a
    video again.  The target playlist holds 100 records of other videos
    and the short is not among them.  A run of the public-shorts task
    inserts the short, as the 101st record; a second run lists the first
    100 records only, does not find the short among them and inserts it
    again: the playlist then holds two records of the short. *)
Theorem C3_second_run_inserts_again :
  count_occ string_dec (members (short_world 100) "PL") "short"%string = 0%nat /\
  count_occ string_dec
    (members (snd (AddPublicShortsExtendedTask.execute "PL" (short_world 100)))
       "PL") "short"%string = 1%nat /\
  count_occ string_dec
    (members
       (snd (AddPublicShortsExtendedTask.execute "PL"
               (snd (AddPublicShortsExtendedTask.execute "PL"
                       (short_world 100)))))
       "PL") "short"%string = 2%nat.
Proof. vm_compute. auto. Qed.

End TaskClaims.

(** ** The duration check and the public-short filter *)
Module DurationClaims.

Import PyStr PyStrFacts Iso8601 Iso8601Facts World Observations.
Import ReadingFacts AddPublicShortsExtendedTask.
Local Open Scope Z_scope.

Lemma check_duration_spec (s : pystr) (max_seconds : Z) :
  _check_duration s max_seconds = Some true <->
  ~ In 72%N s /\
  exists t, total_seconds s = Some t /\ 0 < t <= max_seconds.
Proof.
  unfold _check_duration. change (py "H") with [72%N].
  destruct (contains [72%N] s) eqn:E.
  - apply contains_char in E. split; [discriminate|tauto].
  - apply contains_char_false in E.
    destruct (total_seconds s) as [t|].
    + split.
      * intros H. injection H as H.
        apply Bool.andb_true_iff in H. destruct H as [H1 H2].
        apply Z.ltb_lt in H1. apply Z.leb_le in H2.
        split; [exact E|]. exists t. split; [reflexivity|lia].
      * intros (_ & t' & Ht & H1 & H2). injection Ht as <-.
        f_equal. apply Bool.andb_true_iff.
        now rewrite Z.ltb_lt, Z.leb_le.
    + split; [discriminate|]. intros (_ & t & Ht & _). discriminate.
Qed.

(** C10. The duration check on a string with no hour marker and no
    minute or second token (no digit immediately before an M or an S; the
    empty string is one such) adds up 0 seconds and answers false: it
    raises nothing. *)
Theorem C10_check_duration_without_tokens (s : pystr) (max_seconds : Z) :
  ~ In 72%N s ->
  ~ digit_before 77%N s ->
  ~ digit_before 83%N s ->
  search_digits_then 77%N s = None /\
  search_digits_then 83%N s = None /\
  total_seconds s = Some 0 /\
  _check_duration s max_seconds = Some false.
Proof.
  intros HH HM HS.
  apply (search_none_iff 77%N s eq_refl) in HM.
  apply (search_none_iff 83%N s eq_refl) in HS.
  assert (Ht : total_seconds s = Some 0).
  { unfold total_seconds. now rewrite HM, HS. }
  repeat split; auto.
  unfold _check_duration. change (py "H") with [72%N].
  destruct (contains [72%N] s) eqn:E.
  - apply contains_char in E. contradiction.
  - now rewrite Ht.
Qed.

Lemma C10_witness_empty_string :
  ~ In 72%N (py "") /\
  total_seconds (py "") = Some 0 /\
  _check_duration (py "") 120 = Some false.
Proof.
  assert (HH : ~ In 72%N (py "")) by (simpl; tauto).
  assert (HM : ~ digit_before 77%N (py ""))
    by (apply search_none_iff; reflexivity).
  assert (HS : ~ digit_before 83%N (py ""))
    by (apply search_none_iff; reflexivity).
  split; [exact HH|].
  exact (proj2 (proj2
    (C10_check_duration_without_tokens (py "") 120 HH HM HS))).
Defined.




End DurationClaims.

(** ** More on the calendar *)
Module CalendarExtras.

Import World WorldFacts CalendarStrategy CalendarFacts Expectations Scenarios.
Local Open Scope Z_scope.
Local Open Scope py_scope.

Lemma for_slots_on_table (table sl : list slot) (current : datetime)
  (q : Z) :
  incl sl table ->
  forall dates w dates' w',
  for_slots sl current q dates w = (Ret dates', w') ->
  Forall (on_table table) dates -> Forall (on_table table) dates'.
Proof.
  induction sl as [|[[d hr] mnt] rest IH]; intros Hincl dates w dates' w' Hrun Hd.
  - cbn in Hrun. now inversion Hrun; subst.
  - assert (Hrest : incl rest table) by (intros x Hx; apply Hincl; now right).
    cbn [for_slots] in Hrun.
    destruct (Z.eqb_spec (weekday current) d) as [E|E];
      [|exact (IH Hrest _ _ _ _ Hrun Hd)].
    apply bind_Ret_inv in Hrun. destruct Hrun as (possible & w1 & Hp & Hrun).
    unfold replace_hmsu in Hp.
    destruct (valid_hm hr mnt && valid_su 0 0)%bool; [|discriminate].
    inversion Hp; subst possible w1. clear Hp.
    apply bind_Ret_inv in Hrun. destruct Hrun as (t & w2 & _ & Hrun).
    destruct (_ && _)%bool; [|exact (IH Hrest _ _ _ _ Hrun Hd)].
    apply (IH Hrest _ _ _ _ Hrun). apply Forall_app. split; [exact Hd|].
    constructor; [|constructor]. unfold on_table. cbn [hour minute second
      microsecond]. split; [|now split].
    change (weekday (mkdt (ordinal current) hr mnt 0 0))
      with (weekday current).
    rewrite E. apply Hincl. now left.
Qed.

Lemma while_loop_on_table (sl : list slot) (q : Z) (fuel : nat) :
  forall current dates w dates' w',
  while_loop sl q fuel current dates w = (Ret dates', w') ->
  Forall (on_table sl) dates -> Forall (on_table sl) dates'.
Proof.
  induction fuel as [|fuel IH]; intros current dates w dates' w' Hrun Hd;
    cbn [while_loop] in Hrun;
    destruct (Z.ltb _ q);
    try (now inversion Hrun; subst); try discriminate.
  apply bind_Ret_inv in Hrun. destruct Hrun as (dates1 & w1 & H1 & Hrun).
  apply bind_Ret_inv in Hrun. destruct Hrun as (current' & w2 & _ & Hrun).
  apply (IH _ _ _ _ _ Hrun).
  apply (for_slots_on_table sl sl current q (incl_refl sl) _ _ _ _ H1 Hd).
Qed.

(** X1. Whatever the clock does, every instant of a schedule is a slot of
    the weekly table: its weekday, hour and minute are an entry of the
    table, and its seconds and microseconds are 0. *)
Theorem X1_schedule_on_table (quantity : Z) (fuel : nat) (w w' : world)
  (dates : list datetime) :
  generate_schedule quantity fuel w = (Ret dates, w') ->
  Forall (on_table slots) dates.
Proof.
  unfold generate_schedule, generate_schedule_from. intros H.
  apply bind_Ret_inv in H. destruct H as (current & w1 & _ & H).
  apply (while_loop_on_table _ _ _ _ _ _ _ _ H). constructor.
Qed.

Lemma X1_witness_sunday_night :
  generate_schedule 3 4 (still_world empty_platform sunday_23h)
  = (Ret [mkdt 8 7 30 0 0; mkdt 9 13 0 0 0; mkdt 10 13 0 0 0],
     advance 5 (still_world empty_platform sunday_23h)) /\
  Forall (on_table slots)
    [mkdt 8 7 30 0 0; mkdt 9 13 0 0 0; mkdt 10 13 0 0 0].
Proof.
  assert (H : generate_schedule 3 4 (still_world empty_platform sunday_23h)
              = (Ret [mkdt 8 7 30 0 0; mkdt 9 13 0 0 0; mkdt 10 13 0 0 0],
                 advance 5 (still_world empty_platform sunday_23h)))
    by (vm_compute; reflexivity).
  split; [exact H|].
  exact (X1_schedule_on_table 3 4 _ _ _ H).
Defined.

Lemma weekday_cases (d : datetime) :
  weekday d = 0 \/ weekday d = 1 \/ weekday d = 2 \/ weekday d = 3 \/
  weekday d = 4 \/ weekday d = 5 \/ weekday d = 6.
Proof.
  unfold weekday.
  pose proof (Z.mod_pos_bound (ordinal d + 6) 7 ltac:(lia)). lia.
Qed.

(** One day of the code's table: one reading of the clock, and the slot
    of the day when it is still ahead and the list is short of [q]. *)
Lemma for_slots_fixed (current : datetime) (q : Z)
  (dates : list datetime) (w : world) :
  for_slots slots current q dates w
  = (Ret (if dt_ltb (clock w (clock_reads w))
                (slot_instant (ordinal current))
             && (Z.of_nat (List.length dates) <? q)
          then dates ++ [slot_instant (ordinal current)]
          else dates),
     advance 1 w).
Proof.
  unfold slot_instant.
  change ((ordinal current + 6) mod 7) with (weekday current).
  unfold slots. cbn [for_slots].
  destruct (weekday_cases current) as [E|[E|[E|[E|[E|[E|E]]]]]];
    rewrite E; cbn [Z.eqb Pos.eqb find slot_day];
    unfold replace_hmsu; cbn [valid_hm valid_su Z.leb Z.ltb Z.compare
      Pos.compare Pos.compare_cont andb];
    unfold bind at 1; unfold ret at 1; unfold bind at 1;
    rewrite now_advance;
    destruct (_ && _)%bool; reflexivity.
Qed.

Lemma days_from_S (o : Z) (n : nat) :
  days_from o (S n) = slot_instant o :: days_from (o + 1) n.
Proof.
  unfold days_from. cbn [seq map]. rewrite Z.add_0_r. f_equal.
  rewrite <- seq_shift, map_map. apply map_ext. intros i.
  f_equal. lia.
Qed.

Lemma firstn_of_seq (n : nat) :
  forall (start n' : nat),
  (n <= n')%nat -> firstn n (seq start n') = seq start n.
Proof.
  induction n as [|n IH]; intros start n' H; [reflexivity|].
  destruct n' as [|n']; [lia|]. cbn [seq firstn].
  f_equal. apply IH. lia.
Qed.

Lemma days_from_firstn (o : Z) (n n' : nat) :
  (n <= n')%nat -> firstn n (days_from o n') = days_from o n.
Proof.
  intros H. unfold days_from. rewrite firstn_map. f_equal.
  now apply firstn_of_seq.
Qed.

Section Fixed.

Variable q : Z.
Variable w0 : world.

Local Notation "'t0'" := (clock w0 (clock_reads w0)).

Hypothesis Hday :
  forall k, ordinal (clock w0 (clock_reads w0 + k)) <= ordinal t0.
Hypothesis Hreal : 0 <= ordinal t0.

(** The days after the first: each gives its slot. *)
Lemma while_fixed (fuel : nat) :
  forall (current : datetime) (dates : list datetime) (n : nat),
  ordinal t0 < ordinal current ->
  (Z.to_nat (q - Z.of_nat (List.length dates)) <= fuel)%nat ->
  ordinal current + (q - Z.of_nat (List.length dates)) <= max_ordinal ->
  while_loop slots q fuel current dates (advance n w0)
  = (Ret (dates ++ days_from (ordinal current)
                     (Z.to_nat (q - Z.of_nat (List.length dates)))),
     advance (n + Z.to_nat (q - Z.of_nat (List.length dates))) w0).
Proof.
  induction fuel as [|fuel IH]; intros current dates n Hord Hfuel Hroom;
    cbn [while_loop];
    destruct (Z.ltb_spec (Z.of_nat (List.length dates)) q) as [Hq|Hq];
    try lia;
    try (replace (Z.to_nat (q - Z.of_nat (List.length dates))) with 0%nat
           by lia;
         now rewrite Nat.add_0_r, app_nil_r).
  unfold bind at 1. rewrite for_slots_fixed.
  assert (Hahead : dt_ltb (clock (advance n w0) (clock_reads (advance n w0)))
                     (slot_instant (ordinal current)) = true).
  { apply dt_ltb_ordinal. cbn [advance clock clock_reads].
    specialize (Hday n).
    assert (ordinal (slot_instant (ordinal current)) = ordinal current).
    { unfold slot_instant. destruct (find _ slots) as [[[d hr] mnt]|];
        reflexivity. }
    lia. }
  rewrite Hahead. apply Z.ltb_lt in Hq. rewrite Hq. cbn [andb].
  apply Z.ltb_lt in Hq.
  unfold bind at 1. rewrite add_days_in by lia.
  unfold replace_hm. change (valid_hm 0 0) with true. cbv iota.
  unfold bind at 1. unfold ret at 1. rewrite advance_advance.
  rewrite IH.
  - rewrite length_app. cbn [List.length ordinal].
    replace (Z.to_nat (q - Z.of_nat (List.length dates)))
      with (S (Z.to_nat (q - Z.of_nat (List.length dates + 1)))) by lia.
    rewrite days_from_S, <- app_assoc. cbn [app].
    f_equal. f_equal. lia.
  - cbn [ordinal]. lia.
  - rewrite length_app. cbn [List.length]. lia.
  - rewrite length_app. cbn [List.length ordinal]. lia.
Qed.

(** The whole generation with the code's table. *)
Lemma generate_fixed (fuel : nat) :
  0 <= q -> (Z.to_nat q + 1 <= fuel)%nat ->
  ordinal t0 + q + 1 <= max_ordinal ->
  exists n,
    generate_schedule q fuel w0 = (Ret (expected_schedule w0 q), advance n w0).
Proof.
  intros Hq Hfuel Hroom.
  unfold generate_schedule, generate_schedule_from, bind.
  rewrite now_advance. unfold expected_schedule.
  destruct fuel as [|fuel]; [lia|]. cbn [while_loop List.length].
  destruct (Z.ltb_spec (Z.of_nat 0) q) as [Hpos|Hzero].
  2:{ exists 1%nat. replace (Z.to_nat q) with 0%nat by lia. reflexivity. }
  unfold bind at 1. rewrite for_slots_fixed.
  apply Z.ltb_lt in Hpos. cbn [List.length]. rewrite Hpos, Bool.andb_true_r.
  apply Z.ltb_lt in Hpos.
  change (dt_ltb (clock (advance 1 w0) (clock_reads (advance 1 w0)))
            (slot_instant (ordinal t0)))
    with (dt_ltb (clock w0 (clock_reads w0 + 1))
            (slot_instant (ordinal t0))).
  unfold today_ahead. rewrite <- (Nat.add_1_r (clock_reads w0)).
  unfold bind at 1. rewrite add_days_in by lia.
  unfold replace_hm. change (valid_hm 0 0) with true. cbv iota.
  unfold bind at 1. unfold ret at 1. rewrite advance_advance.
  destruct (dt_ltb (clock w0 (clock_reads w0 + 1))
              (slot_instant (ordinal t0))).
  - eexists. rewrite while_fixed.
    + cbn [app List.length ordinal].
      replace (Z.to_nat q) with (S (Z.to_nat (q - Z.of_nat 1))) by lia.
      rewrite days_from_S. reflexivity.
    + cbn [ordinal]. lia.
    + cbn [List.length]. lia.
    + cbn [List.length app ordinal]. lia.
  - eexists. rewrite while_fixed.
    + cbn [app List.length ordinal].
      replace (q - Z.of_nat 0) with q by lia. reflexivity.
    + cbn [ordinal]. lia.
    + cbn [List.length]. lia.
    + cbn [List.length ordinal]. lia.
Qed.

End Fixed.

(** X2. When no reading of the clock during the run falls on a later day
    than the first, and the calendar has Q + 1 days left after that day
    (beyond 9999-12-31 the step to the next day raises
    [OverflowError]), the schedule for Q >= 0 is exactly this: the slot
    of the first reading's day when it is still ahead at the second
    reading, and then the slots of the days that follow, one a day
    without a gap, Q in all.  Fuel for Q + 1 days is enough. *)
Theorem X2_schedule_is_consecutive_days (w : world) (quantity : Z)
  (fuel : nat) :
  0 <= quantity ->
  (forall k, ordinal (clock w (clock_reads w + k))
             <= ordinal (clock w (clock_reads w))) ->
  0 <= ordinal (clock w (clock_reads w)) ->
  ordinal (clock w (clock_reads w)) + quantity + 1 <= max_ordinal ->
  (Z.to_nat quantity + 1 <= fuel)%nat ->
  exists n,
    generate_schedule quantity fuel w
    = (Ret (expected_schedule w quantity), advance n w).
Proof.
  intros Hq Hday Hreal Hroom Hfuel. now apply generate_fixed.
Qed.

Lemma X2_witness_sunday_night :
  exists n,
    generate_schedule 3 4 (still_world empty_platform sunday_23h)
    = (Ret (expected_schedule (still_world empty_platform sunday_23h) 3),
       advance n (still_world empty_platform sunday_23h)).
Proof.
  apply (X2_schedule_is_consecutive_days
           (still_world empty_platform sunday_23h) 3 4).
  - lia.
  - intros k. simpl. lia.
  - simpl. lia.
  - simpl. unfold max_ordinal. lia.
  - simpl. lia.
Defined.

(** X3. Under the same conditions (no reading of the clock on a later
    day than the first, and Q' + 1 days left in the calendar), asking for
    more instants only adds to the end of the schedule: the schedule for
    Q is the first Q instants of the schedule for any Q' >= Q. *)
Theorem X3_schedule_prefix (w : world) (q q' : Z) (fuel : nat) :
  0 <= q <= q' ->
  (forall k, ordinal (clock w (clock_reads w + k))
             <= ordinal (clock w (clock_reads w))) ->
  0 <= ordinal (clock w (clock_reads w)) ->
  ordinal (clock w (clock_reads w)) + q' + 1 <= max_ordinal ->
  (Z.to_nat q' + 1 <= fuel)%nat ->
  exists (dates dates' : list datetime),
    fst (generate_schedule q fuel w) = Ret dates /\
    fst (generate_schedule q' fuel w) = Ret dates' /\
    dates = firstn (Z.to_nat q) dates'.
Proof.
  intros Hq Hday Hreal Hroom Hfuel.
  destruct (generate_fixed q w Hday Hreal fuel) as (n & Hn);
    [lia|lia|lia|].
  destruct (generate_fixed q' w Hday Hreal fuel) as (n' & Hn');
    [lia|lia|lia|].
  exists (expected_schedule w q), (expected_schedule w q').
  rewrite Hn, Hn'. split; [reflexivity|]. split; [reflexivity|].
  unfold expected_schedule. rewrite days_from_firstn; [reflexivity|lia].
Qed.

Lemma X3_witness_sunday_night :
  exists (dates dates' : list datetime),
    fst (generate_schedule 2 6 (still_world empty_platform sunday_23h))
    = Ret dates /\
    fst (generate_schedule 5 6 (still_world empty_platform sunday_23h))
    = Ret dates' /\
    dates = firstn (Z.to_nat 2) dates'.
Proof.
  apply (X3_schedule_prefix (still_world empty_platform sunday_23h) 2 5 6).
  - lia.
  - intros k. simpl. lia.
  - simpl. lia.
  - simpl. unfold max_ordinal. lia.
  - simpl. lia.
Defined.

(** X17.  Whatever the weekly table holds and whatever the clock does, a
    schedule that is returned has exactly as many instants as were asked
    for (none for a negative quantity): an instant is appended only while
    fewer than the quantity are there, also within a day, and the loop
    goes on until the quantity is reached. *)
Theorem X17_schedule_length_whatever_the_clock (sl : list slot)
  (quantity : Z) (fuel : nat) (w w' : world) (dates : list datetime) :
  generate_schedule_from sl quantity fuel w = (Ret dates, w') ->
  List.length dates = Z.to_nat quantity.
Proof.
  unfold generate_schedule_from. intros H.
  apply bind_Ret_inv in H. destruct H as (current & w1 & _ & H).
  apply (while_loop_exact _ _ _ _ _ _ _ _ H). cbn [List.length]. lia.
Qed.

Lemma X17_witness_monday_tuesday :
  List.length [mkdt 8 7 30 0 0; mkdt 9 13 0 0 0; mkdt 15 7 30 0 0]
  = Z.to_nat 3.
Proof.
  apply (X17_schedule_length_whatever_the_clock monday_tuesday 3 35
           (still_world empty_platform sunday_23h)
           (snd (generate_schedule_from monday_tuesday 3 35
                   (still_world empty_platform sunday_23h)))).
  vm_compute. reflexivity.
Defined.

End CalendarExtras.

(** ** What each task sends *)
Module SendingFacts.

Import PyStr World WorldFacts YouTubeAPI Observations Expectations.
Import GatewayFacts DedupFacts.
Local Open Scope py_scope.
Local Arguments firstn : simpl never.

Lemma sends_only_ret {A} (P : request -> bool) (a : A) :
  sends_only P (ret a).
Proof. intros w. exists []. now rewrite app_nil_r. Qed.

Lemma sends_only_raise {A} (P : request -> bool) (e : exn) :
  sends_only P (@raise A e).
Proof. intros w. exists []. now rewrite app_nil_r. Qed.

Lemma sends_only_bind {A B} (P : request -> bool) (m : M A) (f : A -> M B) :
  sends_only P m -> (forall a, sends_only P (f a)) -> sends_only P (bind m f).
Proof.
  intros Hm Hf w. destruct (Hm w) as (tr & Ht & Hp).
  unfold bind. destruct (m w) as [[a|e|] w1]; cbn [snd] in *;
    try (exists tr; now split).
  destruct (Hf a w1) as (tr' & Ht' & Hp').
  exists (tr ++ tr'). rewrite Ht', Ht, app_assoc. split; [reflexivity|].
  apply Forall_app. now split.
Qed.

Lemma sends_only_try_except (P : request -> bool) (m : M unit) :
  sends_only P m -> sends_only P (try_except m).
Proof.
  intros Hm w. destruct (Hm w) as (tr & Ht & Hp). exists tr.
  unfold try_except. destruct (m w) as [[a|e|] w1]; now split.
Qed.

Lemma sends_only_try_ok (P : request -> bool) (m : M unit) :
  sends_only P m -> sends_only P (try_ok m).
Proof.
  intros Hm w. destruct (Hm w) as (tr & Ht & Hp). exists tr.
  unfold try_ok. destruct (m w) as [[a|e|] w1]; now split.
Qed.

Lemma sends_only_send (P : request -> bool) (r : request) :
  P r = true -> sends_only P (send r).
Proof.
  intros Hr w. unfold send.
  destruct (faults w (requests w)); eexists; cbn [snd sent trace];
    (split; [reflexivity|now repeat constructor]).
Qed.

Lemma sends_only_read_platform (P : request -> bool) :
  sends_only P read_platform.
Proof. intros w. exists []. now rewrite app_nil_r. Qed.

Lemma sends_only_write_platform (P : request -> bool) (p : remote) :
  sends_only P (write_platform p).
Proof. intros w. exists []. cbn. now rewrite app_nil_r. Qed.

Lemma sends_only_list (P : request -> bool) (pid : string) (n : nat) :
  P (ReqListItems pid n) = true -> sends_only P (playlistItems_list pid n).
Proof.
  intros H. unfold playlistItems_list.
  apply sends_only_bind; [now apply sends_only_send|]. intros _.
  apply sends_only_bind; [apply sends_only_read_platform|]. intros p.
  apply sends_only_ret.
Qed.

Lemma sends_only_fetch_playlist_items (P : request -> bool) (pid : string) :
  P (ReqListItems pid 100) = true -> sends_only P (fetch_playlist_items pid).
Proof.
  intros H. unfold fetch_playlist_items.
  apply sends_only_bind; [now apply sends_only_list|]. intros items.
  apply sends_only_ret.
Qed.

Lemma sends_only_get_uploads (P : request -> bool) :
  P ReqChannels = true -> sends_only P get_uploads_playlist_id.
Proof.
  intros H. unfold get_uploads_playlist_id.
  apply sends_only_bind; [now apply sends_only_send|]. intros _.
  apply sends_only_bind; [apply sends_only_read_platform|]. intros p.
  destruct (uploads_playlist p);
    [apply sends_only_ret|apply sends_only_raise].
Qed.

Lemma sends_only_get_video (P : request -> bool) (v : string) :
  P (ReqVideo v) = true -> sends_only P (get_full_video_data v).
Proof.
  intros H. unfold get_full_video_data.
  apply sends_only_bind; [now apply sends_only_send|]. intros _.
  apply sends_only_bind; [apply sends_only_read_platform|]. intros p.
  apply sends_only_ret.
Qed.

Lemma sends_only_update (P : request -> bool) (b : update_body) :
  P (ReqUpdate b) = true -> sends_only P (update_video_content b).
Proof.
  intros H. unfold update_video_content.
  apply sends_only_bind; [now apply sends_only_send|]. intros _.
  apply sends_only_bind; [apply sends_only_read_platform|]. intros p.
  apply sends_only_write_platform.
Qed.

Lemma sends_only_add (P : request -> bool) (v pid : string) :
  P (ReqInsert v pid) = true -> sends_only P (add_to_playlist v pid).
Proof.
  intros H. unfold add_to_playlist.
  apply sends_only_bind; [now apply sends_only_send|]. intros _.
  apply sends_only_bind; [apply sends_only_read_platform|]. intros p.
  apply sends_only_write_platform.
Qed.

Lemma sends_only_delete (P : request -> bool) (i : N) :
  P (ReqDelete i) = true -> sends_only P (playlistItems_delete i).
Proof.
  intros H. unfold playlistItems_delete.
  apply sends_only_bind; [now apply sends_only_send|]. intros _.
  apply sends_only_bind; [apply sends_only_read_platform|]. intros p.
  apply sends_only_write_platform.
Qed.

(** The calendar sends nothing. *)
Lemma sends_only_generate_schedule (P : request -> bool) (q : Z)
  (fuel : nat) :
  sends_only P (CalendarStrategy.generate_schedule q fuel).
Proof.
  intros w. destruct (generate_schedule_frame q fuel w) as (n & Hn).
  exists []. rewrite Hn. cbn. now rewrite app_nil_r.
Qed.

Lemma sends_only_list_for_items (P : request -> bool)
  (items : list playlist_item) :
  (forall v, P (ReqVideo v) = true) ->
  forall acc, sends_only P (ListPrivateVideosTask.for_items items acc).
Proof.
  intros HP. induction items as [|item rest IH]; intros acc;
    cbn [ListPrivateVideosTask.for_items]; [apply sends_only_ret|].
  apply sends_only_bind; [now apply sends_only_get_video|].
  intros [d|]; [|apply sends_only_raise].
  destruct (String.eqb _ _); apply IH.
Qed.

Lemma sends_only_list_private (P : request -> bool) :
  (forall r, is_write r = false -> P r = true) ->
  sends_only P ListPrivateVideosTask.execute.
Proof.
  intros HP. unfold ListPrivateVideosTask.execute.
  apply sends_only_bind; [now apply sends_only_get_uploads, HP|]. intros u.
  apply sends_only_bind; [now apply sends_only_list, HP|]. intros items.
  apply sends_only_bind.
  - apply sends_only_list_for_items. intros v. now apply HP.
  - intros pv. apply sends_only_ret.
Qed.

Lemma sends_only_shorts_for_items (P : request -> bool)
  (items : list playlist_item) :
  (forall v, P (ReqVideo v) = true) ->
  forall acc, sends_only P (AddPublicShortsExtendedTask.for_items items acc).
Proof.
  intros HP. induction items as [|item rest IH]; intros acc;
    cbn [AddPublicShortsExtendedTask.for_items]; [apply sends_only_ret|].
  apply sends_only_bind; [now apply sends_only_get_video|].
  intros [d|]; [|apply sends_only_raise].
  destruct (AddPublicShortsExtendedTask.selects d) as [[|]|];
    [apply IH|apply IH|apply sends_only_raise].
Qed.

Lemma sends_only_for_selected (P : request -> bool) (target : string)
  (ya : list string)
  (selected : list AddPublicShortsExtendedTask.short_info) :
  (forall v, P (ReqInsert v target) = true) ->
  forall count,
  sends_only P
    (AddPublicShortsExtendedTask.for_selected target ya selected count).
Proof.
  intros HP. induction selected as [|vid rest IH]; intros count;
    cbn [AddPublicShortsExtendedTask.for_selected]; [apply sends_only_ret|].
  destruct (negb _); [|apply IH].
  apply sends_only_bind; [|intros ok; apply IH].
  apply sends_only_try_ok. now apply sends_only_add.
Qed.

Lemma sends_only_add_public_shorts (P : request -> bool) (target : string) :
  (forall r, is_write r = false -> P r = true) ->
  (forall v, P (ReqInsert v target) = true) ->
  sends_only P (AddPublicShortsExtendedTask.execute target).
Proof.
  intros HP HI. unfold AddPublicShortsExtendedTask.execute.
  apply sends_only_bind; [now apply sends_only_fetch_playlist_items, HP|].
  intros ya.
  apply sends_only_bind; [now apply sends_only_get_uploads, HP|]. intros u.
  apply sends_only_bind; [now apply sends_only_list, HP|]. intros items.
  apply sends_only_bind.
  - apply sends_only_shorts_for_items. intros v. now apply HP.
  - intros sel. now apply sends_only_for_selected.
Qed.

Lemma sends_only_clear_for_items (P : request -> bool)
  (items : list playlist_item) :
  (forall i, P (ReqDelete i) = true) ->
  sends_only P (ClearPlaylistTask.for_items items).
Proof.
  intros HP. induction items as [|item rest IH];
    cbn [ClearPlaylistTask.for_items]; [apply sends_only_ret|].
  apply sends_only_bind; [|intros _; apply IH].
  apply sends_only_try_except. now apply sends_only_delete.
Qed.

Lemma sends_only_clear (P : request -> bool) (pid : string) :
  P (ReqListItems pid 100) = true ->
  (forall i, P (ReqDelete i) = true) ->
  sends_only P (ClearPlaylistTask.execute pid).
Proof.
  intros HL HD. unfold ClearPlaylistTask.execute.
  apply sends_only_bind; [now apply sends_only_list|].
  intros [|item rest]; [apply sends_only_ret|].
  now apply sends_only_clear_for_items.
Qed.

Lemma sends_only_for_videos (P : request -> bool) (target : string)
  (description : pystr) (ya : list string)
  (ref_map : FullAutomationTask.dict)
  (pairs : list (ListPrivateVideosTask.video_info * datetime)) :
  (forall b, P (ReqUpdate b) = true) ->
  (forall v, P (ReqInsert v target) = true) ->
  sends_only P
    (FullAutomationTask.for_videos target description ya ref_map pairs).
Proof.
  intros HU HI. induction pairs as [|[vid_info publish_date] rest IH];
    cbn [FullAutomationTask.for_videos]; [apply sends_only_ret|].
  apply sends_only_bind; [|intros _; apply IH].
  apply sends_only_try_except.
  apply sends_only_bind; [now apply sends_only_update|]. intros _.
  destruct (negb _); [now apply sends_only_add|apply sends_only_ret].
Qed.

Lemma sends_only_full_automation (P : request -> bool) (target : string)
  (description : pystr) (fuel : nat) :
  (forall r, is_write r = false -> P r = true) ->
  (forall b, P (ReqUpdate b) = true) ->
  (forall v, P (ReqInsert v target) = true) ->
  sends_only P (FullAutomationTask.execute target description fuel).
Proof.
  intros HP HU HI. unfold FullAutomationTask.execute.
  apply sends_only_bind; [now apply sends_only_list_private|].
  intros [|x l]; [apply sends_only_ret|].
  apply sends_only_bind; [now apply sends_only_fetch_playlist_items, HP|].
  intros ya.
  apply sends_only_bind; [now apply sends_only_get_uploads, HP|]. intros u.
  apply sends_only_bind; [now apply sends_only_list, HP|]. intros items.
  apply sends_only_bind; [apply sends_only_generate_schedule|].
  intros dates. now apply sends_only_for_videos.
Qed.

Lemma sends_only_test_shorts (P : request -> bool) (short_id : string) :
  P (ReqVideo short_id) = true ->
  sends_only P (TestShortsRelatedFieldTask.execute short_id).
Proof.
  intros HP w. unfold TestShortsRelatedFieldTask.execute.
  rewrite get_full_video_data_eq.
  destruct (faults w (requests w)).
  - eexists. cbn [snd sent trace]. split; [reflexivity|now repeat constructor].
  - destruct (videos (platform w) short_id); eexists; cbn [snd sent trace];
      (split; [reflexivity|now repeat constructor]).
Qed.

End SendingFacts.

(** ** Further properties of the tasks *)
Module TaskExtras.

Import PyStr World WorldFacts YouTubeAPI Observations Expectations Scenarios.
Import GatewayFacts ReadingFacts WritingFacts DedupFacts SendingFacts.
Import TurnFacts.
Local Open Scope py_scope.
Local Arguments firstn : simpl never.

(** X4.  Whatever the platform holds and whichever requests fail, a task
    run through [YouTubeAutomator.run] sends requests of its own kinds
    only: the list task and the test task only read (the test task only
    the details of its one video); the clear task lists its playlist and
    deletes records, and neither updates nor inserts; the full task and
    the public-shorts task delete nothing and insert into their target
    playlist only, and the public-shorts task updates no video. *)
Theorem X4_tasks_send_their_requests_only
  (task : YouTubeAutomator.YouTubeTask) (w : world) :
  Forall (fun e => may_send task (fst e) = true)
    (sent_since w (snd (YouTubeAutomator.run task w))).
Proof.
  assert (H : sends_only (may_send task) (YouTubeAutomator.run task)).
  { destruct task as [target description fuel| |short_id|pid|target];
      cbn [YouTubeAutomator.run].
    - apply sends_only_full_automation.
      + now intros [ | | | | | ].
      + reflexivity.
      + intros v. cbn. apply String.eqb_refl.
    - apply sends_only_bind; [|intros; apply sends_only_ret].
      apply sends_only_list_private. intros r Hr. cbn. now rewrite Hr.
    - apply sends_only_bind; [|intros; apply sends_only_ret].
      apply sends_only_test_shorts. cbn. apply String.eqb_refl.
    - apply sends_only_clear; [cbn; apply String.eqb_refl|reflexivity].
    - apply sends_only_bind; [|intros; apply sends_only_ret].
      apply sends_only_add_public_shorts.
      + intros r Hr. destruct r; try discriminate; reflexivity.
      + intros v. cbn. apply String.eqb_refl. }
  destruct (H w) as (tr & Ht & Hp).
  now rewrite (sent_since_app _ _ _ Ht).
Qed.

(** X5.  The loop of the full task takes the pairs of a video and its
    date in order and always runs to its end.  Each turn sends the update
    of its video, with the title, description, date and related id made
    for it; an insertion into the target playlist follows only when the
    update went through and the video is not among those listed, and it
    is not repeated when it fails.  A failure in a turn does not stop the
    turns that follow. *)
Theorem X5_full_loop_turn_by_turn (target : string) (description : pystr)
  (ya : list string) (ref_map : FullAutomationTask.dict)
  (pairs : list (ListPrivateVideosTask.video_info * datetime)) (w : world) :
  exists (w' : world) (segs : list (list (request * bool))),
    FullAutomationTask.for_videos target description ya ref_map pairs w
    = (Ret tt, w') /\
    sent_since w w' = List.concat segs /\
    Forall2 (full_turn target description ya ref_map) pairs segs.
Proof.
  destruct (for_videos_turns target description ya ref_map pairs w)
    as (w' & segs & Hrun & Ht & Hf).
  exists w', segs. split; [exact Hrun|]. split; [|exact Hf].
  now apply sent_since_app.
Qed.

Lemma length_days_from (o : Z) (n : nat) :
  List.length (days_from o n) = n.
Proof. unfold days_from. now rewrite length_map, length_seq. Qed.

Lemma fetch_videos_eq (pid : string) (w : world) :
  fetch_videos pid w =
  if faults w (requests w)
  then (Raise HttpError, sent (ReqListItems pid 100) false w)
  else (Ret (firstn 100 (playlists (platform w) pid)),
        sent (ReqListItems pid 100) true w).
Proof. unfold fetch_videos. apply playlistItems_list_eq. Qed.

(** X6.  The full task, end to end.  When the list task gives a list of
    candidates that is not empty, the three readings that follow go
    through (the listing of the target playlist, the channel, the listing
    of the uploads), no reading of the clock falls on a later day than
    the first and the calendar has one day more left than there are
    candidates, the task ends normally, having given every candidate one
    turn of its loop: the i-th candidate in title order is paired with
    the i-th slot of the run of consecutive days that starts today or
    tomorrow, membership is judged by the listing of the target taken at
    the start, and related ids come from the map built from the first
    page of the uploads. *)
Theorem X6_full_task_pairs_candidates_with_days (target : string)
  (description : pystr) (fuel : nat)
  (w w1 : world) (l : list ListPrivateVideosTask.video_info) :
  ListPrivateVideosTask.execute w = (Ret l, w1) ->
  l <> [] ->
  (forall k, (k < 3)%nat -> faults w1 (requests w1 + k) = false) ->
  (forall k, (ordinal (clock w (clock_reads w + k))
              <= ordinal (clock w (clock_reads w)))%Z) ->
  (0 <= ordinal (clock w (clock_reads w)))%Z ->
  (ordinal (clock w (clock_reads w)) + Z.of_nat (List.length l) + 1
   <= max_ordinal)%Z ->
  (List.length l + 1 <= fuel)%nat ->
  exists (u : string) (w' : world) (segs : list (list (request * bool))),
    uploads_playlist (platform w) = Some u /\
    FullAutomationTask.execute target description fuel w = (Ret tt, w') /\
    sent_since w1 w'
    = [(ReqListItems target 100, true); (ReqChannels, true);
       (ReqListItems u 100, true)] ++ List.concat segs /\
    Forall2
      (full_turn target description (listed w target)
         (FullAutomationTask.build_ref_map
            (firstn 100 (playlists (platform w) u))))
      (combine l (expected_schedule w (Z.of_nat (List.length l)))) segs /\
    List.length segs = List.length l.
Proof.
  intros Hlist Hne Hok Hday Hreal Hroom Hfuel.
  destruct (list_private_run w) as (tr & Hw & _ & _ & Hl).
  rewrite Hlist in Hw, Hl. cbn [fst snd] in Hw, Hl.
  destruct (Hl l eq_refl) as (u & Hu & _). clear Hl. subst w1.
  exists u.
  remember (FullAutomationTask.execute target description fuel w) as r
    eqn:Hr.
  unfold FullAutomationTask.execute, bind at 1 in Hr. rewrite Hlist in Hr.
  destruct l as [|i l']; [contradiction|].
  set (l := i :: l') in *.
  unfold bind at 1 in Hr. rewrite fetch_playlist_items_eq in Hr.
  pose proof (Hok 0%nat ltac:(lia)) as H0.
  pose proof (Hok 1%nat ltac:(lia)) as H1.
  pose proof (Hok 2%nat ltac:(lia)) as H2.
  rewrite Nat.add_0_r in H0. rewrite H0 in Hr.
  unfold bind at 1 in Hr. rewrite get_uploads_playlist_id_eq in Hr.
  cbn [sent faults requests platform after_requests] in Hr, H1, H2.
  replace (S (requests w + List.length tr))
    with (requests w + List.length tr + 1)%nat in Hr by lia.
  rewrite H1, Hu in Hr.
  unfold bind at 1 in Hr. rewrite fetch_videos_eq in Hr.
  cbn [sent faults requests platform after_requests] in Hr.
  replace (S (requests w + List.length tr))
    with (requests w + List.length tr + 1)%nat in Hr by lia.
  replace (S (requests w + List.length tr + 1))
    with (requests w + List.length tr + 2)%nat in Hr by lia.
  rewrite H2 in Hr.
  set (w4 := sent (ReqListItems u 100) true
               (sent ReqChannels true
                  (sent (ReqListItems target 100) true
                     (after_requests tr w)))) in *.
  destruct (CalendarExtras.generate_fixed (Z.of_nat (List.length l)) w4 Hday
              Hreal fuel ltac:(lia) ltac:(lia) Hroom) as (n & Hgen).
  unfold bind at 1 in Hr.
  rewrite Hgen in Hr.
  destruct (for_videos_turns target description
              (listed (after_requests tr w) target)
              (FullAutomationTask.build_ref_map
                 (firstn 100 (playlists (platform w) u)))
              (combine l (expected_schedule w4 (Z.of_nat (List.length l))))
              (advance n w4)) as (w' & segs & Hrun & Ht & Hf).
  exists w', segs. subst r. split; [exact Hu|]. split; [exact Hrun|].
  split; [|split].
  - apply sent_since_app. rewrite Ht. cbn [advance trace w4 sent].
    unfold w4. cbn [sent trace]. now rewrite <- !app_assoc.
  - exact Hf.
  - apply Forall2_length in Hf. rewrite <- Hf, length_combine.
    unfold expected_schedule. rewrite length_days_from. lia.
Qed.

Lemma X6_witness_three_private :
  exists (u : string) (w' : world) (segs : list (list (request * bool))),
    uploads_playlist (platform three_private_world) = Some u /\
    FullAutomationTask.execute "PL" (py "text") 4 three_private_world
    = (Ret tt, w') /\
    sent_since (snd (ListPrivateVideosTask.execute three_private_world)) w'
    = [(ReqListItems "PL" 100, true); (ReqChannels, true);
       (ReqListItems u 100, true)] ++ List.concat segs /\
    Forall2
      (full_turn "PL" (py "text") (listed three_private_world "PL")
         (FullAutomationTask.build_ref_map
            (firstn 100 (playlists (platform three_private_world) u))))
      (combine
         [ListPrivateVideosTask.mkinfo (py "B") "v1"
            (mkvideo "private" (py "B") None None None);
          ListPrivateVideosTask.mkinfo (py "C") "v3"
            (mkvideo "private" (py "C") None None None);
          ListPrivateVideosTask.mkinfo (py "a") "v2"
            (mkvideo "private" (py "a") None None None)]
         (expected_schedule three_private_world (Z.of_nat 3))) segs /\
    List.length segs = 3%nat.
Proof.
  refine (X6_full_task_pairs_candidates_with_days "PL" (py "text") 4
            three_private_world
            (snd (ListPrivateVideosTask.execute three_private_world))
            [ListPrivateVideosTask.mkinfo (py "B") "v1"
               (mkvideo "private" (py "B") None None None);
             ListPrivateVideosTask.mkinfo (py "C") "v3"
               (mkvideo "private" (py "C") None None None);
             ListPrivateVideosTask.mkinfo (py "a") "v2"
               (mkvideo "private" (py "a") None None None)]
            _ _ _ _ _ _ _).
  - vm_compute. reflexivity.
  - discriminate.
  - intros k _. reflexivity.
  - intros k. simpl. lia.
  - simpl. lia.
  - simpl. unfold max_ordinal. lia.
  - simpl. lia.
Defined.

(** X7.  The public-shorts task, when it returns.  Its requests are the
    listing of the target playlist, the channel, the listing of the
    uploads and the details of each upload listed, all of which went
    through, followed by the turns of the insertion loop.  The loop takes
    the public shorts among the uploads listed in descending order of
    their lower-cased titles; a video that the listing of the target
    shows gets no request, any other gets one insertion request, which is
    not repeated when it fails.  The count the task reports is the number
    of insertions that went through, and the target playlist has grown by
    as many records. *)
Theorem X7_shorts_task_when_it_returns (target : string) (w w' : world)
  (c : nat) :
  AddPublicShortsExtendedTask.execute target w = (Ret c, w') ->
  exists (u : string) (segs : list (list (request * bool))),
    uploads_playlist (platform w) = Some u /\
    sent_since w w'
    = [(ReqListItems target 100, true); (ReqChannels, true);
       (ReqListItems u 100, true)]
      ++ map fetch_ok (firstn 100 (playlists (platform w) u))
      ++ List.concat segs /\
    Forall2 (shorts_turn target (listed w target))
      (PySort.sort
         (fun v => lower (AddPublicShortsExtendedTask.short_title v)) true
         (public_shorts (platform w)
            (firstn 100 (playlists (platform w) u))))
      segs /\
    c = List.length (filter inserted_ok (List.concat segs)) /\
    List.length (playlists (platform w') target)
    = (List.length (playlists (platform w) target) + c)%nat.
Proof.
  intros Hrun.
  unfold AddPublicShortsExtendedTask.execute, bind at 1 in Hrun.
  rewrite fetch_playlist_items_eq in Hrun.
  destruct (faults w (requests w)); [discriminate|].
  unfold bind at 1 in Hrun. rewrite get_uploads_playlist_id_eq in Hrun.
  cbn [sent faults requests platform] in Hrun.
  destruct (faults w (S (requests w))); [discriminate|].
  destruct (uploads_playlist (platform w)) as [u|] eqn:Hu; [|discriminate].
  unfold bind at 1 in Hrun. rewrite fetch_videos_eq in Hrun.
  cbn [sent faults requests platform] in Hrun.
  destruct (faults w (S (S (requests w)))); [discriminate|].
  set (items := firstn 100 (playlists (platform w) u)) in *.
  set (w3 := sent (ReqListItems u 100) true
               (sent ReqChannels true
                  (sent (ReqListItems target 100) true w))) in *.
  unfold bind at 1 in Hrun.
  destruct (shorts_for_items_run items [] w3)
    as [Hok|(before & item & rest & e & ok & _ & Hraise & _)];
    [|rewrite Hraise in Hrun; discriminate].
  rewrite Hok in Hrun. cbn [app] in Hrun.
  destruct (for_selected_turns target (listed w target)
              (PySort.sort
                 (fun v => lower (AddPublicShortsExtendedTask.short_title v))
                 true (public_shorts (platform w3) items))
              0%nat (after_requests (map fetch_ok items) w3))
    as (c' & w'' & segs & Hloop & Ht & Hf & Hc & Hlen).
  rewrite Hloop in Hrun. injection Hrun as Ec Ew. rewrite <- Ec, <- Ew.
  cbn [Nat.add] in Hc.
  exists u, segs. split; [reflexivity|]. split; [|split; [exact Hf|]].
  - apply sent_since_app. rewrite Ht. unfold w3.
    cbn [after_requests trace sent]. now rewrite <- !app_assoc.
  - split; [exact Hc|]. rewrite Hlen, Hc. reflexivity.
Qed.

Lemma X7_witness_one_short :
  exists (u : string) (segs : list (list (request * bool))),
    uploads_playlist (platform (short_world 3)) = Some u /\
    sent_since (short_world 3)
      (snd (AddPublicShortsExtendedTask.execute "PL" (short_world 3)))
    = [(ReqListItems "PL" 100, true); (ReqChannels, true);
       (ReqListItems u 100, true)]
      ++ map fetch_ok (firstn 100 (playlists (platform (short_world 3)) u))
      ++ List.concat segs /\
    Forall2 (shorts_turn "PL" (listed (short_world 3) "PL"))
      (PySort.sort
         (fun v => lower (AddPublicShortsExtendedTask.short_title v)) true
         (public_shorts (platform (short_world 3))
            (firstn 100 (playlists (platform (short_world 3)) u))))
      segs /\
    1%nat = List.length (filter inserted_ok (List.concat segs)) /\
    List.length
      (playlists
         (platform
            (snd (AddPublicShortsExtendedTask.execute "PL" (short_world 3))))
         "PL")
    = (List.length (playlists (platform (short_world 3)) "PL") + 1)%nat.
Proof.
  apply (X7_shorts_task_when_it_returns "PL" (short_world 3)
           (snd (AddPublicShortsExtendedTask.execute "PL" (short_world 3)))
           1%nat).
  vm_compute. reflexivity.
Defined.

(** X8.  The clear task lists its playlist once.  When the listing fails
    the task raises, having sent nothing else.  Otherwise it ends
    normally, and after the listing it has asked once for the deletion of
    each record listed, in the order of the listing, whichever of these
    requests failed: a failed deletion is passed over, not retried, and
    does not stop the ones that follow.  An empty listing sends no
    deletion. *)
Theorem X8_clear_task_requests (pid : string) (w : world) :
  (faults w (requests w) = true /\
   ClearPlaylistTask.execute pid w
   = (Raise HttpError, sent (ReqListItems pid 100) false w))
  \/
  (faults w (requests w) = false /\
   exists (w' : world) (tr : list (request * bool)),
     ClearPlaylistTask.execute pid w = (Ret tt, w') /\
     sent_since w w' = (ReqListItems pid 100, true) :: tr /\
     map fst tr
     = map (fun it => ReqDelete (item_id it))
         (firstn 100 (playlists (platform w) pid))).
Proof.
  unfold ClearPlaylistTask.execute, bind. rewrite playlistItems_list_eq.
  destruct (faults w (requests w)); [left; now split|right].
  split; [reflexivity|].
  destruct (clear_for_items_turns (firstn 100 (playlists (platform w) pid))
              (sent (ReqListItems pid 100) true w))
    as (w' & tr & Hrun & Ht & Hm).
  destruct (firstn 100 (playlists (platform w) pid)) as [|item rest] eqn:E.
  - exists (sent (ReqListItems pid 100) true w), [].
    split; [reflexivity|]. split; [|reflexivity].
    now apply sent_since_app.
  - exists w', tr. split; [exact Hrun|]. split; [|exact Hm].
    apply sent_since_app. rewrite Ht. cbn [sent trace].
    now rewrite <- app_assoc.
Qed.

Lemma no_faults_now (w : world) :
  no_faults w -> faults w (requests w) = false.
Proof. intros H. specialize (H 0%nat). now rewrite Nat.add_0_r in H. Qed.

Lemma no_faults_sent (r : request) (ok : bool) (w : world) :
  no_faults w -> no_faults (sent r ok w).
Proof.
  intros H k. cbn [sent faults requests]. specialize (H (S k)).
  now rewrite Nat.add_succ_r in H.
Qed.

Lemma no_faults_set_platform (p : remote) (w : world) :
  no_faults w -> no_faults (set_platform p w).
Proof. intros H k. apply H. Qed.

Lemma no_faults_after (tr : list (request * bool)) (w : world) :
  no_faults w -> no_faults (after_requests tr w).
Proof.
  intros H k. cbn [after_requests faults requests].
  rewrite <- Nat.add_assoc. apply H.
Qed.

(** Deletions that all go through. *)
Lemma clear_for_items_ok (items : list playlist_item) :
  forall (w : world), no_faults w ->
  exists (w' : world),
    ClearPlaylistTask.for_items items w = (Ret tt, w') /\
    platform w' = fold_left apply_delete (map item_id items) (platform w) /\
    no_faults w'.
Proof.
  induction items as [|item rest IH]; intros w Hw.
  - exists w. now repeat split.
  - cbn [ClearPlaylistTask.for_items]. unfold bind, try_except.
    rewrite playlistItems_delete_eq, (no_faults_now _ Hw).
    destruct (IH (set_platform (apply_delete (platform w) (item_id item))
                    (sent (ReqDelete (item_id item)) true w)))
      as (w' & Hrun & Hp & Hn).
    { now apply no_faults_set_platform, no_faults_sent. }
    exists w'. split; [exact Hrun|]. split; [|exact Hn].
    rewrite Hp. reflexivity.
Qed.

Lemma filter_filter_and {A} (f g : A -> bool) (l : list A) :
  filter f (filter g l) = filter (fun x => g x && f x) l.
Proof.
  induction l as [|a l IH]; [reflexivity|]. cbn [filter].
  destruct (g a); cbn [filter andb]; [|exact IH].
  destruct (f a); now rewrite IH.
Qed.

Lemma playlists_fold_delete (ids : list N) :
  forall (p : remote) (q : string),
  playlists (fold_left apply_delete ids p) q
  = filter (fun it => negb (existsb (N.eqb (item_id it)) ids))
      (playlists p q).
Proof.
  induction ids as [|i ids IH]; intros p q.
  - cbn. induction (playlists p q) as [|a l IHl]; [reflexivity|].
    cbn. now rewrite <- IHl.
  - cbn [fold_left]. rewrite IH. cbn [apply_delete playlists].
    rewrite filter_filter_and. apply filter_ext. intros it.
    cbn [existsb]. now rewrite negb_orb.
Qed.

Lemma filter_none {A} (f : A -> bool) (l : list A) :
  (forall x, In x l -> f x = false) -> filter f l = [].
Proof.
  induction l as [|a l IH]; intros H; [reflexivity|]. cbn [filter].
  rewrite (H a (or_introl eq_refl)). apply IH. intros x Hx. apply H.
  now right.
Qed.

Lemma filter_all {A} (f : A -> bool) (l : list A) :
  (forall x, In x l -> f x = true) -> filter f l = l.
Proof.
  induction l as [|a l IH]; intros H; [reflexivity|]. cbn [filter].
  rewrite (H a (or_introl eq_refl)). f_equal. apply IH. intros x Hx.
  apply H. now right.
Qed.

Lemma NoDup_app_disjoint {A} (l1 l2 : list A) (a : A) :
  NoDup (l1 ++ l2) -> In a l1 -> In a l2 -> False.
Proof.
  induction l1 as [|b l1 IH]; intros Hnd H1 H2; [contradiction|].
  cbn [app] in Hnd. apply NoDup_cons_iff in Hnd. destruct Hnd as [Hb Hnd].
  destruct H1 as [->|H1]; [|now apply IH].
  apply Hb, in_or_app. now right.
Qed.

Lemma existsb_ids (i : N) (ids : list N) :
  existsb (N.eqb i) ids = true <-> In i ids.
Proof.
  rewrite existsb_exists. split.
  - intros (x & Hx & E). apply N.eqb_eq in E. now subst.
  - intros H. exists i. split; [exact H|apply N.eqb_refl].
Qed.

(** Removing the records listed leaves the records beyond the page. *)
Lemma filter_first_part (l1 l2 : list playlist_item) :
  NoDup (map item_id (l1 ++ l2)) ->
  filter (fun it => negb (existsb (N.eqb (item_id it)) (map item_id l1)))
    (l1 ++ l2)
  = l2.
Proof.
  intros Hnd. rewrite map_app in Hnd. rewrite filter_app.
  rewrite filter_none, filter_all; [reflexivity| |].
  - intros x Hx. apply negb_true_iff.
    destruct (existsb _ _) eqn:E; [|reflexivity].
    apply existsb_ids in E. exfalso.
    apply (NoDup_app_disjoint _ _ (item_id x) Hnd E).
    now apply in_map.
  - intros x Hx. apply negb_false_iff, existsb_ids. now apply in_map.
Qed.

Lemma filter_first_ids (l : list playlist_item) (n : nat) :
  NoDup (map item_id l) ->
  filter
    (fun it => negb (existsb (N.eqb (item_id it))
                       (map item_id (firstn n l)))) l
  = skipn n l.
Proof.
  intros Hnd.
  pose proof (filter_first_part (firstn n l) (skipn n l)) as H.
  rewrite firstn_skipn in H. now apply H.
Qed.

(** X9.  What the clear task leaves.  When no request fails and the
    records of the playlist have distinct ids, the task ends normally and
    the playlist then holds the records that were beyond its first 100,
    in their order: a playlist of at most 100 records is emptied, a
    longer one is not. *)
Theorem X9_clear_task_removes_one_page (pid : string) (w : world) :
  no_faults w ->
  NoDup (map item_id (playlists (platform w) pid)) ->
  exists (w' : world),
    ClearPlaylistTask.execute pid w = (Ret tt, w') /\
    playlists (platform w') pid = skipn 100 (playlists (platform w) pid) /\
    ((List.length (playlists (platform w) pid) <= 100)%nat ->
     playlists (platform w') pid = []).
Proof.
  intros Hw Hnd.
  assert (Hexec : exists w',
             ClearPlaylistTask.execute pid w = (Ret tt, w') /\
             platform w'
             = fold_left apply_delete
                 (map item_id (firstn 100 (playlists (platform w) pid)))
                 (platform w)).
  { unfold ClearPlaylistTask.execute, bind.
    rewrite playlistItems_list_eq, (no_faults_now _ Hw).
    destruct (clear_for_items_ok (firstn 100 (playlists (platform w) pid))
                (sent (ReqListItems pid 100) true w)
                (no_faults_sent _ _ _ Hw)) as (w' & Hrun & Hp & _).
    destruct (firstn 100 (playlists (platform w) pid)) as [|item rest].
    - eexists. split; reflexivity.
    - exists w'. now split. }
  destruct Hexec as (w' & Hrun & Hp). exists w'.
  split; [exact Hrun|].
  assert (Hskip : playlists (platform w') pid
                  = skipn 100 (playlists (platform w) pid)).
  { rewrite Hp, playlists_fold_delete. now apply filter_first_ids. }
  split; [exact Hskip|]. intros Hlen. rewrite Hskip.
  now apply skipn_all2.
Qed.

Lemma X9_witness_small_playlist :
  exists (w' : world),
    ClearPlaylistTask.execute "PL" (short_world 3) = (Ret tt, w') /\
    playlists (platform w') "PL"
    = skipn 100 (playlists (platform (short_world 3)) "PL") /\
    ((List.length (playlists (platform (short_world 3)) "PL") <= 100)%nat ->
     playlists (platform w') "PL" = []).
Proof.
  apply (X9_clear_task_removes_one_page "PL" (short_world 3)).
  - intros k. reflexivity.
  - vm_compute. repeat constructor; simpl; intuition discriminate.
Defined.

Lemma private_infos_length (p : remote) (items : list playlist_item) :
  (List.length (private_infos p items) <= List.length items)%nat.
Proof.
  induction items as [|item rest IH]; [apply Nat.le_refl|].
  cbn [private_infos flat_map List.length]. rewrite length_app.
  fold (private_infos p rest).
  destruct (videos p (item_videoId item)) as [d|]; cbn [List.length];
    [|lia].
  destruct (String.eqb (privacyStatus d) "private"); cbn [List.length]; lia.
Qed.

Lemma private_infos_in (p : remote) (items : list playlist_item)
  (i : ListPrivateVideosTask.video_info) :
  In i (private_infos p items) <->
  exists item d,
    In item items /\ videos p (item_videoId item) = Some d /\
    privacyStatus d = "private"%string /\
    i = ListPrivateVideosTask.mkinfo (title d) (item_videoId item) d.
Proof.
  unfold private_infos. rewrite in_flat_map. split.
  - intros (item & Hin & Hi). exists item.
    destruct (videos p (item_videoId item)) as [d|]; [|contradiction].
    exists d. destruct (String.eqb_spec (privacyStatus d) "private");
      [|contradiction].
    destruct Hi as [<-|[]]. now repeat split.
  - intros (item & d & Hin & Hv & Hp & ->). exists item.
    split; [exact Hin|]. rewrite Hv, Hp. cbn. now left.
Qed.

(** X10.  What the list task returns.  When it returns, the platform is
    as it was, and the list holds, at most 100 entries long, exactly the
    uploads of the first page of the uploads playlist whose details say
    "private": each entry carries the video's id, the details as the
    platform gave them and the title taken from the details, and no
    private upload of that page is missing. *)
Theorem X10_list_task_result (w w' : world)
  (l : list ListPrivateVideosTask.video_info) :
  ListPrivateVideosTask.execute w = (Ret l, w') ->
  exists (u : string),
    uploads_playlist (platform w) = Some u /\
    platform w' = platform w /\
    (List.length l <= 100)%nat /\
    forall i, In i l <->
      exists item d,
        In item (firstn 100 (playlists (platform w) u)) /\
        videos (platform w) (item_videoId item) = Some d /\
        privacyStatus d = "private"%string /\
        i = ListPrivateVideosTask.mkinfo (title d) (item_videoId item) d.
Proof.
  intros Hrun.
  destruct (list_private_run w) as (tr & Hw & _ & _ & Hl).
  rewrite Hrun in Hw, Hl. cbn [fst snd] in Hw, Hl.
  destruct (Hl l eq_refl) as (u & Hu & Hsort). exists u.
  split; [exact Hu|]. split; [now subst w'|].
  pose proof (PySortFacts.sort_perm _ ListPrivateVideosTask.info_title false
                (private_infos (platform w)
                   (firstn 100 (playlists (platform w) u)))) as Hperm.
  rewrite <- Hsort in Hperm. split.
  - rewrite <- (Permutation_length Hperm).
    etransitivity; [apply private_infos_length|].
    rewrite length_firstn. apply Nat.le_min_l.
  - intros i. rewrite <- private_infos_in. split.
    + apply Permutation_in. now symmetry.
    + now apply Permutation_in.
Qed.

Lemma X10_witness_three_private :
  exists (u : string),
    uploads_playlist (platform three_private_world) = Some u /\
    platform (snd (ListPrivateVideosTask.execute three_private_world))
    = platform three_private_world /\
    (List.length
       [ListPrivateVideosTask.mkinfo (py "B") "v1"
          (mkvideo "private" (py "B") None None None);
        ListPrivateVideosTask.mkinfo (py "C") "v3"
          (mkvideo "private" (py "C") None None None);
        ListPrivateVideosTask.mkinfo (py "a") "v2"
          (mkvideo "private" (py "a") None None None)] <= 100)%nat /\
    forall i,
      In i [ListPrivateVideosTask.mkinfo (py "B") "v1"
              (mkvideo "private" (py "B") None None None);
            ListPrivateVideosTask.mkinfo (py "C") "v3"
              (mkvideo "private" (py "C") None None None);
            ListPrivateVideosTask.mkinfo (py "a") "v2"
              (mkvideo "private" (py "a") None None None)] <->
      exists item d,
        In item (firstn 100 (playlists (platform three_private_world) u)) /\
        videos (platform three_private_world) (item_videoId item) = Some d /\
        privacyStatus d = "private"%string /\
        i = ListPrivateVideosTask.mkinfo (title d) (item_videoId item) d.
Proof.
  apply (X10_list_task_result three_private_world
           (snd (ListPrivateVideosTask.execute three_private_world))).
  vm_compute. reflexivity.
Defined.

(** X11.  The test task never raises.  Run through [YouTubeAutomator.run]
    it ends normally after exactly one request, for the details of its
    video, whether that request fails or not, and it changes nothing on
    the platform.  It reports an error when the request fails or the
    video does not exist, the related video when the details name one,
    and "NO ENCONTRADO" otherwise. *)
Theorem X11_test_task_never_raises (short_id : string) (w : world) :
  YouTubeAutomator.run (YouTubeAutomator.TestShortsRelatedField short_id) w
  = (Ret tt,
     sent (ReqVideo short_id) (negb (faults w (requests w))) w) /\
  fst (TestShortsRelatedFieldTask.execute short_id w)
  = Ret (if faults w (requests w)
         then TestShortsRelatedFieldTask.ErrorEnTest
         else
           match videos (platform w) short_id with
           | None => TestShortsRelatedFieldTask.ErrorEnTest
           | Some d =>
               TestShortsRelatedFieldTask.Resultado
                 (match relatedVideoId d with
                  | Some r => r
                  | None => "NO ENCONTRADO"%string
                  end)
           end).
Proof.
  cbn [YouTubeAutomator.run]. unfold bind, ret.
  unfold TestShortsRelatedFieldTask.execute.
  rewrite get_full_video_data_eq.
  destruct (faults w (requests w)); [now split|].
  destruct (videos (platform w) short_id); now split.
Qed.

Lemma str_eqb_eq (a b : pystr) : str_eqb a b = true <-> a = b.
Proof.
  revert b. induction a as [|x a IH]; intros [|y b]; cbn [str_eqb];
    try (split; [discriminate|discriminate]); [now split|].
  rewrite andb_true_iff, N.eqb_eq, IH. split.
  - now intros [-> ->].
  - intros E. injection E as -> ->. now split.
Qed.

Lemma str_eqb_refl (a : pystr) : str_eqb a a = true.
Proof. now apply str_eqb_eq. Qed.

(** Reading a [dict] after an assignment. *)
Lemma dict_get_set (d : FullAutomationTask.dict) (k g : pystr)
  (v : string) :
  FullAutomationTask.dict_get (FullAutomationTask.dict_set k v d) g
  = if str_eqb k g then Some v else FullAutomationTask.dict_get d g.
Proof.
  induction d as [|[k' v'] d IH];
    cbn [FullAutomationTask.dict_set FullAutomationTask.dict_get].
  - reflexivity.
  - destruct (str_eqb k' k) eqn:Ek; cbn [FullAutomationTask.dict_get].
    + apply str_eqb_eq in Ek. subst k'.
      destruct (str_eqb k g); reflexivity.
    + destruct (str_eqb k' g) eqn:Eg.
      * destruct (str_eqb k g) eqn:Ekg; [|reflexivity].
        apply str_eqb_eq in Eg, Ekg. subst.
        now rewrite str_eqb_refl in Ek.
      * exact IH.
Qed.

Lemma dict_get_step (d : FullAutomationTask.dict) (item : playlist_item)
  (g : pystr) :
  FullAutomationTask.dict_get (FullAutomationTask.ref_map_step d item) g
  = if has_key g item then Some (item_videoId item)
    else FullAutomationTask.dict_get d g.
Proof.
  unfold FullAutomationTask.ref_map_step, has_key, chapter_key.
  destruct (contains FullAutomationTask.GENESIS_CAPITULO
              (upper (item_title item))); [|reflexivity].
  destruct (search_lit_ws_digits N.eqb FullAutomationTask.CAPITULO
              (upper (item_title item))) as [k|]; [|reflexivity].
  apply dict_get_set.
Qed.

Lemma find_app_split {A} (f : A -> bool) (l1 l2 : list A) :
  find f (l1 ++ l2)
  = match find f l1 with Some x => Some x | None => find f l2 end.
Proof.
  induction l1 as [|a l1 IH]; [reflexivity|]. cbn [app find].
  destruct (f a); [reflexivity|exact IH].
Qed.

Lemma dict_get_fold (items : list playlist_item) :
  forall (d : FullAutomationTask.dict) (g : pystr),
  FullAutomationTask.dict_get
    (fold_left FullAutomationTask.ref_map_step items d) g
  = match find (has_key g) (rev items) with
    | Some item => Some (item_videoId item)
    | None => FullAutomationTask.dict_get d g
    end.
Proof.
  induction items as [|item rest IH]; intros d g; [reflexivity|].
  cbn [fold_left rev]. rewrite IH, find_app_split.
  destruct (find (has_key g) (rev rest)); [reflexivity|].
  cbn [find]. rewrite dict_get_step.
  destruct (has_key g item); reflexivity.
Qed.

(** X12.  The reference map of the full task.  Looking a chapter number
    up in the map built from the uploads gives the video of the last
    upload, in the order of the listing, whose upper-cased title holds
    "GÉNESIS - CAPÍTULO" and whose first "CAPÍTULO <digits>" carries
    exactly that digit string; it gives nothing when there is no such
    upload.  So the related id that an update names is never empty and
    is always the id of an upload listed. *)
Theorem X12_reference_map_lookup (all_items : list playlist_item)
  (g : pystr) (description : pystr)
  (vid_info : ListPrivateVideosTask.video_info) (publish_date : datetime) :
  FullAutomationTask.dict_get (FullAutomationTask.build_ref_map all_items) g
  = match find (has_key g) (rev all_items) with
    | Some item => Some (item_videoId item)
    | None => None
    end /\
  forall r,
    body_related
      (FullAutomationTask.make_body description
         (FullAutomationTask.build_ref_map all_items) vid_info publish_date)
    = Some r ->
    r <> EmptyString /\
    exists item k,
      In item all_items /\ item_videoId item = r /\
      chapter_key item = Some k /\
      search_lit_ws_digits eqc_ignorecase FullAutomationTask.Capitulo
        (ListPrivateVideosTask.info_title vid_info) = Some k.
Proof.
  assert (Hget : forall g',
    FullAutomationTask.dict_get (FullAutomationTask.build_ref_map all_items)
      g'
    = match find (has_key g') (rev all_items) with
      | Some item => Some (item_videoId item)
      | None => None
      end).
  { intros g'. unfold FullAutomationTask.build_ref_map.
    now rewrite dict_get_fold. }
  split; [apply Hget|].
  intros r. cbn [FullAutomationTask.make_body body_related].
  unfold FullAutomationTask.related_id.
  destruct (search_lit_ws_digits eqc_ignorecase FullAutomationTask.Capitulo
              (ListPrivateVideosTask.info_title vid_info)) as [k|];
    [|discriminate].
  rewrite Hget.
  destruct (find (has_key k) (rev all_items)) as [item|] eqn:Ef;
    [|discriminate].
  apply find_some in Ef. destruct Ef as [Hin Hk].
  apply in_rev in Hin.
  intros Hr. split.
  - intros ->. cbn in Hr. destruct (item_videoId item); discriminate.
  - exists item, k. split; [exact Hin|]. split.
    + cbn [FullAutomationTask.truthy] in Hr.
      unfold FullAutomationTask.truthy in Hr.
      destruct (item_videoId item); [discriminate|]. now injection Hr.
    + split; [|reflexivity].
      unfold has_key in Hk. destruct (chapter_key item) as [k'|];
        [|discriminate].
      apply str_eqb_eq in Hk. now subst.
Qed.

(** The insertion loop when no request fails: the videos that are not
    listed are appended, in order, and nothing else changes. *)
Lemma for_selected_ok (target : string) (ya : list string)
  (selected : list AddPublicShortsExtendedTask.short_info) :
  forall (count : nat) (w : world), no_faults w ->
  exists (w' : world) (added : list playlist_item),
    AddPublicShortsExtendedTask.for_selected target ya selected count w
    = (Ret (count + List.length added)%nat, w') /\
    no_faults w' /\
    uploads_playlist (platform w') = uploads_playlist (platform w) /\
    videos (platform w') = videos (platform w) /\
    (forall q, q <> target ->
       playlists (platform w') q = playlists (platform w) q) /\
    playlists (platform w') target
    = playlists (platform w) target ++ added /\
    map item_videoId added
    = filter (fun v => negb (is_in v ya))
        (map AddPublicShortsExtendedTask.short_id selected).
Proof.
  induction selected as [|vid rest IH]; intros count w Hw.
  - exists w, []. cbn. rewrite Nat.add_0_r, app_nil_r. now repeat split.
  - cbn [AddPublicShortsExtendedTask.for_selected map filter].
    set (v := AddPublicShortsExtendedTask.short_id vid).
    destruct (is_in v ya) eqn:Ein; cbn [negb]; [now apply IH|].
    unfold bind, try_ok.
    rewrite add_to_playlist_eq, (no_faults_now _ Hw).
    destruct (IH (S count)
                (set_platform (apply_insert (platform w) v target)
                   (sent (ReqInsert v target) true w)))
      as (w' & added & Hrun & Hn & Hu & Hv & Hq & Ht & Hm).
    { now apply no_faults_set_platform, no_faults_sent. }
    cbn [set_platform sent platform] in Hu, Hv, Hq, Ht.
    exists w',
      (mkitem (next_item_id (platform w))
         (match videos (platform w) v with
          | Some x => title x
          | None => []
          end) v :: added).
    split.
    { rewrite Hrun. cbn [List.length]. f_equal. f_equal. lia. }
    split; [exact Hn|]. split; [exact Hu|]. split; [exact Hv|].
    split; [|split].
    + intros q Hne. rewrite (Hq q Hne). cbn [apply_insert playlists].
      destruct (String.eqb_spec q target); [contradiction|reflexivity].
    + rewrite Ht. cbn [apply_insert playlists]. rewrite String.eqb_refl.
      rewrite <- app_assoc. reflexivity.
    + cbn [map item_videoId]. now rewrite Hm.
Qed.

(** The insertion loop over videos that are all listed does nothing. *)
Lemma for_selected_all_listed (target : string) (ya : list string)
  (selected : list AddPublicShortsExtendedTask.short_info) (count : nat)
  (w : world) :
  (forall vid, In vid selected ->
     is_in (AddPublicShortsExtendedTask.short_id vid) ya = true) ->
  AddPublicShortsExtendedTask.for_selected target ya selected count w
  = (Ret count, w).
Proof.
  induction selected as [|vid rest IH]; intros H; [reflexivity|].
  cbn [AddPublicShortsExtendedTask.for_selected].
  rewrite (H vid (or_introl eq_refl)). cbn [negb]. apply IH.
  intros x Hx. apply H. now right.
Qed.

(** The selection loop read again, where it has run to its end once:
    with the same details and no failure it selects the same videos. *)
Lemma shorts_for_items_again (items : list playlist_item) :
  forall (acc acc' l : list AddPublicShortsExtendedTask.short_info)
         (w w' wl : world),
  AddPublicShortsExtendedTask.for_items items acc w = (Ret l, wl) ->
  no_faults w' ->
  videos (platform w') = videos (platform w) ->
  l = acc ++ public_shorts (platform w) items /\
  wl = after_requests (map fetch_ok items) w /\
  AddPublicShortsExtendedTask.for_items items acc' w'
  = (Ret (acc' ++ public_shorts (platform w) items),
     after_requests (map fetch_ok items) w').
Proof.
  induction items as [|item rest IH]; intros acc acc' l w w' wl Hrun Hn Hv.
  - cbn in Hrun. injection Hrun as <- <-. cbn [map public_shorts flat_map].
    rewrite !app_nil_r, !after_requests_nil. now repeat split.
  - rewrite shorts_for_items_cons in Hrun |- *.
    rewrite (no_faults_now _ Hn), Hv.
    destruct (faults w (requests w)); [discriminate|].
    cbn [public_shorts flat_map]. fold (public_shorts (platform w) rest).
    destruct (videos (platform w) (item_videoId item)) as [d|];
      [|discriminate].
    destruct (AddPublicShortsExtendedTask.selects d) as [b|];
      [|discriminate].
    destruct (IH _ (if b
                    then acc' ++ [AddPublicShortsExtendedTask.mkshort
                                    (item_title item) (item_videoId item)]
                    else acc')
                _ _ (after_requests [(ReqVideo (item_videoId item), true)] w')
                _ Hrun (no_faults_after _ _ Hn) Hv)
      as (Hl & Hwl & Hagain).
    cbn [after_requests platform] in Hl, Hwl, Hagain.
    rewrite after_requests_app in Hwl, Hagain.
    cbn [map fetch_ok app] in *.
    split; [|split].
    + rewrite Hl. destruct b; [now rewrite <- app_assoc|reflexivity].
    + exact Hwl.
    + rewrite Hagain. destruct b; [now rewrite <- app_assoc|reflexivity].
Qed.

Lemma is_in_true (v : string) (l : list string) :
  is_in v l = true <-> In v l.
Proof.
  unfold is_in. rewrite existsb_exists. split.
  - intros (x & Hx & E). apply String.eqb_eq in E. now subst.
  - intros H. exists v. split; [exact H|apply String.eqb_refl].
Qed.

Lemma in_firstn_in {A} (n : nat) (l : list A) (x : A) :
  In x (firstn n l) -> In x l.
Proof.
  intros H. rewrite <- (firstn_skipn n l). apply in_or_app. now left.
Qed.

(** The public-shorts task when no request fails and it returns. *)
Lemma shorts_task_ok (target : string) (w w1 : world) (c : nat) :
  no_faults w ->
  AddPublicShortsExtendedTask.execute target w = (Ret c, w1) ->
  exists (u : string) (added : list playlist_item) (w3 wl : world)
         (l : list AddPublicShortsExtendedTask.short_info),
    uploads_playlist (platform w) = Some u /\
    platform w3 = platform w /\
    AddPublicShortsExtendedTask.for_items
      (firstn 100 (playlists (platform w) u)) [] w3 = (Ret l, wl) /\
    no_faults w1 /\
    uploads_playlist (platform w1) = uploads_playlist (platform w) /\
    videos (platform w1) = videos (platform w) /\
    (forall q, q <> target ->
       playlists (platform w1) q = playlists (platform w) q) /\
    playlists (platform w1) target
    = playlists (platform w) target ++ added /\
    map item_videoId added
    = filter (fun v => negb (is_in v (listed w target)))
        (map AddPublicShortsExtendedTask.short_id
           (PySort.sort
              (fun v => lower (AddPublicShortsExtendedTask.short_title v))
              true
              (public_shorts (platform w)
                 (firstn 100 (playlists (platform w) u))))) /\
    c = List.length added.
Proof.
  intros Hw Hrun.
  unfold AddPublicShortsExtendedTask.execute, bind at 1 in Hrun.
  rewrite fetch_playlist_items_eq in Hrun.
  destruct (faults w (requests w)); [discriminate|].
  unfold bind at 1 in Hrun. rewrite get_uploads_playlist_id_eq in Hrun.
  cbn [sent faults requests platform] in Hrun.
  destruct (faults w (S (requests w))); [discriminate|].
  destruct (uploads_playlist (platform w)) as [u|] eqn:Hu; [|discriminate].
  unfold bind at 1 in Hrun. rewrite fetch_videos_eq in Hrun.
  cbn [sent faults requests platform] in Hrun.
  destruct (faults w (S (S (requests w)))); [discriminate|].
  set (items := firstn 100 (playlists (platform w) u)) in *.
  set (w3 := sent (ReqListItems u 100) true
               (sent ReqChannels true
                  (sent (ReqListItems target 100) true w))) in *.
  assert (Hw3 : no_faults w3) by (unfold w3; now repeat apply no_faults_sent).
  unfold bind at 1 in Hrun.
  destruct (shorts_for_items_run items [] w3)
    as [Hok|(before & item & rest & e & ok & _ & Hraise & _)];
    [|rewrite Hraise in Hrun; discriminate].
  rewrite Hok in Hrun. cbn [app] in Hrun.
  destruct (for_selected_ok target (listed w target)
              (PySort.sort
                 (fun v => lower (AddPublicShortsExtendedTask.short_title v))
                 true (public_shorts (platform w3) items))
              0%nat (after_requests (map fetch_ok items) w3)
              (no_faults_after _ _ Hw3))
    as (w' & added & Hloop & Hn & Hup & Hv & Hq & Ht & Hm).
  rewrite Hloop in Hrun. injection Hrun as Ec Ew. subst w'.
  exists u, added, w3, (after_requests (map fetch_ok items) w3),
    (public_shorts (platform w3) items).
  split; [reflexivity|]. split; [reflexivity|]. split; [exact Hok|].
  split; [exact Hn|]. split; [now rewrite Hup|]. split; [exact Hv|].
  split; [exact Hq|]. split; [exact Ht|]. split; [exact Hm|].
  now rewrite <- Ec.
Qed.

(** X13.  What the public-shorts task adds.  When no request fails and
    the task returns, the target playlist afterwards is the playlist as
    it was, followed by one new record for each public short of the
    uploads listed that the listing of the target did not show, in
    descending order of lower-cased title; the count reported is the
    number of these records; the other playlists, the uploads playlist
    of the channel and the details of every video are as they were. *)
Theorem X13_shorts_task_adds_the_unlisted (target : string) (w w' : world)
  (c : nat) :
  no_faults w ->
  AddPublicShortsExtendedTask.execute target w = (Ret c, w') ->
  exists (u : string) (added : list playlist_item),
    uploads_playlist (platform w) = Some u /\
    playlists (platform w') target
    = playlists (platform w) target ++ added /\
    map item_videoId added
    = filter (fun v => negb (is_in v (listed w target)))
        (map AddPublicShortsExtendedTask.short_id
           (PySort.sort
              (fun v => lower (AddPublicShortsExtendedTask.short_title v))
              true
              (public_shorts (platform w)
                 (firstn 100 (playlists (platform w) u))))) /\
    c = List.length added /\
    (forall q, q <> target ->
       playlists (platform w') q = playlists (platform w) q) /\
    uploads_playlist (platform w') = uploads_playlist (platform w) /\
    videos (platform w') = videos (platform w).
Proof.
  intros Hw Hrun.
  destruct (shorts_task_ok target w w' c Hw Hrun)
    as (u & added & w3 & wl & l & Hu & _ & _ & _ & Hup & Hv & Hq & Ht & Hm
        & Hc).
  exists u, added. now repeat split.
Qed.

Lemma X13_witness_one_short :
  exists (u : string) (added : list playlist_item),
    uploads_playlist (platform (short_world 3)) = Some u /\
    playlists
      (platform
         (snd (AddPublicShortsExtendedTask.execute "PL" (short_world 3))))
      "PL"
    = playlists (platform (short_world 3)) "PL" ++ added /\
    map item_videoId added
    = filter (fun v => negb (is_in v (listed (short_world 3) "PL")))
        (map AddPublicShortsExtendedTask.short_id
           (PySort.sort
              (fun v => lower (AddPublicShortsExtendedTask.short_title v))
              true
              (public_shorts (platform (short_world 3))
                 (firstn 100 (playlists (platform (short_world 3)) u))))) /\
    1%nat = List.length added /\
    (forall q, q <> "PL"%string ->
       playlists
         (platform
            (snd (AddPublicShortsExtendedTask.execute "PL" (short_world 3))))
         q
       = playlists (platform (short_world 3)) q) /\
    uploads_playlist
      (platform
         (snd (AddPublicShortsExtendedTask.execute "PL" (short_world 3))))
    = uploads_playlist (platform (short_world 3)) /\
    videos
      (platform
         (snd (AddPublicShortsExtendedTask.execute "PL" (short_world 3))))
    = videos (platform (short_world 3)).
Proof.
  apply (X13_shorts_task_adds_the_unlisted "PL" (short_world 3)
           (snd (AddPublicShortsExtendedTask.execute "PL" (short_world 3)))
           1%nat).
  - intros k. reflexivity.
  - vm_compute. reflexivity.
Defined.

(** X14.  Running the public-shorts task again.  When no request fails,
    the task has returned, the target is not the uploads playlist and
    the target still fits in one page (100 records) after the run, a
    second run right after it returns 0: it only reads, sends no
    insertion and leaves the platform as the first run left it. *)
Theorem X14_shorts_task_again_adds_nothing (target : string)
  (w w1 : world) (c : nat) :
  no_faults w ->
  AddPublicShortsExtendedTask.execute target w = (Ret c, w1) ->
  uploads_playlist (platform w) <> Some target ->
  (List.length (playlists (platform w1) target) <= 100)%nat ->
  exists (w2 : world),
    AddPublicShortsExtendedTask.execute target w1 = (Ret 0%nat, w2) /\
    platform w2 = platform w1 /\
    Forall (fun e => is_write (fst e) = false) (sent_since w1 w2).
Proof.
  intros Hw Hrun Hne Hlen.
  destruct (shorts_task_ok target w w1 c Hw Hrun)
    as (u & added & w3 & wl & l & Hu & Hp3 & Hitems & Hn1 & Hup & Hv & Hq
        & Ht & Hm & _).
  assert (Hut : u <> target) by (intros ->; now apply Hne).
  set (items := firstn 100 (playlists (platform w) u)) in *.
  set (w3' := sent (ReqListItems u 100) true
                (sent ReqChannels true
                   (sent (ReqListItems target 100) true w1))).
  assert (Hn3 : no_faults w3')
    by (unfold w3'; now repeat apply no_faults_sent).
  destruct (shorts_for_items_again items [] [] l w3 w3' wl Hitems Hn3)
    as (_ & _ & Hagain).
  { cbn [w3' sent platform]. unfold w3'. cbn [sent platform].
    now rewrite Hv, Hp3. }
  rewrite Hp3 in Hagain. cbn [app] in Hagain.
  exists (after_requests (map fetch_ok items) w3').
  split; [|split].
  - unfold AddPublicShortsExtendedTask.execute, bind at 1.
    rewrite fetch_playlist_items_eq, (no_faults_now _ Hn1).
    unfold bind at 1. rewrite get_uploads_playlist_id_eq.
    rewrite (no_faults_now _ (no_faults_sent _ _ _ Hn1)).
    cbn [sent platform]. rewrite Hup, Hu.
    unfold bind at 1. rewrite fetch_videos_eq.
    rewrite (no_faults_now _
               (no_faults_sent _ _ _ (no_faults_sent _ _ _ Hn1))).
    cbn [sent platform]. rewrite (Hq u Hut).
    fold items. unfold bind at 1.
    fold w3'.
    rewrite Hagain.
    apply for_selected_all_listed. intros vid Hvid.
    apply is_in_true. unfold listed.
    rewrite firstn_all2 by exact Hlen. rewrite Ht, map_app.
    apply in_or_app.
    destruct (is_in (AddPublicShortsExtendedTask.short_id vid)
                (listed w target)) eqn:Ein.
    + left. apply is_in_true in Ein. unfold listed in Ein.
      apply in_map_iff in Ein. destruct Ein as (it & Eit & Hin).
      apply in_map_iff. exists it. split; [exact Eit|].
      now apply in_firstn_in in Hin.
    + right. rewrite Hm. apply filter_In. split.
      * now apply in_map.
      * now rewrite Ein.
  - reflexivity.
  - erewrite sent_since_app.
    2:{ unfold w3'. cbn [after_requests sent trace].
        rewrite <- !app_assoc. reflexivity. }
    repeat (constructor; [reflexivity|]). apply fetch_ok_reads.
Qed.

Lemma X14_witness_one_short :
  exists (w2 : world),
    AddPublicShortsExtendedTask.execute "PL"
      (snd (AddPublicShortsExtendedTask.execute "PL" (short_world 3)))
    = (Ret 0%nat, w2) /\
    platform w2
    = platform
        (snd (AddPublicShortsExtendedTask.execute "PL" (short_world 3))) /\
    Forall (fun e => is_write (fst e) = false)
      (sent_since
         (snd (AddPublicShortsExtendedTask.execute "PL" (short_world 3)))
         w2).
Proof.
  apply (X14_shorts_task_again_adds_nothing "PL" (short_world 3)
           (snd (AddPublicShortsExtendedTask.execute "PL" (short_world 3)))
           1%nat).
  - intros k. reflexivity.
  - vm_compute. reflexivity.
  - discriminate.
  - vm_compute. lia.
Defined.

Lemma quiet_requests (w : world) (tr : list (request * bool)) :
  Forall (fun e => is_write (fst e) = false) tr ->
  platform (after_requests tr w) = platform w /\
  Forall (fun e => is_write (fst e) = false)
    (sent_since w (after_requests tr w)).
Proof.
  intros H. split; [reflexivity|].
  now rewrite (sent_since_app w (after_requests tr w) tr eq_refl).
Qed.

Lemma quiet_advance (w : world) (tr : list (request * bool)) (n : nat) :
  Forall (fun e => is_write (fst e) = false) tr ->
  platform (advance n (after_requests tr w)) = platform w /\
  Forall (fun e => is_write (fst e) = false)
    (sent_since w (advance n (after_requests tr w))).
Proof.
  intros H. split; [reflexivity|].
  now rewrite (sent_since_app w (advance n (after_requests tr w)) tr eq_refl).
Qed.

Local Ltac quiet_tac :=
  repeat first
    [ assumption
    | apply fetch_ok_reads
    | apply Forall_app; split
    | apply Forall_cons; [reflexivity|]
    | apply Forall_nil ].

(** A full task that does not end normally has written nothing. *)
Lemma full_task_quiet (target : string) (description : pystr)
  (fuel : nat) (w : world) :
  match fst (FullAutomationTask.execute target description fuel w) with
  | Ret _ => True
  | _ =>
      platform (snd (FullAutomationTask.execute target description fuel w))
      = platform w /\
      Forall (fun e => is_write (fst e) = false)
        (sent_since w
           (snd (FullAutomationTask.execute target description fuel w)))
  end.
Proof.
  remember (FullAutomationTask.execute target description fuel w)
    as r eqn:Hr.
  unfold FullAutomationTask.execute, bind at 1 in Hr.
  destruct (list_private_run w) as (tr0 & Hw0 & Hr0 & _ & Hval).
  destruct (ListPrivateVideosTask.execute w) as [[l|e|] w0];
    cbn [fst snd] in Hw0, Hval; subst w0;
    try (subst r; cbn [fst snd]; now apply quiet_requests).
  destruct (Hval l eq_refl) as (u & Eu & _). clear Hval.
  destruct l as [|x l'] eqn:El; [now subst r|].
  rewrite <- El in Hr. set (w0 := after_requests tr0 w) in Hr.
  unfold bind at 1 in Hr.
  rewrite fetch_playlist_items_eq, !sent_after in Hr.
  destruct (faults w0 (requests w0)).
  { subst r. cbn [fst snd]. unfold w0. rewrite !after_requests_app.
    apply quiet_requests. quiet_tac. }
  set (w1 := after_requests [(ReqListItems target 100, true)] w0) in Hr.
  unfold bind at 1 in Hr.
  rewrite get_uploads_playlist_id_eq, !sent_after in Hr.
  destruct (faults w1 (requests w1)).
  { subst r. cbn [fst snd]. unfold w1, w0. rewrite !after_requests_app.
    apply quiet_requests. quiet_tac. }
  change (platform w1) with (platform w) in Hr. rewrite Eu in Hr.
  set (w2 := after_requests [(ReqChannels, true)] w1) in Hr.
  unfold bind at 1 in Hr. rewrite fetch_videos_eq, !sent_after in Hr.
  destruct (faults w2 (requests w2)).
  { subst r. cbn [fst snd]. unfold w2, w1, w0. rewrite !after_requests_app.
    apply quiet_requests. quiet_tac. }
  set (w3 := after_requests [(ReqListItems u 100, true)] w2) in Hr.
  unfold bind at 1 in Hr.
  destruct (generate_schedule_frame (Z.of_nat (List.length l)) fuel w3)
    as (n & Hn).
  destruct (CalendarStrategy.generate_schedule
              (Z.of_nat (List.length l)) fuel w3) as [[dates|e|] w4];
    cbn [snd] in Hn; subst w4;
    try (subst r; cbn [fst snd]; unfold w3, w2, w1, w0;
         rewrite !after_requests_app; apply quiet_advance; quiet_tac).
  destruct (for_videos_turns target description (listed w0 target)
              (FullAutomationTask.build_ref_map
                 (firstn 100 (playlists (platform w2) u)))
              (combine l dates) (advance n w3))
    as (w' & segs & Hrun & _).
  rewrite Hrun in Hr. now subst r.
Qed.

(** A public-shorts task that does not return has written nothing. *)
Lemma shorts_task_quiet (target : string) (w : world) :
  match fst (AddPublicShortsExtendedTask.execute target w) with
  | Ret _ => True
  | _ =>
      platform (snd (AddPublicShortsExtendedTask.execute target w))
      = platform w /\
      Forall (fun e => is_write (fst e) = false)
        (sent_since w (snd (AddPublicShortsExtendedTask.execute target w)))
  end.
Proof.
  remember (AddPublicShortsExtendedTask.execute target w) as r eqn:Hr.
  unfold AddPublicShortsExtendedTask.execute, bind at 1 in Hr.
  rewrite fetch_playlist_items_eq, !sent_after in Hr.
  destruct (faults w (requests w)).
  { subst r. cbn [fst snd]. apply quiet_requests. quiet_tac. }
  set (w1 := after_requests [(ReqListItems target 100, true)] w) in Hr.
  unfold bind at 1 in Hr.
  rewrite get_uploads_playlist_id_eq, !sent_after in Hr.
  destruct (faults w1 (requests w1)).
  { subst r. cbn [fst snd]. unfold w1. rewrite !after_requests_app.
    apply quiet_requests. quiet_tac. }
  destruct (uploads_playlist (platform w1)) as [u|].
  2:{ subst r. cbn [fst snd]. unfold w1. rewrite !after_requests_app.
      apply quiet_requests. quiet_tac. }
  set (w2 := after_requests [(ReqChannels, true)] w1) in Hr.
  unfold bind at 1 in Hr. rewrite fetch_videos_eq, !sent_after in Hr.
  destruct (faults w2 (requests w2)).
  { subst r. cbn [fst snd]. unfold w2, w1. rewrite !after_requests_app.
    apply quiet_requests. quiet_tac. }
  set (w3 := after_requests [(ReqListItems u 100, true)] w2) in Hr.
  set (items := firstn 100 (playlists (platform w2) u)) in Hr.
  unfold bind at 1 in Hr.
  destruct (shorts_for_items_run items [] w3)
    as [Hok|(before & item & rest & e & ok & _ & Hraise & _)].
  - rewrite Hok in Hr.
    destruct (for_selected_turns target (listed w target)
                (PySort.sort
                   (fun v =>
                      lower (AddPublicShortsExtendedTask.short_title v))
                   true ([] ++ public_shorts (platform w3) items))
                0%nat (after_requests (map fetch_ok items) w3))
      as (c & w' & segs & Hloop & _).
    change (listed w target) with (listed w target) in Hloop.
    rewrite Hloop in Hr. now subst r.
  - rewrite Hraise in Hr. subst r. cbn [fst snd]. unfold w3, w2, w1.
    rewrite !after_requests_app. apply quiet_requests. quiet_tac.
Qed.

(** X15.  All or nothing at the start.  A full task or a public-shorts
    task that does not end normally (a listing or a detail fetch failed,
    the channel has no uploads playlist, a video listed does not exist,
    a duration check raised, the calendar ran out) has sent no update
    and no insertion, and the platform is as it was: whatever can stop
    these tasks stops them before their first write. *)
Theorem X15_tasks_stop_before_their_first_write (target : string)
  (description : pystr) (fuel : nat) (w : world) :
  match fst (FullAutomationTask.execute target description fuel w) with
  | Ret _ => True
  | _ =>
      platform (snd (FullAutomationTask.execute target description fuel w))
      = platform w /\
      Forall (fun e => is_write (fst e) = false)
        (sent_since w
           (snd (FullAutomationTask.execute target description fuel w)))
  end /\
  match fst (AddPublicShortsExtendedTask.execute target w) with
  | Ret _ => True
  | _ =>
      platform (snd (AddPublicShortsExtendedTask.execute target w))
      = platform w /\
      Forall (fun e => is_write (fst e) = false)
        (sent_since w (snd (AddPublicShortsExtendedTask.execute target w)))
  end.
Proof.
  split; [apply full_task_quiet|apply shorts_task_quiet].
Qed.

Lemma new_title_has_tag (t : pystr) :
  contains (py "#biblia") (lower (FullAutomationTask.new_title t)) = true.
Proof.
  unfold FullAutomationTask.new_title.
  destruct (contains (py "#biblia") (lower t)) eqn:E; [exact E|].
  apply TitleClaims.tagged_has_tag.
Qed.

Lemma generate_on_table (quantity : Z) (fuel : nat) (w w' : world)
  (dates : list datetime) :
  CalendarStrategy.generate_schedule quantity fuel w = (Ret dates, w') ->
  Forall (on_table CalendarStrategy.slots) dates.
Proof.
  unfold CalendarStrategy.generate_schedule,
    CalendarStrategy.generate_schedule_from. intros H.
  apply bind_Ret_inv in H. destruct H as (current & w1 & _ & H).
  apply (CalendarExtras.while_loop_on_table _ _ _ _ _ _ _ _ H). constructor.
Qed.

(** The updates among the requests of the loop's turns. *)
Lemma turns_updates (target : string) (description : pystr)
  (ya : list string) (ref_map : FullAutomationTask.dict)
  (Q : update_body -> Prop)
  (pairs : list (ListPrivateVideosTask.video_info * datetime))
  (segs : list (list (request * bool))) :
  Forall2 (full_turn target description ya ref_map) pairs segs ->
  (forall pair, In pair pairs ->
     Q (FullAutomationTask.make_body description ref_map (fst pair)
          (snd pair))) ->
  Forall (fun e => forall b, fst e = ReqUpdate b -> Q b) (List.concat segs).
Proof.
  induction 1 as [|pair seg pairs segs Hturn _ IH]; intros HQ;
    [constructor|].
  cbn [List.concat]. apply Forall_app. split.
  - pose proof (HQ pair (or_introl eq_refl)) as Hb.
    destruct Hturn as [->|[[-> _]|(ok & -> & _)]];
      repeat (constructor;
              [intros b E; cbn [fst] in E;
               first [discriminate|now injection E as <-]|]);
      constructor.
  - apply IH. intros p Hp. apply HQ. now right.
Qed.

Lemma reads_no_update (Q : update_body -> Prop)
  (tr : list (request * bool)) :
  Forall (fun e => is_write (fst e) = false) tr ->
  Forall (fun e => forall b, fst e = ReqUpdate b -> Q b) tr.
Proof.
  apply Forall_impl. intros [r ok] H b E. cbn [fst] in *. now subst r.
Qed.

(** X16.  Every update that the full task sends, whatever fails and
    whatever the clock does: its title holds the tag "#biblia" (in any
    case), its description is the task's, its date is a slot of the
    weekly table, and its video is one whose details, at the start of
    the run, said "private".  The task never reschedules a video that
    was not private. *)
Theorem X16_every_update_of_the_full_task (target : string)
  (description : pystr) (fuel : nat) (w : world) :
  Forall
    (fun e => forall b, fst e = ReqUpdate b ->
       contains (py "#biblia") (lower (body_title b)) = true /\
       body_description b = description /\
       on_table CalendarStrategy.slots (body_publishAt b) /\
       exists d, videos (platform w) (body_id b) = Some d /\
                 privacyStatus d = "private"%string)
    (sent_since w
       (snd (FullAutomationTask.execute target description fuel w))).
Proof.
  set (Q := fun b : update_body =>
       contains (py "#biblia") (lower (body_title b)) = true /\
       body_description b = description /\
       on_table CalendarStrategy.slots (body_publishAt b) /\
       exists d, videos (platform w) (body_id b) = Some d /\
                 privacyStatus d = "private"%string).
  change (Forall (fun e => forall b, fst e = ReqUpdate b -> Q b)
            (sent_since w
               (snd (FullAutomationTask.execute target description fuel
                       w)))).
  remember (FullAutomationTask.execute target description fuel w)
    as r eqn:Hr.
  unfold FullAutomationTask.execute, bind at 1 in Hr.
  destruct (list_private_run w) as (tr0 & Hw0 & Hr0 & _ & Hval).
  destruct (ListPrivateVideosTask.execute w) as [[l|e|] w0];
    cbn [fst snd] in Hw0, Hval; subst w0;
    try (subst r; cbn [fst snd]; apply reads_no_update;
         now apply quiet_requests).
  destruct (Hval l eq_refl) as (u & Eu & Hl). clear Hval.
  destruct l as [|x l'] eqn:El;
    [subst r; cbn [fst snd]; apply reads_no_update;
     now apply quiet_requests|].
  rewrite <- El in Hr, Hl. set (w0 := after_requests tr0 w) in Hr.
  unfold bind at 1 in Hr.
  rewrite fetch_playlist_items_eq, !sent_after in Hr.
  destruct (faults w0 (requests w0)).
  { subst r. cbn [fst snd]. unfold w0. rewrite !after_requests_app.
    apply reads_no_update, quiet_requests. quiet_tac. }
  set (w1 := after_requests [(ReqListItems target 100, true)] w0) in Hr.
  unfold bind at 1 in Hr.
  rewrite get_uploads_playlist_id_eq, !sent_after in Hr.
  destruct (faults w1 (requests w1)).
  { subst r. cbn [fst snd]. unfold w1, w0. rewrite !after_requests_app.
    apply reads_no_update, quiet_requests. quiet_tac. }
  change (platform w1) with (platform w) in Hr. rewrite Eu in Hr.
  set (w2 := after_requests [(ReqChannels, true)] w1) in Hr.
  unfold bind at 1 in Hr. rewrite fetch_videos_eq, !sent_after in Hr.
  destruct (faults w2 (requests w2)).
  { subst r. cbn [fst snd]. unfold w2, w1, w0. rewrite !after_requests_app.
    apply reads_no_update, quiet_requests. quiet_tac. }
  set (w3 := after_requests [(ReqListItems u 100, true)] w2) in Hr.
  set (ref_map := FullAutomationTask.build_ref_map _) in Hr.
  unfold bind at 1 in Hr.
  destruct (generate_schedule_frame (Z.of_nat (List.length l)) fuel w3)
    as (n & Hn).
  destruct (CalendarStrategy.generate_schedule
              (Z.of_nat (List.length l)) fuel w3) as [[dates|e|] w4]
    eqn:Hgen;
    cbn [snd] in Hn; subst w4;
    try (subst r; cbn [fst snd]; unfold w3, w2, w1, w0;
         rewrite !after_requests_app; apply reads_no_update, quiet_advance;
         quiet_tac).
  destruct (for_videos_turns target description (listed w0 target) ref_map
              (combine l dates) (advance n w3))
    as (w' & segs & Hrun & Ht & Hf).
  rewrite Hrun in Hr. subst r. cbn [snd].
  erewrite sent_since_app.
  2:{ rewrite Ht. unfold w3, w2, w1, w0. rewrite !after_requests_app.
      cbn [advance after_requests trace]. rewrite <- app_assoc.
      reflexivity. }
  apply Forall_app. split; [apply reads_no_update; quiet_tac|].
  apply (turns_updates _ _ _ _ Q _ _ Hf).
  intros [info date] Hin. cbn [fst snd].
  pose proof (in_combine_l _ _ _ _ Hin) as Hinfo.
  pose proof (in_combine_r _ _ _ _ Hin) as Hdate.
  unfold Q. cbn [FullAutomationTask.make_body body_title body_description
                   body_publishAt body_id].
  split; [apply new_title_has_tag|]. split; [reflexivity|]. split.
  - pose proof (generate_on_table _ _ _ _ _ Hgen) as Hall.
    rewrite Forall_forall in Hall. now apply Hall.
  - rewrite Hl in Hinfo.
    apply (Permutation_in info
             (Permutation_sym (PySortFacts.sort_perm _ _ false _)))
      in Hinfo.
    apply private_infos_in in Hinfo.
    destruct Hinfo as (item & d & _ & Hv & Hp & ->). exists d.
    now split.
Qed.

(** X18.  What the duplicate check does keep.  Neither the full task nor
    the public-shorts task asks for the insertion of a video that the
    listing of the playlist, taken at the start of the run, shows as a
    member.  When that listing
    is the whole playlist (it holds at most 100 records), with no video
    twice, and the uploads listed hold no video twice, the playlist holds
    no video twice after the run; and so again after a second run, when
    the playlist still fits in one listing. *)
Theorem X18_insertions_are_deduplicated (target : string)
  (description : pystr) (fuel : nat) (w : world) :
  let full :=
    snd (FullAutomationTask.execute target description fuel w) in
  let sync := snd (AddPublicShortsExtendedTask.execute target w) in
  let again := snd (AddPublicShortsExtendedTask.execute target sync) in
  (Forall (insert_unlisted target (listed w target)) (sent_since w full) /\
   Forall (insert_unlisted target (listed w target)) (sent_since w sync)) /\
  (NoDup (members w target) ->
   (List.length (playlists (platform w) target) <= 100)%nat ->
   NoDup (uploaded w) ->
   NoDup (members full target) /\
   NoDup (members sync target) /\
   ((List.length (playlists (platform sync) target) <= 100)%nat ->
    NoDup (uploaded sync) ->
    NoDup (members again target))).
Proof.
  intros full sync again.
  destruct (full_deduplicated target description fuel w) as [Hf1 Hf2].
  destruct (shorts_deduplicated target w) as [Hs1 Hs2].
  destruct (shorts_deduplicated target sync) as [_ Ha2].
  split; [now split|].
  intros Hnd Hlen Hup. split; [now apply Hf2|].
  split; [now apply Hs2|].
  intros Hlen' Hup'. apply Ha2; auto.
Qed.

Lemma X18_witness_small_playlist :
  NoDup (members (short_world 3) "PL") /\
  NoDup (members
           (snd (AddPublicShortsExtendedTask.execute "PL" (short_world 3)))
           "PL") /\
  NoDup (members
           (snd (AddPublicShortsExtendedTask.execute "PL"
                   (snd (AddPublicShortsExtendedTask.execute "PL"
                           (short_world 3)))))
           "PL").
Proof.
  assert (Hnd : NoDup (members (short_world 3) "PL")).
  { vm_compute. repeat constructor; simpl; intuition discriminate. }
  assert (Hup : NoDup (uploaded (short_world 3))).
  { vm_compute. repeat constructor; simpl; intuition discriminate. }
  assert (Hlen : (List.length (playlists (platform (short_world 3)) "PL")
                  <= 100)%nat).
  { vm_compute. lia. }
  destruct (X18_insertions_are_deduplicated "PL" (py "text") 40
              (short_world 3)) as [_ H].
  destruct (H Hnd Hlen Hup) as (_ & Hsync & Hagain).
  split; [exact Hnd|]. split; [exact Hsync|].
  apply Hagain.
  - vm_compute. lia.
  - vm_compute. repeat constructor; simpl; intuition discriminate.
Defined.

(** The order of the public-shorts task on titles outside Latin-1:
    "авель" and "Яков" are taken as Яков, авель, lower-case я coming
    after а. *)
Example shorts_order_cyrillic :
  map AddPublicShortsExtendedTask.short_id
    (PySort.sort
       (fun v => lower (AddPublicShortsExtendedTask.short_title v)) true
       [AddPublicShortsExtendedTask.mkshort
          [1072; 1074; 1077; 1083; 1100]%N "v1";
        AddPublicShortsExtendedTask.mkshort
          [1071; 1082; 1086; 1074]%N "v2"])
  = ["v2"; "v1"]%string.
Proof. vm_compute. reflexivity. Qed.

(** The public-shorts task on the two Cyrillic titles: Яков is inserted
    before авель. *)
Example shorts_task_cyrillic :
  AddPublicShortsExtendedTask.execute "PL" cyrillic_world
  = (Ret 2%nat,
     snd (AddPublicShortsExtendedTask.execute "PL" cyrillic_world)) /\
  trace (snd (AddPublicShortsExtendedTask.execute "PL" cyrillic_world))
  = [(ReqListItems "PL" 100, true); (ReqChannels, true);
     (ReqListItems "UU" 100, true); (ReqVideo "v1", true);
     (ReqVideo "v2", true); (ReqInsert "v2" "PL", true);
     (ReqInsert "v1" "PL", true)] /\
  members (snd (AddPublicShortsExtendedTask.execute "PL" cyrillic_world))
    "PL"
  = ["v2"; "v1"]%string.
Proof. vm_compute. repeat split. Qed.

(** The reference map on a title with a long s (U+017F), whose upper
    case is "S": "Géneſis - Capítulo 9" enters the map under "9". *)
Example ref_map_long_s :
  FullAutomationTask.dict_get
    (FullAutomationTask.build_ref_map
       [mkitem 1%N
          [71; 233; 110; 101; 383; 105; 115; 32; 45; 32; 67; 97; 112; 237;
           116; 117; 108; 111; 32; 57]%N "g9"])
    (py "9")
  = Some "g9"%string.
Proof. vm_compute. reflexivity. Qed.

End TaskExtras.
